(** * DiscoX evaluation pipeline: score aggregation, structured judge calls,
      the judgment pipeline and the resumable task runner.

    A shallow embedding of [eval/eval_res.py], [runs/run.py],
    [run_tasks.py] and [dataset/data.py].  Python values that cross the JSON boundary are values of
    the inductive type [json]; Python strings are sequences of Unicode code
    points; code that can raise returns a [res]; code that talks to the model
    backend or to the file system threads an explicit world. *)

From Stdlib Require Import ZArith NArith List Bool Lia String Ascii SpecFloat.
From stdpp Require Import base option list gmap.

Set Warnings "-register-all".
Local Open Scope Z_scope.

(** ** Python strings *)

Module Py.

(** A [str] is a sequence of code points. *)
Abbreviation pystr := (list N).

(** Source literals are written as UTF-8 text and decoded once. *)
Definition byte_val (a : ascii) : N := N_of_ascii a.

Fixpoint bytes_of (s : string) : list N :=
  match s with
  | EmptyString => []
  | String a s' => byte_val a :: bytes_of s'
  end.

Definition cont (b : N) : N := N.land b 63.

Fixpoint utf8_decode (bs : list N) : pystr :=
  match bs with
  | [] => []
  | b0 :: r0 =>
    if (b0 <? 128)%N then b0 :: utf8_decode r0
    else match r0 with
    | [] => [b0]
    | b1 :: r1 =>
      if (b0 <? 224)%N
      then (N.land b0 31 * 64 + cont b1)%N :: utf8_decode r1
      else match r1 with
      | [] => [b0; b1]
      | b2 :: r2 =>
        if (b0 <? 240)%N
        then (N.land b0 15 * 4096 + cont b1 * 64 + cont b2)%N :: utf8_decode r2
        else match r2 with
        | [] => [b0; b1; b2]
        | b3 :: r3 =>
          (N.land b0 7 * 262144 + cont b1 * 4096 + cont b2 * 64 + cont b3)%N
            :: utf8_decode r3
        end
      end
    end
  end.

Definition u (s : string) : pystr := utf8_decode (bytes_of s).

(** [Py_UNICODE_ISSPACE]: the characters [str.strip()] removes and the
    pattern class [\s] matches on [str] patterns. *)
Definition is_space (c : N) : bool :=
  ((9 <=? c) && (c <=? 13) || (28 <=? c) && (c <=? 32)
   || (c =? 133) || (c =? 160) || (c =? 5760)
   || (8192 <=? c) && (c <=? 8202)
   || (c =? 8232) || (c =? 8233) || (c =? 8239) || (c =? 8287)
   || (c =? 12288))%N.

(** Dropping the leading, or the trailing, characters of a class. *)
Fixpoint lstrip_by (p : N -> bool) (s : pystr) : pystr :=
  match s with
  | c :: s' => if p c then lstrip_by p s' else s
  | [] => []
  end.

Fixpoint rstrip_by (p : N -> bool) (s : pystr) : pystr :=
  match s with
  | [] => []
  | c :: s' =>
      match rstrip_by p s' with
      | [] => if p c then [] else [c]
      | t => c :: t
      end
  end.

Abbreviation lstrip := (lstrip_by is_space).
Abbreviation rstrip := (rstrip_by is_space).

(** [s.strip()] *)
Definition strip (s : pystr) : pystr := rstrip (lstrip s).

Definition NL : pystr := [10%N].       (* "\n" *)

(** A [str] may hold surrogate code points on their own; the [utf-8] codec
    refuses to encode them. *)
Definition is_surrogate (c : N) : bool := ((55296 <=? c) && (c <=? 57343))%N.

(** [s.encode("utf-8")] does not raise. *)
Definition encodable (s : pystr) : bool := forallb (fun c => negb (is_surrogate c)) s.

(** [s.startswith(p)] *)
Fixpoint startswith (p s : pystr) : bool :=
  match p, s with
  | [], _ => true
  | a :: p', b :: s' => (a =? b)%N && startswith p' s'
  | _ :: _, [] => false
  end.

(** [s.find(p)]: index of the first occurrence, [None] for Python's -1. *)
Fixpoint find (p s : pystr) : option nat :=
  if startswith p s then Some 0%nat
  else match s with
       | [] => None
       | _ :: s' => S <$> find p s'
       end.

(** [p in s] for two strings. *)
Definition is_substring (p s : pystr) : bool := bool_decide (is_Some (find p s)).

(** ** Exceptions and results *)

(** The subclasses of [Exception] the sources can meet. *)
Inductive exn :=
| TypeError | KeyError | ValueError | IndexError
| RuntimeError (msg : pystr)
| OSError
| UnicodeEncodeError.

Inductive res (A : Type) :=
| OK (a : A)
| Raise (e : exn).
Arguments OK {A} a.
Arguments Raise {A} e.

Definition rbind {A B} (x : res A) (f : A -> res B) : res B :=
  match x with
  | OK a => f a
  | Raise e => Raise e
  end.

(** ** JSON values, as [json.loads] builds them *)

Inductive json :=
| JNull
| JBool (b : bool)
| JInt (z : Z)
| JFloat (f : spec_float)
| JStr (s : pystr)
| JArr (l : list json)
| JObj (kv : list (pystr * json)).

(** A [dict] read from JSON has unique keys, so the first binding is the
    binding. *)
Fixpoint assoc {A} (k : pystr) (kv : list (pystr * A)) : option A :=
  match kv with
  | [] => None
  | (k', v) :: kv' => if decide (k = k') then Some v else assoc k kv'
  end.

Definition eq_str (k : pystr) (v : json) : bool :=
  match v with
  | JStr s => bool_decide (k = s)
  | _ => false
  end.

(** [for item in v] *)
Definition py_iter (v : json) : res (list json) :=
  match v with
  | JArr l => OK l
  | JObj kv => OK (JStr <$> kv.*1)
  | JStr s => OK ((fun c => JStr [c]) <$> s)
  | _ => Raise TypeError
  end.

(** [k in v] for a string [k] *)
Definition py_contains (k : pystr) (v : json) : res bool :=
  match v with
  | JObj kv => OK (bool_decide (is_Some (assoc k kv)))
  | JArr l => OK (existsb (eq_str k) l)
  | JStr s => OK (is_substring k s)
  | _ => Raise TypeError
  end.

(** [v[k]] for a string [k] *)
Definition py_getitem (k : pystr) (v : json) : res json :=
  match v with
  | JObj kv => match assoc k kv with
               | Some x => OK x
               | None => Raise KeyError
               end
  | _ => Raise TypeError
  end.

(** [v in d] and [d[v]] for a [dict] with string keys: lists and dicts are
    unhashable, everything else that is not a string is simply absent. *)
Definition py_dict_get {A} (v : json) (d : gmap pystr A) : res (option A) :=
  match v with
  | JStr s => OK (d !! s)
  | JArr _ | JObj _ => Raise TypeError
  | _ => OK None
  end.

(** [z == v] for an [int] [z]: numbers compare by exact value, [True] is 1. *)
Definition eq_int (z : Z) (v : json) : bool :=
  match v with
  | JInt z' => z =? z'
  | JBool b => z =? (if b then 1 else 0)
  | JFloat (S754_zero _) => z =? 0
  | JFloat (S754_finite s m e) =>
      let v := if s then Z.neg m else Z.pos m in
      if 0 <=? e then z =? v * 2 ^ e else z * 2 ^ (- e) =? v
  | _ => false
  end.

(** ** What [json.loads] does around a document

    [JSONDecoder.decode] skips the characters space, tab, line feed and
    carriage return before and after the value, and the scanner finds a value
    only where a double quote, an opening brace or bracket, one of the
    letters n t f N I, a minus sign or a digit starts it. *)

Definition json_ws (c : N) : bool :=
  ((c =? 32) || (c =? 9) || (c =? 10) || (c =? 13))%N.

Definition json_strip (s : pystr) : pystr :=
  rstrip_by json_ws (lstrip_by json_ws s).

Definition value_start (c : N) : bool :=
  ((c =? 34) || (c =? 123) || (c =? 91) || (c =? 110) || (c =? 116) || (c =? 102)
   || (c =? 78) || (c =? 73) || (c =? 45) || (48 <=? c) && (c <=? 57))%N.

Definition starts_value (s : pystr) : bool :=
  match head (lstrip_by json_ws s) with
  | Some c => value_start c
  | None => false
  end.

End Py.

Import Py.

(** ** [eval/eval_res.py]: the score calculator *)

Module Score.

Definition SEVERITY : pystr := Eval vm_compute in u "问题严重程度".
Definition VERDICT : pystr := Eval vm_compute in u "判断结果".

Definition ACCURACY_MAPPING : gmap pystr Z :=
  list_to_map
    [ (u "整体无问题", 0);
      (u "普通", -5); (u "Major", -5);
      (u "严重", -10); (u "Critical", -10);
      (u "非常严重", -50); (u "Extremely Critical", -50) ].

Definition CORRECTNESS_MAPPING : gmap pystr Z :=
  list_to_map [ (u "错误", -5); (u "正确", 0) ].

Definition FLUENCY_MAPPING : gmap pystr Z :=
  list_to_map [ (u "无问题", 0); (u "有问题", -2); (u "整体无问题", 0) ].

Definition APPROPIATE_MAPPING : gmap pystr Z :=
  list_to_map [ (u "无问题", 0); (u "有问题", -5); (u "整体无问题", 0) ].

(** The body shared by the four loops:
    [if KEY in item and item[KEY] in MAPPING: score += MAPPING[item[KEY]]]
    [else: score += dflt]. *)
Definition step (key : pystr) (mapping : gmap pystr Z) (dflt : Z)
    (score : Z) (item : json) : res Z :=
  rbind (py_contains key item) (fun present =>
  if present : bool then
    rbind (py_getitem key item) (fun v =>
    rbind (py_dict_get v mapping) (fun hit =>
    match hit with
    | Some penalty => OK (score + penalty)
    | None => OK (score + dflt)
    end))
  else OK (score + dflt)).

(** [for item in items: ...], left to right, stopping at the first raise. *)
Fixpoint loop (key : pystr) (mapping : gmap pystr Z) (dflt : Z)
    (score : Z) (items : list json) : res Z :=
  match items with
  | [] => OK score
  | item :: rest =>
      rbind (step key mapping dflt score item) (fun score' =>
      loop key mapping dflt score' rest)
  end.

Definition for_each (key : pystr) (mapping : gmap pystr Z) (dflt : Z)
    (score : Z) (v : json) : res Z :=
  rbind (py_iter v) (loop key mapping dflt score).

Definition calculate_score (acc ckpt flu appropiate : json) : res (Z * Z * Z) :=
  let acc_score := 60 in
  rbind (for_each SEVERITY ACCURACY_MAPPING (-5) acc_score acc) (fun acc_score =>
  rbind (for_each VERDICT CORRECTNESS_MAPPING 0 acc_score ckpt) (fun acc_score =>
  let acc_score := Z.max acc_score 0 in
  let flu_score := 20 in
  rbind (for_each SEVERITY FLUENCY_MAPPING 0 flu_score flu) (fun flu_score =>
  let flu_score := Z.max flu_score 0 in
  let appropiate_score := 20 in
  rbind (for_each SEVERITY APPROPIATE_MAPPING 0 appropiate_score appropiate)
    (fun appropiate_score =>
  let appropiate_score := Z.max appropiate_score 0 in
  OK (acc_score, flu_score, appropiate_score))))).

End Score.

Import Score.

(** ** The fragment of Python's [re] the sources use

    A backtracking matcher in continuation-passing style: alternatives are
    tried in the order the [re] module tries them, and the first complete
    match wins.  Greedy [?] and [*] try the longer alternative first, the lazy
    [*?] the shorter one.  Repetition is only needed over character classes.
    The patterns have a single capture group. *)

Module Re.

Inductive regex :=
| Eps                         (* the empty pattern *)
| Chr (c : N)                 (* a literal character *)
| Class (p : N -> bool)       (* a character class *)
| Cat (r1 r2 : regex)         (* r1 r2 *)
| Opt (r : regex)             (* (?:r)?  greedy *)
| Star (p : N -> bool)        (* [p]*    greedy *)
| StarLazy (p : N -> bool)    (* [p]*?   lazy *)
| Group (r : regex).          (* ( r )   group 1 *)

(** A literal string. *)
Fixpoint Lit (s : pystr) : regex :=
  match s with
  | [] => Eps
  | c :: s' => Cat (Chr c) (Lit s')
  end.

Section Run.
Context {R : Type}.

(** The continuation receives the rest of the subject and group 1. *)
Definition cont := pystr -> option pystr -> option R.

Fixpoint greedy (p : N -> bool) (k : pystr -> option R) (s : pystr) : option R :=
  match s with
  | c :: s' =>
      if p c then
        match greedy p k s' with
        | Some r => Some r
        | None => k s
        end
      else k s
  | [] => k s
  end.

Fixpoint lazy (p : N -> bool) (k : pystr -> option R) (s : pystr) : option R :=
  match k s with
  | Some r => Some r
  | None =>
      match s with
      | c :: s' => if p c then lazy p k s' else None
      | [] => None
      end
  end.

Fixpoint run (r : regex) (s : pystr) (g : option pystr) (k : cont) : option R :=
  match r with
  | Eps => k s g
  | Chr c =>
      match s with
      | x :: s' => if (x =? c)%N then k s' g else None
      | [] => None
      end
  | Class p =>
      match s with
      | x :: s' => if p x then k s' g else None
      | [] => None
      end
  | Cat r1 r2 => run r1 s g (fun s' g' => run r2 s' g' k)
  | Opt r1 =>
      match run r1 s g k with
      | Some x => Some x
      | None => k s g
      end
  | Star p => greedy p (fun s' => k s' g) s
  | StarLazy p => lazy p (fun s' => k s' g) s
  | Group r1 =>
      run r1 s g (fun s' _ => k s' (Some (take (length s - length s') s)))
  end.
End Run.

(** A match at the current position: the value of [match.group(1)]. *)
Definition match_here (r : regex) (s : pystr) : option (option pystr) :=
  run r s None (fun _ g => Some g).

(** [re.search(r, s)]: the leftmost position with a match. *)
Fixpoint search (r : regex) (s : pystr) : option (option pystr) :=
  match match_here r s with
  | Some g => Some g
  | None =>
      match s with
      | [] => None
      | _ :: s' => search r s'
      end
  end.

Definition any (c : N) : bool := true.
Definition not_space (c : N) : bool := negb (is_space c).

End Re.

Import Re.

(** ** [eval/eval_res.py]: extracting the JSON fragment *)

Module Extract.

Definition FENCE : pystr := Eval vm_compute in u "```".
Definition TAG : pystr := Eval vm_compute in u "json".

(** [r"```(?:json)?\s*([\s\S]*?)\s*```"] *)
Definition fence_re : regex :=
  Cat (Lit FENCE)
 (Cat (Opt (Lit TAG))
 (Cat (Star is_space)
 (Cat (Group (StarLazy any))
 (Cat (Star is_space)
      (Lit FENCE))))).

Definition extract_json_string (text : pystr) : pystr :=
  match search fence_re text with
  | Some (Some g) => strip g
  | Some None => text     (* unreachable: group 1 takes part in every match *)
  | None => text
  end.

End Extract.

Import Extract.

(** ** Library functions and constants the sources import

    [json], [str.format], [glob], [traceback] and float arithmetic are Python
    libraries; the prompt templates live in [eval/prompts.py].  The
    development is parametric in them. *)

Class PyLib := {
  json_loads : pystr -> res json;          (* json.loads(s) *)
  json_dumps : json -> pystr;              (* json.dumps(v, ensure_ascii=False) *)
  json_dump_indent : json -> list pystr;   (* the pieces json.dump(v, f, ensure_ascii=False,
                                              indent=2) writes to f, one after the other *)
  str_format : pystr -> list (pystr * json) -> res pystr;   (* template.format( **kwargs) *)
  fnmatch : pystr -> pystr -> bool;        (* does a file name match a glob pattern *)
  exn_str : exn -> pystr;                  (* str(e) *)
  format_exc : exn -> pystr;               (* traceback.format_exc() *)
  mean_percent : list json -> res json     (* sum(valid) / (len(valid)*100) *)
}.

(** What the development uses of [json.loads]: surrounding JSON whitespace
    does not matter, and a text that parses starts, after its whitespace,
    with a character that starts a value. *)
Class JsonWhitespace (lib : PyLib) : Prop := {
  json_loads_ws : forall a s b,
    Forall (fun c => json_ws c = true) a -> Forall (fun c => json_ws c = true) b ->
    json_loads (a ++ s ++ b) = json_loads s;
  json_loads_start : forall s v, json_loads s = OK v -> starts_value s = true
}.

Class Prompts := {
  accuracy_sp : pystr;  up : pystr;
  checkpoints_sp : pystr;  checkpoints_up : pystr;
  fluency_sp : pystr;  appropiate_sp : pystr;
  self_critique_sp : pystr;  self_critique_up : pystr;
  instruct_sp : pystr;  instruct_up : pystr;
  accuracy_final_sp : pystr;  accuracy_final_up : pystr;
  appropiate_final_sp : pystr;  appropiate_final_up : pystr;
  checkpoints_final_sp : pystr;  checkpoints_final_up : pystr;
  fluency_final_sp : pystr;  fluency_final_up : pystr
}.

(** ** Computations that may raise and that change a state *)

Module Eff.

Definition ST (S A : Type) : Type := S -> res A * S.

Section Ops.
Context {S : Type}.

Definition ret {A} (a : A) : ST S A := fun w => (OK a, w).
Definition raise {A} (e : exn) : ST S A := fun w => (Raise e, w).
Definition bind {A B} (m : ST S A) (f : A -> ST S B) : ST S B := fun w =>
  match m w with
  | (OK a, w') => f a w'
  | (Raise e, w') => (Raise e, w')
  end.
Definition lift {A} (r : res A) : ST S A := fun w => (r, w).

(** [try: m  except Exception as e: h e] *)
Definition catch {A} (m : ST S A) (h : exn -> ST S A) : ST S A := fun w =>
  match m w with
  | (OK a, w') => (OK a, w')
  | (Raise e, w') => h e w'
  end.

(** [[f(x) for x in xs]], left to right. *)
Fixpoint for_list {A B} (f : A -> ST S B) (xs : list A) : ST S (list B) :=
  match xs with
  | [] => ret []
  | x :: xs' =>
      bind (f x) (fun y => bind (for_list f xs') (fun ys => ret (y :: ys)))
  end.
End Ops.

Declare Scope py_scope.
Delimit Scope py_scope with py.
Notation "x <- m ;; k" := (bind m (fun x => k))
  (at level 100, m at next level, right associativity) : py_scope.

End Eff.

Import Eff.

(** ** [runs/run.py]: the model invoker *)

Module Invoker.

Record message := { role : pystr; content : pystr }.

(** The keyword arguments handed to [litellm.completion]. *)
Record request := {
  req_model : pystr;
  req_top_p : option spec_float;
  req_messages : list message;
  req_api_base : pystr;
  req_api_key : pystr;
  req_temperature : option spec_float;
  req_max_tokens : option Z
}.

(** What the backend does with a request: it answers with a message whose
    content is a string or [None], or the call raises. *)
Inductive reply :=
| Content (c : option pystr)
| Failure.

(** The world a worker sees: the process environment, the backend (its answer
    to the last request of a history) and the requests sent so far. *)
Record world := {
  environ : pystr -> option pystr;
  completion : list request -> reply;
  sent : list request
}.

Definition send (req : request) (w : world) : world :=
  {| environ := environ w; completion := completion w; sent := sent w ++ [req] |}.

(** Computations of a worker: they may raise and they change the world. *)
Definition M : Type -> Type := ST world.

Definition zero : spec_float := S754_zero false.                     (* 0.0 *)
Definition zero_point_seven : spec_float :=
  S754_finite false 6305039478318694 (-53).                          (* 0.7 *)

Definition litellm_generate (messages : list message) (model : pystr)
    (temperature : option spec_float) (max_tokens : option Z)
    (judging_mode : bool) (top_p : option spec_float) : M (option pystr) := fun w =>
  let temperature := if judging_mode then Some zero else temperature in
  let top_p := if judging_mode then Some zero_point_seven else top_p in
  let names :=
    if negb judging_mode then (u "CANDIDATE_API_BASE", u "CANDIDATE_API_KEY")
    else (u "JUDGE_API_BASE", u "JUDGE_API_KEY") in
  match environ w names.1, environ w names.2 with
  | Some api_base, Some api_key =>
      let req := {| req_model := model; req_top_p := top_p;
                    req_messages := messages;
                    req_api_base := api_base; req_api_key := api_key;
                    req_temperature := temperature;
                    req_max_tokens := max_tokens |} in
      let w' := send req w in
      match completion w (sent w') with
      | Content c => (OK c, w')
      | Failure => (OK None, w')         (* except Exception: return None *)
      end
  | _, _ => (OK None, w)                 (* KeyError, caught as well *)
  end.

End Invoker.

Import Invoker.
Local Open Scope py_scope.

(** ** [dataset/data.py]: the task record *)

Record DISCOX := {
  prompt_id : Z;
  prompt : pystr;
  reference_list : pystr;
  ori_text : pystr;
  primary_domain : pystr;
  secondary_domain : pystr
}.

(** [task.model_dump(by_alias=True)] *)
Definition model_dump (task : DISCOX) : list (pystr * json) :=
  [ (u "prompt_id", JInt (prompt_id task));
    (u "prompt", JStr (prompt task));
    (u "reference_list", JStr (reference_list task));
    (u "ori_text", JStr (ori_text task));
    (u "Primary_Domain", JStr (primary_domain task));
    (u "Secondary_Domain", JStr (secondary_domain task)) ].

(** ** [eval/eval_res.py]: structured judge calls and the pipeline *)

Module Judge.
Section Judge.
Context {lib : PyLib} {tpl : Prompts}.

(** [json.loads(res)]: a [None] is a [TypeError]. *)
Definition loads (r : option pystr) : res json :=
  match r with
  | Some s => json_loads s
  | None => Raise TypeError
  end.

(** The loop of [safe_json_call]'s wrapper with [n] attempts left:
    [try: res = func(); return json.loads(res)]
    [except Exception: log, go on]; after the loop, [return []]. *)
Fixpoint attempts (func : M (option pystr)) (n : nat) : M json :=
  match n with
  | O => ret (JArr [])
  | S n' =>
      catch (r <- func ;; lift (loads r))
            (fun _ => attempts func n')
  end.

(** The wrapper [safe_json_call] returns, called with [retries]:
    [range(1, retries + 1)] has [max(retries, 0)] elements. *)
Definition safe_json_call (func : M (option pystr)) (retries : Z) : M json :=
  attempts func (Z.to_nat retries).

(** A string, or [None], as a keyword argument or a JSON value. *)
Definition opt_str (o : option pystr) : json :=
  match o with
  | Some s => JStr s
  | None => JNull
  end.

Definition eval_result_by_llm (sp up : pystr) (judge_model : pystr)
    (kwargs : list (pystr * json)) : M pystr :=
  user_prompt <- lift (str_format up kwargs) ;;
  let judge_input := [ {| role := u "system"; content := sp |};
                       {| role := u "user"; content := user_prompt |} ] in
  judgeres <- litellm_generate judge_input judge_model None None true None ;;
  match judgeres with
  | Some text => ret (extract_json_string text)
  | None => raise TypeError      (* re.search on None *)
  end.

(** [try: return f  except Exception: return None] *)
Definition or_none (f : M pystr) : M (option pystr) :=
  catch (r <- f ;; ret (Some r)) (fun _ => ret None).

Definition judge_accuracy (ori_text : pystr) (response : json)
    (judge_model : pystr) : M json :=
  safe_json_call
    (or_none (eval_result_by_llm accuracy_sp up judge_model
       [(u "ori_text", JStr ori_text); (u "response", response)])) 3.

Definition judge_checkpoint (ori_text : pystr) (response : json)
    (checkpoints : pystr) (judge_model : pystr) : M json :=
  safe_json_call
    (or_none (eval_result_by_llm checkpoints_sp checkpoints_up judge_model
       [(u "ori_text", JStr ori_text); (u "response", response);
        (u "checkpoints", JStr checkpoints)])) 3.

Definition judge_fluency (ori_text : pystr) (response : json)
    (judge_model : pystr) : M json :=
  safe_json_call
    (or_none (eval_result_by_llm fluency_sp up judge_model
       [(u "ori_text", JStr ori_text); (u "response", response)])) 3.

Definition judge_appropiate (ori_text : pystr) (response : json)
    (judge_model : pystr) : M json :=
  safe_json_call
    (or_none (eval_result_by_llm appropiate_sp up judge_model
       [(u "ori_text", JStr ori_text); (u "response", response)])) 3.

Definition self_critique_judge (acc flu ckpt appropiate : json)
    (judge_model : pystr) : M pystr :=
  eval_result_by_llm self_critique_sp self_critique_up judge_model
    [(u "accuracy_judge_result", acc); (u "fluency_judge_result", flu);
     (u "checkpoints_judge_result", ckpt); (u "style_judge_result", appropiate)].

Definition final_judge (sp up : pystr) (judge_model : pystr)
    (kwargs : list (pystr * json)) : M json :=
  safe_json_call (or_none (eval_result_by_llm sp up judge_model kwargs)) 3.

Definition MARKER : pystr := Eval vm_compute in u "是否存在问题：".
Definition YES : pystr := Eval vm_compute in u "是".

(** [r"是否存在问题：\s*([^\s])"] *)
Definition gate_re : regex :=
  Cat (Lit MARKER) (Cat (Star is_space) (Group (Class not_space))).

(** [match = re.search(...)] and [if match: ... if problem == "是"]. *)
Definition gate_problem (instruct_res : pystr) : bool :=
  match search gate_re instruct_res with
  | Some problem => bool_decide (problem = Some YES)
  | None => false
  end.

Definition sum3 (scores : Z * Z * Z) : Z :=
  let '(a, f, p) := scores in 0 + a + f + p.

Definition metrics (task : DISCOX) (response : option pystr)
    (judge_model : pystr) : M ((Z * Z * Z) * Z * json) :=
  let response := opt_str response in
  instruct_res <- eval_result_by_llm instruct_sp instruct_up judge_model
      [(u "prompt", JStr (ori_text task)); (u "response", response)] ;;
  let detailed_judgement := [(u "instruction_following", JStr instruct_res)] in
  if gate_problem instruct_res then
    ret ((0, 0, 0), 0, JObj detailed_judgement)
  else
  acc_res <- judge_accuracy (ori_text task) response judge_model ;;
  ckpt_res <- judge_checkpoint (ori_text task) response (reference_list task) judge_model ;;
  flu_res <- judge_fluency (ori_text task) response judge_model ;;
  appropiate_res <- judge_appropiate (ori_text task) response judge_model ;;
  adjustment_res <- self_critique_judge acc_res flu_res ckpt_res appropiate_res judge_model ;;
  acc_finalres <- final_judge accuracy_final_sp accuracy_final_up judge_model
      [(u "accuracy_judge_result", acc_res); (u "adjustment", JStr adjustment_res)] ;;
  appropiate_finalres <- final_judge appropiate_final_sp appropiate_final_up judge_model
      [(u "style_judge_result", appropiate_res); (u "adjustment", JStr adjustment_res)] ;;
  ckpt_finalres <- final_judge checkpoints_final_sp checkpoints_final_up judge_model
      [(u "checkpoints_judge_result", ckpt_res); (u "adjustment", JStr adjustment_res)] ;;
  flu_finalres <- final_judge fluency_final_sp fluency_final_up judge_model
      [(u "fluency_judge_result", flu_res); (u "adjustment", JStr adjustment_res)] ;;
  scores <- lift (calculate_score acc_finalres ckpt_finalres flu_finalres appropiate_finalres) ;;
  let detailed_judgement := detailed_judgement ++
    [ (u "initial_judgement",
         JObj [ (u "accuracy", acc_res); (u "checkpoints", ckpt_res);
                (u "fluency", flu_res); (u "appropiate", appropiate_res) ]);
      (u "self_critique", JStr adjustment_res);
      (u "accuracy", acc_finalres);
      (u "checkpoints", ckpt_finalres);
      (u "fluency", flu_finalres);
      (u "appropiate", appropiate_finalres) ] in
  ret (scores, sum3 scores, JObj detailed_judgement).

End Judge.
End Judge.

Import Judge.

(** ** [run_tasks.py]: the task runner *)

Module Runner.

(** Files of the working directory, in directory-listing order, under their
    path relative to it. *)
Record file := { name : pystr; ctime : Z; text : pystr }.

(** What the runner does to its surroundings, in order. *)
Inductive event :=
| Glob (pattern : pystr)
| ReadLines (path : pystr)
| MakeDirs (path : pystr)
| Submit (task : DISCOX)
| Append (path : pystr) (data : pystr)
| WriteFile (path : pystr) (data : pystr).

Record sys := {
  files : list file;
  clock : Z;                                  (* the time stamp a write leaves *)
  now : pystr;                                (* now.strftime("%Y-%m-%d %H-%M-%S") *)
  worker : DISCOX -> world;                   (* the world the worker of a task runs in *)
  as_completed : list DISCOX -> list DISCOX;  (* the order in which futures complete *)
  log : list event
}.

Definition IO : Type -> Type := ST sys.

Definition with_files (fs : list file) (s : sys) : sys :=
  {| files := fs; clock := clock s; now := now s; worker := worker s;
     as_completed := as_completed s; log := log s |}.

Definition emit (e : event) : IO unit := fun s =>
  (OK tt, {| files := files s; clock := clock s; now := now s; worker := worker s;
             as_completed := as_completed s; log := log s ++ [e] |}).

(** A leading [./] does not change the file a path names. *)
Definition normpath (path : pystr) : pystr :=
  if startswith (u "./") path then drop 2 path else path.

(** [os.path.join(a, b)] for a relative [b] *)
Definition path_join (a b : pystr) : pystr := a ++ u "/" ++ b.

Fixpoint lookup_file (n : pystr) (fs : list file) : option file :=
  match fs with
  | [] => None
  | f :: fs' => if decide (name f = n) then Some f else lookup_file n fs'
  end.

(** Writing [f old] to the file [n], where [old] is its text if it exists. *)
Fixpoint put (n : pystr) (t : Z) (f : option pystr -> pystr) (fs : list file) : list file :=
  match fs with
  | [] => [ {| name := n; ctime := t; text := f None |} ]
  | x :: fs' =>
      if decide (name x = n)
      then {| name := n; ctime := t; text := f (Some (text x)) |} :: fs'
      else x :: put n t f fs'
  end.

(** [open(path, "a")] creates the file if there is none and leaves it alone
    otherwise. *)
Fixpoint create (n : pystr) (t : Z) (fs : list file) : list file :=
  match fs with
  | [] => [ {| name := n; ctime := t; text := [] |} ]
  | x :: fs' => if decide (name x = n) then x :: fs' else x :: create n t fs'
  end.

(** [with open(path, "a", encoding="utf-8") as f: f.write(data)].  The text
    is encoded when it is written: a text with a lone surrogate raises a
    [UnicodeEncodeError], and nothing of it reaches the file. *)
Definition append_file (path data : pystr) : IO unit := fun s =>
  if encodable data then
    emit (Append path data)
      (with_files (put (normpath path) (clock s) (fun old => default [] old ++ data) (files s)) s)
  else
    (Raise UnicodeEncodeError,
     (emit (Append path []) (with_files (create (normpath path) (clock s) (files s)) s)).2).

(** What reaches a file of the pieces written to it one after the other,
    and whether all of them did: the first piece that cannot be encoded
    ends the writing. *)
Fixpoint written (pieces : list pystr) : pystr * bool :=
  match pieces with
  | [] => ([], true)
  | piece :: rest =>
      if encodable piece
      then let '(data, all) := written rest in (piece ++ data, all)
      else ([], false)
  end.

(** [with open(path, "w", encoding="utf-8") as f: json.dump(v, f, ...)],
    from the pieces [json.dump] writes.  Opening empties the file; where a
    piece cannot be encoded the call raises a [UnicodeEncodeError], and the
    file keeps what was written before. *)
Definition write_file (path : pystr) (pieces : list pystr) : IO unit := fun s =>
  let '(data, all) := written pieces in
  let r := emit (WriteFile path data)
             (with_files (put (normpath path) (clock s) (fun _ => data) (files s)) s) in
  if all : bool then r else (Raise UnicodeEncodeError, r.2).

(** Text-mode reading turns [\r\n] and [\r] into [\n]; [readlines] keeps the
    line ends. *)
Fixpoint split_lines (cur : pystr) (s : pystr) : list pystr :=
  match s with
  | [] => match cur with [] => [] | _ => [rev cur] end
  | c :: s' =>
      if (c =? 10)%N then rev (10%N :: cur) :: split_lines [] s'
      else if (c =? 13)%N then
        match s' with
        | d :: s'' =>
            if (d =? 10)%N then rev (10%N :: cur) :: split_lines [] s''
            else rev (10%N :: cur) :: split_lines [] s'
        | [] => [rev (10%N :: cur)]
        end
      else split_lines (c :: cur) s'
  end.

(** [with open(path, "r") as f: lines = f.readlines()] *)
Definition readlines (path : pystr) : IO (list pystr) :=
  _ <- emit (ReadLines path) ;;
  fun s =>
    match lookup_file (normpath path) (files s) with
    | Some f => (OK (split_lines [] (text f)), s)
    | None => (Raise OSError, s)               (* FileNotFoundError *)
    end.

Section Runner.
Context {lib : PyLib} {tpl : Prompts}.

(** [glob.glob(pattern)]: the matching paths, spelled as the pattern spells
    its directory. *)
Definition glob (pattern : pystr) : IO (list pystr) :=
  _ <- emit (Glob pattern) ;;
  fun s =>
    let hits := filter (fun f => fnmatch (normpath pattern) (name f) = true) (files s) in
    (OK ((fun f => if startswith (u "./") pattern then u "./" ++ name f else name f)
           <$> hits), s).

(** [os.path.getctime], asked only for paths [glob] returned *)
Definition getctime (fs : list file) (path : pystr) : Z :=
  match lookup_file (normpath path) fs with
  | Some f => ctime f
  | None => 0
  end.

(** [max(paths, key=...)] on a non-empty list: the first maximal element. *)
Fixpoint max_by (key : pystr -> Z) (best : pystr) (rest : list pystr) : pystr :=
  match rest with
  | [] => best
  | x :: rest' => max_by key (if key best <? key x then x else best) rest'
  end.

Definition get_latest_jsonl_file (folder_path modelname taskname : pystr)
    : IO (option pystr) :=
  all_files <- glob (path_join folder_path
                 (u "*" ++ modelname ++ u "*" ++ taskname ++ u "*.jsonl")) ;;
  match all_files with
  | [] => ret None
  | first :: rest => fun s => (OK (Some (max_by (getctime (files s)) first rest)), s)
  end.

(** [s.replace(old, new)] for a non-empty [old]. *)
Fixpoint str_replace (old new : pystr) (fuel : nat) (s : pystr) : pystr :=
  match fuel with
  | O => s
  | S fuel' =>
      if startswith old s then new ++ str_replace old new fuel' (drop (length old) s)
      else match s with
           | [] => []
           | c :: s' => c :: str_replace old new fuel' s'
           end
  end.
Definition replace (old new s : pystr) : pystr :=
  str_replace old new (S (length s)) s.

Definition run_task (task : DISCOX) (model judgemodel : pystr) : M json :=
  output <- litellm_generate [ {| role := u "user"; content := prompt task |} ]
              model None (Some 20000) false None ;;
  r <- metrics task output judgemodel ;;
  let '(judge_res, final_score, detailed_judgement) := r in
  let '(a, f, p) := judge_res in
  ret (JObj (model_dump task ++
    [ (u "model_output", opt_str output);
      (u "domain_score", JArr [JInt a; JInt f; JInt p]);
      (u "score", JInt final_score);
      (u "detailed_judgement", detailed_judgement) ])).

(** The worker body.  The completion counter it increments under a lock is
    never read, so it is left out. *)
Definition wrapped_run (model judgemodel : pystr) (task : DISCOX) : M json :=
  catch
    (r <- run_task task model judgemodel ;;
     present <- lift (py_contains (u "error") r) ;;
     if present : bool then raise (RuntimeError (u "Unsupport task")) else ret r)
    (fun e => ret (JObj [ (u "error", JStr (exn_str e));
                          (u "traceback", JStr (format_exc e)) ])).

(** What [future.result()] yields for the future of a task. *)
Definition outcome (s : sys) (model judgemodel : pystr) (task : DISCOX) : res json :=
  (wrapped_run model judgemodel task (worker s task)).1.

(** Line 83:
    [[json.loads(line)["prompt_id"] for line in lines]
    [ if "prompt_id" in json.loads(line)]] *)
Fixpoint already_run (lines : list pystr) : res (list json) :=
  match lines with
  | [] => OK []
  | line :: rest =>
      rbind (json_loads line) (fun v =>
      rbind (py_contains (u "prompt_id") v) (fun present =>
      if present : bool then
        rbind (json_loads line) (fun v' =>
        rbind (py_getitem (u "prompt_id") v') (fun id =>
        rbind (already_run rest) (fun ids => OK (id :: ids))))
      else already_run rest))
  end.

(** [[json.loads(line) for line in lines]] *)
Fixpoint load_all (lines : list pystr) : res (list json) :=
  match lines with
  | [] => OK []
  | line :: rest =>
      rbind (json_loads line) (fun v =>
      rbind (load_all rest) (fun vs => OK (v :: vs)))
  end.

(** [task.prompt_id not in already_run_data] *)
Definition not_run (already_run_data : list json) (task : DISCOX) : bool :=
  negb (existsb (eq_int (prompt_id task)) already_run_data).

(** Lines 79-92: what is left to run, the results so far, and the
    checkpoint that is continued, if any. *)
Definition resume (tasks : list DISCOX) (modelname tasksname : pystr)
    : IO (list DISCOX * list json * option pystr) :=
  last_run <- get_latest_jsonl_file (u "./results") modelname tasksname ;;
  match last_run with
  | Some path =>
      lines <- readlines path ;;
      already_run_data <- lift (already_run lines) ;;
      if (length already_run_data <? length tasks)%nat then
        results <- lift (load_all lines) ;;
        ret (filter (fun task => not_run already_run_data task = true) tasks,
             results, Some path)
      else ret (tasks, [], None)
  | None => ret (tasks, [], None)
  end.

(** Lines 96-105: the checkpoint file and the result file. *)
Definition output_files (formatted_time modelname tasksname : pystr)
    (last_run : option pystr) : pystr * pystr :=
  let output_dir := u "results" in
  match last_run with
  | None =>
      (path_join output_dir
         (formatted_time ++ u "-" ++ modelname ++ u "-" ++ tasksname ++ u "partial.jsonl"),
       path_join output_dir
         (formatted_time ++ u "-" ++ modelname ++ u "-" ++ tasksname ++ u "result.json"))
  | Some path => (path, replace (u "partial.jsonl") (u "result.json") path)
  end.

(** Lines 130-137: every future's result is appended to the results and to
    the checkpoint as it completes. *)
Fixpoint collect (model judgemodel jsonl_file : pystr) (done : list DISCOX)
    (results : list json) : IO (list json) :=
  match done with
  | [] => ret results
  | task :: rest =>
      result <- (fun s => (outcome s model judgemodel task, s)) ;;
      _ <- append_file jsonl_file (json_dumps result ++ NL) ;;
      collect model judgemodel jsonl_file rest (results ++ [result])
  end.

(** [[v["score"] for v in results if "score" in v]] *)
Fixpoint scores (results : list json) : res (list json) :=
  match results with
  | [] => OK []
  | v :: rest =>
      rbind (py_contains (u "score") v) (fun present =>
      if present : bool then
        rbind (py_getitem (u "score") v) (fun x =>
        rbind (scores rest) (fun xs => OK (x :: xs)))
      else scores rest)
  end.

(** Lines 130-155, from the tasks to submit and the results so far. *)
Definition execute (model judgemodel : pystr) (concurrency : Z)
    (tasks : list DISCOX) (results : list json) (jsonl_file final_file : pystr)
    : IO (list json * json) :=
  _ <- (if concurrency <=? 0 then raise ValueError else ret tt) ;;  (* max_workers *)
  _ <- for_list (fun task => emit (Submit task)) tasks ;;
  done <- (fun s => (OK (as_completed s tasks), s)) ;;
  results <- collect model judgemodel jsonl_file done results ;;
  valid <- lift (scores results) ;;
  acc <- lift (match valid with
               | [] => OK (JFloat zero)
               | _ => mean_percent valid
               end) ;;
  let res := JObj [ (u "average_accuracy", acc);
                    (u "model", JStr model);
                    (u "detailed_results", JArr results) ] in
  _ <- write_file final_file (json_dump_indent res) ;;
  ret (results, acc).

Definition run_all_sync (tasks : list DISCOX) (model judgemodel : pystr)
    (concurrency : Z) : IO (list json * json) :=
  let modelname := replace (u "/") (u "-") model in
  match tasks with
  | [] => raise IndexError                   (* tasks[0] *)
  | _ :: _ =>
      let tasksname := u "DISCOX" in           (* tasks[0].__class__.__name__ *)
      plan <- resume tasks modelname tasksname ;;
      let '(tasks, results, last_run) := plan in
      formatted_time <- (fun s => (OK (now s), s)) ;;
      _ <- emit (MakeDirs (u "results")) ;;
      let '(jsonl_file, final_file) :=
        output_files formatted_time modelname tasksname last_run in
      execute model judgemodel concurrency tasks results jsonl_file final_file
  end.

End Runner.
End Runner.

Import Runner.

(** ** [dataset/data.py]: loading the task file, and the entry point *)

Module Data.

(** [task.extra_fields()] *)
Definition extra_fields (task : DISCOX) : list (pystr * json) :=
  [ (u "reference_list", JStr (reference_list task));
    (u "prompt", JStr (prompt task)) ].

(** [s.endswith(suffix)] *)
Definition endswith (suffix s : pystr) : bool := startswith (rev suffix) (rev s).

(** [with open(filename, "r") as f: f.read()]: in text mode every line end
    is read as [\n]. *)
Definition read_text (filename : pystr) : IO pystr := fun s =>
  match lookup_file (normpath filename) (files s) with
  | Some f => (OK (concat (split_lines [] (text f))), s)
  | None => (Raise OSError, s)               (* FileNotFoundError *)
  end.

(** The validation pydantic runs on the fields handed to [DISCOX(...)]. *)
Class Pydantic := {
  validate : list (pystr * json) -> res DISCOX
}.

Section Data.
Context {lib : PyLib} {tpl : Prompts} {pyd : Pydantic}.

Definition load_json (filename : pystr) : IO json :=
  if negb (endswith (u ".json") filename) then raise ValueError
  else
    data <- read_text filename ;;
    lift (json_loads data).                  (* json.load(f) *)

(** [task( **item)]: what follows the two stars has to be a mapping. *)
Definition construct (item : json) : res DISCOX :=
  match item with
  | JObj kv => validate kv
  | _ => Raise TypeError
  end.

(** [[task( **item) for item in data]], left to right. *)
Fixpoint construct_all (items : list json) : res (list DISCOX) :=
  match items with
  | [] => OK []
  | item :: rest =>
      rbind (construct item) (fun task =>
      rbind (construct_all rest) (fun tasks => OK (task :: tasks)))
  end.

Definition load_tasks (filename : pystr) : IO (list DISCOX) :=
  data <- load_json filename ;;
  items <- lift (py_iter data) ;;
  lift (construct_all items).

(** The script body of [run_tasks.py], from the parsed arguments. *)
Definition main (filename model judgemodel : pystr) (num_concurrency : Z)
    : IO (list json * json) :=
  task <- load_tasks filename ;;
  run_all_sync task model judgemodel num_concurrency.

End Data.
End Data.

Import Data.

(** * The vocabulary of the properties *)

(** ** Issue records and penalties *)

Module ScoreSpec.

(** An issue record: the [dict] a judge returns for one finding. *)
Abbreviation issue := (list (pystr * json)).

(** A list of issue records as the judges hand it over. *)
Definition issues (l : list issue) : json := JArr (JObj <$> l).

(** Strings, numbers, booleans and [None] can be looked up in a [dict];
    lists and dicts cannot. *)
Definition scalar (v : json) : Prop :=
  match v with
  | JArr _ | JObj _ => False
  | _ => True
  end.

(** A record is well formed at a key if the value it has there, if any, is a
    scalar. *)
Definition wf (key : pystr) (r : issue) : Prop :=
  match assoc key r with
  | Some v => scalar v
  | None => True
  end.

(** The severity table of the accuracy dimension, by cases. *)
Definition accuracy_penalty (severity : option json) : Z :=
  match severity with
  | Some (JStr s) =>
      if decide (s = u "整体无问题") then 0
      else if decide (s = u "普通" \/ s = u "Major") then -5
      else if decide (s = u "严重" \/ s = u "Critical") then -10
      else if decide (s = u "非常严重" \/ s = u "Extremely Critical") then -50
      else -5
  | _ => -5
  end.

(** The penalty of a checkpoint verdict, by cases. *)
Definition checkpoint_penalty (verdict : option json) : Z :=
  match verdict with
  | Some (JStr s) => if decide (s = u "错误") then -5 else 0
  | _ => 0
  end.

(** A record marked "has issue". *)
Definition flagged (r : issue) : bool :=
  match assoc SEVERITY r with
  | Some (JStr s) => bool_decide (s = u "有问题")
  | _ => false
  end.

Definition count_flagged (l : list issue) : Z :=
  Z.of_nat (length (filter (fun r => flagged r = true) l)).

Definition sumZ (l : list Z) : Z := foldr Z.add 0 l.

(** What a loop adds for one record. *)
Definition penalty_of (mapping : gmap pystr Z) (dflt : Z) (v : option json) : Z :=
  match v with
  | Some (JStr s) => default dflt (mapping !! s)
  | _ => dflt
  end.

End ScoreSpec.

Import ScoreSpec.

(** ** Fenced blocks and the gate token *)

Module ExtractSpec.

(** The text up to the first fence, if there is a fence. *)
Fixpoint until_fence (s : pystr) : option pystr :=
  if startswith FENCE s then Some []
  else match s with
       | [] => None
       | c :: s' => cons c <$> until_fence s'
       end.

(** What follows an opening fence, without the optional [json] tag. *)
Definition untagged (rest : pystr) : pystr :=
  if startswith TAG rest then drop (length TAG) rest else rest.

(** The inner content of the first fenced block of a text: what lies between
    its first fence, with the optional tag, and the next fence. *)
Definition first_fence (text : pystr) : option pystr :=
  match find FENCE text with
  | Some i =>
      let body := untagged (drop (i + length FENCE) text) in
      match find FENCE body with
      | Some j => Some (take j body)
      | None => None
      end
  | None => None
  end.

(** The content the lazy group takes: the shortest prefix after which
    optional whitespace and a fence follow. *)
Fixpoint lazy_content (s : pystr) : option pystr :=
  if startswith FENCE (lstrip s) then Some []
  else match s with
       | [] => None
       | c :: s' => cons c <$> lazy_content s'
       end.

(** The fence pattern after its opening fence and tag, in three nested
    parts, and the continuation that ends a match. *)
Definition closing_part : regex := Cat (Star is_space) (Lit FENCE).
Definition group_part : regex := Cat (Group (StarLazy any)) closing_part.
Definition tagless_part : regex := Cat (Star is_space) group_part.

Definition finish : pystr -> option pystr -> option (option pystr) := fun _ g => Some g.

(** The token of the gate: the first character that is not whitespace after
    the first occurrence of the marker phrase. *)
Definition gate_token (s : pystr) : option N :=
  match find MARKER s with
  | Some i => head (lstrip (drop (i + length MARKER) s))
  | None => None
  end.

End ExtractSpec.

Import ExtractSpec.

(** ** Attempts, stages and records *)

(** One attempt fails: the wrapped call raises, or what it returns does not
    parse. *)
Inductive failed {lib : PyLib} (func : M (option pystr)) (w w' : world) : Prop :=
| failed_raise e : func w = (Raise e, w') -> failed func w w'
| failed_parse r e : func w = (OK r, w') -> loads r = Raise e -> failed func w w'.

(** A backend that never delivers content: every call raises or answers
    [None]. *)
Definition silent (w : world) : Prop :=
  forall history, completion w history = Failure
               \/ completion w history = Content None.

Section Vocabulary.
Context {lib : PyLib} {tpl : Prompts}.

(** The messages of the gate call. *)
Definition gate_messages (user_prompt : pystr) : list message :=
  [ {| role := u "system"; content := instruct_sp |};
    {| role := u "user"; content := user_prompt |} ].

(** The keyword arguments of the gate call. *)
Definition gate_kwargs (task : DISCOX) (response : option pystr) : list (pystr * json) :=
  [(u "prompt", JStr (ori_text task)); (u "response", opt_str response)].

(** The messages of the candidate call. *)
Definition candidate_messages (task : DISCOX) : list message :=
  [ {| role := u "user"; content := prompt task |} ].

(** The record of a task that was judged. *)
Definition run_record (task : DISCOX) (output : option pystr)
    (scores : Z * Z * Z) (total : Z) (detailed_judgement : json) : json :=
  JObj (model_dump task ++
    [ (u "model_output", opt_str output);
      (u "domain_score", JArr [JInt scores.1.1; JInt scores.1.2; JInt scores.2]);
      (u "score", JInt total);
      (u "detailed_judgement", detailed_judgement) ]).

(** The record of a task, as its future yields it. *)
Definition record_of (s : sys) (model judgemodel : pystr) (task : DISCOX) : json :=
  match outcome s model judgemodel task with
  | OK r => r
  | Raise _ => JNull
  end.

(** The document written to the result file. *)
Definition result_document (acc : json) (model : pystr) (results : list json) : json :=
  JObj [ (u "average_accuracy", acc);
         (u "model", JStr model);
         (u "detailed_results", JArr results) ].

(** The name of a run: [{formatted_time}-{modelname}-{tasksname}]. *)
Definition run_name (s : sys) (model : pystr) : pystr :=
  now s ++ u "-" ++ replace (u "/") (u "-") model ++ u "-" ++ u "DISCOX".

(** The state once the output directory has been made. *)
Definition made_dirs (s : sys) : sys := (emit (MakeDirs (u "results")) s).2.

End Vocabulary.

(** A score between 0 and 100. *)
Definition percent (v : json) : Prop := exists z, v = JInt z /\ 0 <= z <= 100.

(** A record that can be averaged: a [dict] without a score, as an error
    record is, or with a score between 0 and 100. *)
Definition score_ok (r : json) : Prop :=
  exists kv, r = JObj kv
    /\ match assoc (u "score") kv with
       | Some v => percent v
       | None => True
       end.

(** The tasks the log shows as submitted. *)
Definition submitted (l : list event) : list DISCOX :=
  omap (fun e => match e with Submit task => Some task | _ => None end) l.

(** [s'] comes after [s]: same clock, workers and scheduler, and the events
    [es] more in the log. *)
Definition extends (s s' : sys) (es : list event) : Prop :=
  clock s' = clock s /\ now s' = now s /\ worker s' = worker s
  /\ as_completed s' = as_completed s /\ log s' = log s ++ es.

(** A record of the checkpoint for the task with identifier [id]: a [dict]
    that holds [id] under [prompt_id] and that can be averaged. *)
Definition checkpoint_record (r : json) (id : Z) : Prop :=
  exists kv, r = JObj kv /\ assoc (u "prompt_id") kv = Some (JInt id) /\ score_ok r.

(** The tasks a resumed run still has to do. *)
Definition remaining (ids : list Z) (tasks : list DISCOX) : list DISCOX :=
  filter (fun task => prompt_id task ∉ ids) tasks.

(** ** Stand-ins for running the model on examples

    Small total functions in place of the libraries, empty prompts, scripted
    backends and a working directory: enough to evaluate the definitions on
    concrete inputs. *)

Module Demo.

(** A parser that knows the documents of a table. *)
Definition table_loads (table : list (pystr * json)) (s : pystr) : res json :=
  if starts_value s then
    match assoc (json_strip s) table with
    | Some v => OK v
    | None => Raise ValueError
    end
  else Raise ValueError.

Definition lib (table : list (pystr * json)) : PyLib := {|
  json_loads := table_loads table;
  json_dumps := fun _ => u "{}";
  json_dump_indent := fun _ => [u "{}"];
  str_format := fun template _ => OK template;
  fnmatch := fun _ file => is_substring (u "partial.jsonl") file;
  exn_str := fun _ => u "error";
  format_exc := fun _ => u "Traceback";
  mean_percent := fun _ => OK (JFloat zero)
|}.

Definition prompts : Prompts := {|
  accuracy_sp := []; up := []; checkpoints_sp := []; checkpoints_up := [];
  fluency_sp := []; appropiate_sp := [];
  self_critique_sp := []; self_critique_up := [];
  instruct_sp := []; instruct_up := [];
  accuracy_final_sp := []; accuracy_final_up := [];
  appropiate_final_sp := []; appropiate_final_up := [];
  checkpoints_final_sp := []; checkpoints_final_up := [];
  fluency_final_sp := []; fluency_final_up := []
|}.

(** A backend that answers the [n]-th request with the [n]-th entry of a
    script and fails afterwards. *)
Definition scripted (script : list reply) : world := {|
  environ := fun _ => Some (u "configured");
  completion := fun history => default Failure (script !! pred (length history));
  sent := []
|}.

Definition task (id : Z) : DISCOX := {|
  prompt_id := id; prompt := u "Translate: 你好"; reference_list := u "greeting";
  ori_text := u "你好"; primary_domain := u "general"; secondary_domain := u "chat"
|}.

(** The record a checkpoint holds for task 1. *)
Definition stored : json :=
  JObj [ (u "prompt_id", JInt 1); (u "score", JInt 100) ].

(** The documents the stand-in parser knows. *)
Definition pylib : PyLib :=
  lib [ (u "[1]", JArr [JInt 1]); (u "{task 1}", stored) ].

Definition extremely_severe : issue := [(SEVERITY, JStr (u "非常严重"))].
Definition has_issue : issue := [(SEVERITY, JStr (u "有问题"))].
Definition no_issue : issue := [(SEVERITY, JStr (u "无问题"))].

(** A judge call, and a backend that fails twice before it answers. *)
Definition judge_call : M (option pystr) :=
  or_none (eval_result_by_llm (lib := pylib) [] [] (u "judge") []).

Definition third_time : world :=
  scripted [Failure; Content (Some (u "no JSON")); Content (Some (u "[1]"))].

(** A gate that finds a problem. *)
Definition problem_found : world :=
  scripted [Content (Some (u "是否存在问题：是"))].

(** The candidate answers, then the backend is down. *)
Definition gate_down : world := scripted [Content (Some (u "hello"))].

(** A fenced answer, and the same with a full-width space before the
    document. *)
Definition fenced : pystr := u "Result: ```json" ++ NL ++ u "[1]" ++ NL ++ u "``` done".

Definition padded : pystr :=
  u "```json" ++ NL ++ [12288%N] ++ u "[1]" ++ NL ++ u "```".

(** A working directory with a checkpoint for task 1, workers whose gate
    finds a problem, and futures that complete in reverse order. *)
Definition checkpoint : file := {|
  name := u "results/2025-01-01 00-00-00-model-DISCOXpartial.jsonl";
  ctime := 1;
  text := u "{task 1}" ++ NL
|}.

Definition start : sys := {|
  files := [checkpoint];
  clock := 2;
  now := u "2025-01-02 00-00-00";
  worker := fun _ => scripted
              [Content (Some (u "hello")); Content (Some (u "是否存在问题：是"))];
  as_completed := @rev DISCOX;
  log := []
|}.

Definition two_tasks : list DISCOX := [task 1; task 2].

End Demo.

(** ** Items of any shape *)

(** What a loop of the calculator adds for one item, whatever the item is;
    [None] where the loop raises. *)
Definition item_penalty (key : pystr) (mapping : gmap pystr Z) (dflt : Z)
    (item : json) : option Z :=
  match item with
  | JObj kv =>
      match assoc key kv with
      | Some (JStr s) => Some (default dflt (mapping !! s))
      | Some (JArr _) | Some (JObj _) => None
      | _ => Some dflt
      end
  | JArr l => if existsb (eq_str key) l then None else Some dflt
  | JStr s => if is_substring key s then None else Some dflt
  | _ => None
  end.

(** [None], booleans and numbers: what a [for] loop cannot run over. *)
Definition not_iterable (v : json) : Prop :=
  match v with
  | JNull | JBool _ | JInt _ | JFloat _ => True
  | _ => False
  end.

(** ** The requests a computation sends *)

(** [w'] comes after [w]: the same environment and backend, and the
    requests [reqs] more sent. *)
Definition sends (w w' : world) (reqs : list request) : Prop :=
  environ w' = environ w /\ completion w' = completion w
  /\ sent w' = sent w ++ reqs.

(** A request as the judging mode makes it: to the judge model, with the
    judge's credentials, temperature 0.0, top-p 0.7 and no token limit. *)
Definition judge_request (env : pystr -> option pystr) (judge_model : pystr)
    (req : request) : Prop :=
  req_model req = judge_model
  /\ req_temperature req = Some zero
  /\ req_top_p req = Some zero_point_seven
  /\ req_max_tokens req = None
  /\ env (u "JUDGE_API_BASE") = Some (req_api_base req)
  /\ env (u "JUDGE_API_KEY") = Some (req_api_key req).

(** The request for the answer of the candidate: the prompt of the task as
    the only message, to the evaluated model with the candidate's
    credentials, no temperature, no top-p, at most 20000 tokens. *)
Definition candidate_request (env : pystr -> option pystr) (task : DISCOX)
    (model : pystr) (req : request) : Prop :=
  req_model req = model
  /\ req_messages req = [ {| role := u "user"; content := prompt task |} ]
  /\ req_temperature req = None
  /\ req_top_p req = None
  /\ req_max_tokens req = Some 20000
  /\ env (u "CANDIDATE_API_BASE") = Some (req_api_base req)
  /\ env (u "CANDIDATE_API_KEY") = Some (req_api_key req).

(** A computation that, started with the environment [env], sends at most
    [n] requests, all of them as [P] has them, and leaves the environment and
    the backend alone. *)
Definition within (env : pystr -> option pystr) (P : request -> Prop) (n : nat)
    {A} (m : M A) : Prop :=
  forall w, environ w = env ->
  exists reqs, sends w (m w).2 reqs /\ (length reqs <= n)%nat /\ Forall P reqs.

(** ** Backends *)

(** A backend that delivers no content from now on: every further call
    raises or answers [None]. *)
Definition silent_from (w : world) : Prop :=
  forall req reqs,
    completion w (sent w ++ req :: reqs) = Failure
    \/ completion w (sent w ++ req :: reqs) = Content None.

(** A backend that answers every request with the same text. *)
Definition answers (text : pystr) (w : world) : Prop :=
  forall history, completion w history = Content (Some text).

(** The judge's credentials are in the environment. *)
Definition judge_configured (w : world) : Prop :=
  is_Some (environ w (u "JUDGE_API_BASE")) /\ is_Some (environ w (u "JUDGE_API_KEY")).

(** A configured judge whose backend answers every request with [text]. *)
Definition chatting (text : pystr) (w : world) : Prop :=
  judge_configured w /\ answers text w.

(** The keyword arguments of the self-critique call when no dimension judge
    found anything. *)
Definition critique_of_nothing : list (pystr * json) :=
  [ (u "accuracy_judge_result", JArr []); (u "fluency_judge_result", JArr []);
    (u "checkpoints_judge_result", JArr []); (u "style_judge_result", JArr []) ].

(** The record of a task that failed with the exception [e]. *)
Definition error_record {lib : PyLib} (e : exn) : json :=
  JObj [ (u "error", JStr (exn_str e)); (u "traceback", JStr (format_exc e)) ].

(** ** More stand-ins *)

Module Sample.

(** The candidate answers, the gate finds no problem, then the backend is
    down. *)
Definition no_problem : world :=
  Demo.scripted [Content (Some (u "hello")); Content (Some (u "是否存在问题：否"))].

(** A backend that says the same thing to everybody. *)
Definition chatty : world := {|
  environ := fun _ => Some (u "configured");
  completion := fun _ => Content (Some (u "Sure, happy to help!"));
  sent := []
|}.

(** An environment without the judge's key. *)
Definition no_judge_key : world := {|
  environ := fun name => if decide (name = u "JUDGE_API_KEY") then None
                         else Some (u "configured");
  completion := fun _ => Content (Some (u "[1]"));
  sent := []
|}.

End Sample.

(** ** Lines of a checkpoint *)




Module Broken.

(** A checkpoint whose last line was cut off. *)
Definition torn : sys := {|
  files := [ {| name := name Demo.checkpoint; ctime := 1;
                text := u "{task 1}" ++ NL ++ u "{task" |} ];
  clock := 2;
  now := u "2025-01-02 00-00-00";
  worker := worker Demo.start;
  as_completed := fun tasks => tasks;
  log := []
|}.

(** An empty working directory, and workers without a backend. *)
Definition offline : sys := {|
  files := [];
  clock := 2;
  now := u "2025-01-02 00-00-00";
  worker := fun _ => Demo.scripted [];
  as_completed := @rev DISCOX;
  log := []
|}.

End Broken.

(** ** Task files *)

Module TaskFiles.

(** A stand-in for the validation: the identifier decides the task. *)
Definition by_id : Pydantic := {|
  validate := fun kv =>
    match assoc (u "prompt_id") kv with
    | Some (JInt id) => OK (Demo.task id)
    | _ => Raise ValueError
    end
|}.

Definition pylib : PyLib :=
  Demo.lib [ (u "[]", JArr []); (u "null", JNull);
             (u "[{task 1}, 2]", JArr [Demo.stored; JInt 2]) ].

(** A working directory with three task files. *)
Definition dataset : sys := {|
  files := [ {| name := u "dataset/none.json"; ctime := 1; text := u "[]" ++ NL |};
             {| name := u "dataset/null.json"; ctime := 1; text := u "null" |};
             {| name := u "dataset/mixed.json"; ctime := 1; text := u "[{task 1}, 2]" |};
             {| name := u "dataset/tasks.jsonl"; ctime := 1; text := u "[]" |} ];
  clock := 2;
  now := u "2025-01-02 00-00-00";
  worker := fun _ => Demo.scripted [];
  as_completed := fun tasks => tasks;
  log := []
|}.

End TaskFiles.

(** ** Checkpoints with failures in them *)

(** The identifier a record of the checkpoint counts for, if any: an error
    record has none. *)
Definition recorded_id (r : json) : option json :=
  match r with
  | JObj kv => assoc (u "prompt_id") kv
  | _ => None
  end.

(** The tasks no record of a checkpoint counts for. *)
Definition unrecorded (recs : list json) (tasks : list DISCOX) : list DISCOX :=
  filter (fun task => existsb (eq_int (prompt_id task)) (omap recorded_id recs) = false)
    tasks.

Module Retry.

(** A checkpoint of a run in which task 1 failed and task 2 did not. *)
Definition pylib : PyLib :=
  Demo.lib [ (u "{failed}", JObj [ (u "error", JStr (u "error"));
                                   (u "traceback", JStr (u "Traceback")) ]);
             (u "{task 2}", JObj [ (u "prompt_id", JInt 2); (u "score", JInt 80) ]) ].

Definition start : sys := {|
  files := [ {| name := name Demo.checkpoint; ctime := 1;
                text := u "{failed}" ++ NL ++ u "{task 2}" ++ NL |} ];
  clock := 2;
  now := u "2025-01-02 00-00-00";
  worker := worker Demo.start;
  as_completed := fun tasks => tasks;
  log := []
|}.

End Retry.

(** ** Attempts in a row, and the stages of a task *)

(** [n] attempts in a row fail, from the world [w] to the world [w']. *)
Inductive failing {lib : PyLib} (func : M (option pystr)) : nat -> world -> world -> Prop :=
| failing_none w : failing func 0 w w
| failing_more n w w1 w' :
    failed func w w1 -> failing func n w1 w' -> failing func (S n) w w'.

Section Stages.
Context {lib : PyLib} {tpl : Prompts}.

(** The invoker returns no content to a judge call: the prompt is made, and
    the call in judging mode comes back with [None]. *)
Definition no_content (sp up judge_model : pystr) (kwargs : list (pystr * json))
    (w w' : world) : Prop :=
  exists user_prompt,
    str_format up kwargs = OK user_prompt
    /\ litellm_generate [ {| role := u "system"; content := sp |};
                          {| role := u "user"; content := user_prompt |} ]
         judge_model None None true None w = (OK None, w').

(** The dimension judges of a task and the final judges, each with its
    system prompt, its template and its arguments. *)
Inductive judge_stage (task : DISCOX) (response : json) (judge_model : pystr)
    : pystr -> pystr -> list (pystr * json) -> M json -> Prop :=
| stage_accuracy :
    judge_stage task response judge_model accuracy_sp up
      [(u "ori_text", JStr (ori_text task)); (u "response", response)]
      (judge_accuracy (ori_text task) response judge_model)
| stage_checkpoint :
    judge_stage task response judge_model checkpoints_sp checkpoints_up
      [(u "ori_text", JStr (ori_text task)); (u "response", response);
       (u "checkpoints", JStr (reference_list task))]
      (judge_checkpoint (ori_text task) response (reference_list task) judge_model)
| stage_fluency :
    judge_stage task response judge_model fluency_sp up
      [(u "ori_text", JStr (ori_text task)); (u "response", response)]
      (judge_fluency (ori_text task) response judge_model)
| stage_appropiate :
    judge_stage task response judge_model appropiate_sp up
      [(u "ori_text", JStr (ori_text task)); (u "response", response)]
      (judge_appropiate (ori_text task) response judge_model)
| stage_final sp up kwargs :
    judge_stage task response judge_model sp up kwargs
      (final_judge sp up judge_model kwargs).

(** [metrics] from the judgment of the accuracy judge on (lines 117 to 135),
    given the result of the gate and that judgment. *)
Definition judged (task : DISCOX) (response : json) (judge_model : pystr)
    (instruct_res : pystr) (acc_res : json) : M ((Z * Z * Z) * Z * json) :=
  let detailed_judgement := [(u "instruction_following", JStr instruct_res)] in
  ckpt_res <- judge_checkpoint (ori_text task) response (reference_list task) judge_model ;;
  flu_res <- judge_fluency (ori_text task) response judge_model ;;
  appropiate_res <- judge_appropiate (ori_text task) response judge_model ;;
  adjustment_res <- self_critique_judge acc_res flu_res ckpt_res appropiate_res judge_model ;;
  acc_finalres <- final_judge accuracy_final_sp accuracy_final_up judge_model
      [(u "accuracy_judge_result", acc_res); (u "adjustment", JStr adjustment_res)] ;;
  appropiate_finalres <- final_judge appropiate_final_sp appropiate_final_up judge_model
      [(u "style_judge_result", appropiate_res); (u "adjustment", JStr adjustment_res)] ;;
  ckpt_finalres <- final_judge checkpoints_final_sp checkpoints_final_up judge_model
      [(u "checkpoints_judge_result", ckpt_res); (u "adjustment", JStr adjustment_res)] ;;
  flu_finalres <- final_judge fluency_final_sp fluency_final_up judge_model
      [(u "fluency_judge_result", flu_res); (u "adjustment", JStr adjustment_res)] ;;
  scores <- lift (calculate_score acc_finalres ckpt_finalres flu_finalres appropiate_finalres) ;;
  let detailed_judgement := detailed_judgement ++
    [ (u "initial_judgement",
         JObj [ (u "accuracy", acc_res); (u "checkpoints", ckpt_res);
                (u "fluency", flu_res); (u "appropiate", appropiate_res) ]);
      (u "self_critique", JStr adjustment_res);
      (u "accuracy", acc_finalres);
      (u "checkpoints", ckpt_finalres);
      (u "fluency", flu_finalres);
      (u "appropiate", appropiate_finalres) ] in
  ret (scores, sum3 scores, JObj detailed_judgement).

End Stages.

(** The result files the log shows as written. *)
Definition writes (l : list event) : list pystr :=
  omap (fun e => match e with WriteFile path _ => Some path | _ => None end) l.

(** ** Stand-ins for stages that fail and replies that are fenced *)

Module Stage.

(** A parser that knows the empty list. *)
Definition pylib : PyLib := Demo.lib [ (u "[]", JArr []) ].

(** A backend that fails every attempt of the accuracy judge and only
    those: the candidate answers, the gate finds no problem, three calls
    come back empty-handed, and the judges after that find nothing. *)
Definition recovering : world :=
  Demo.scripted
    [ Content (Some (u "hello")); Content (Some (u "fine"));
      Failure; Content None; Failure;
      Content (Some (u "[]")); Content (Some (u "[]")); Content (Some (u "[]"));
      Content (Some (u "noted"));
      Content (Some (u "[]")); Content (Some (u "[]")); Content (Some (u "[]"));
      Content (Some (u "[]")) ].

(** A backend that never answers with anything that parses. *)
Definition hopeless : world :=
  Demo.scripted [Failure; Content (Some (u "no JSON")); Content None].

(** An environment without the candidate's key, and a judge that answers
    every request with the verdict that there is no problem. *)
Definition no_candidate : world := {|
  environ := fun name => if decide (name = u "CANDIDATE_API_KEY") then None
                         else Some (u "configured");
  completion := fun _ => Content (Some (u "是否存在问题：否"));
  sent := []
|}.

(** A reply with the verdict after a fenced block, and a judge that gives
    it to every request. *)
Definition fenced_verdict : pystr :=
  u "```json" ++ NL ++ u "[]" ++ NL ++ u "```" ++ NL ++ u "是否存在问题：是".

Definition fencing : world := {|
  environ := fun _ => Some (u "configured");
  completion := fun _ => Content (Some fenced_verdict);
  sent := []
|}.

End Stage.

(** ** A stand-in for a backend that answers with a lone surrogate *)

Module Surrogate.

(** The strings of a value, one after the other: a serializer that, as
    [json.dumps] does with [ensure_ascii=False], passes every character of a
    string on. *)
Fixpoint strings (v : json) : pystr :=
  match v with
  | JStr s => s
  | JArr l => (fix go (l : list json) : pystr :=
                 match l with
                 | [] => []
                 | x :: rest => strings x ++ go rest
                 end) l
  | JObj kv => (fix go (kv : list (pystr * json)) : pystr :=
                  match kv with
                  | [] => []
                  | (k, x) :: rest => k ++ strings x ++ go rest
                  end) kv
  | _ => []
  end.

Definition pylib : PyLib := {|
  json_loads := Demo.table_loads [ (u "{task 1}", Demo.stored) ];
  json_dumps := strings;
  json_dump_indent := fun v => [strings v];
  str_format := fun template _ => OK template;
  fnmatch := fun _ file => is_substring (u "partial.jsonl") file;
  exn_str := fun _ => u "error";
  format_exc := fun _ => u "Traceback";
  mean_percent := fun _ => OK (JFloat zero)
|}.

(** The working directory of [Demo.start], with a candidate whose answer is
    the single code point U+D800. *)
Definition start : sys := {|
  files := [Demo.checkpoint];
  clock := 2;
  now := u "2025-01-02 00-00-00";
  worker := fun _ => Demo.scripted
              [Content (Some [55296%N]); Content (Some (u "是否存在问题：是"))];
  as_completed := @rev DISCOX;
  log := []
|}.

End Surrogate.

(** ** Judgments that find nothing *)

Section Nothing.
Context {lib : PyLib} {tpl : Prompts}.

(** A template takes its arguments. *)
Definition formats (up : pystr) (kwargs : list (pystr * json)) : Prop :=
  exists user_prompt, str_format up kwargs = OK user_prompt.

(** The prompts of the dimension judges and of the final judges take the
    arguments [metrics] gives them when no judge found anything and the
    self-critique said [adjustment]. *)
Definition judges_format (task : DISCOX) (response : option pystr)
    (adjustment : pystr) : Prop :=
  formats up [(u "ori_text", JStr (ori_text task)); (u "response", opt_str response)]
  /\ formats checkpoints_up
       [(u "ori_text", JStr (ori_text task)); (u "response", opt_str response);
        (u "checkpoints", JStr (reference_list task))]
  /\ formats accuracy_final_up
       [(u "accuracy_judge_result", JArr []); (u "adjustment", JStr adjustment)]
  /\ formats appropiate_final_up
       [(u "style_judge_result", JArr []); (u "adjustment", JStr adjustment)]
  /\ formats checkpoints_final_up
       [(u "checkpoints_judge_result", JArr []); (u "adjustment", JStr adjustment)]
  /\ formats fluency_final_up
       [(u "fluency_judge_result", JArr []); (u "adjustment", JStr adjustment)].

(** The detailed judgment of an answer about which the gate said
    [instruct_res], the self-critique [adjustment], and no judge anything. *)
Definition nothing_found (instruct_res adjustment : pystr) : json :=
  JObj [ (u "instruction_following", JStr instruct_res);
         (u "initial_judgement",
            JObj [ (u "accuracy", JArr []); (u "checkpoints", JArr []);
                   (u "fluency", JArr []); (u "appropiate", JArr []) ]);
         (u "self_critique", JStr adjustment);
         (u "accuracy", JArr []);
         (u "checkpoints", JArr []);
         (u "fluency", JArr []);
         (u "appropiate", JArr []) ].

End Nothing.

(** * Properties *)

(** ** The definitions on small inputs *)

Example decode_yes : u "是" = [26159%N].
Proof. reflexivity. Qed.

Example strip_mixed : strip ([12288%N; 9%N] ++ u "a b" ++ [160%N; 10%N]) = u "a b".
Proof. vm_compute. reflexivity. Qed.

Example extract_fenced :
  extract_json_string (u "Here: ```json {1} ``` and ```x```") = u "{1}".
Proof. vm_compute. reflexivity. Qed.

Example extract_tag_only : extract_json_string (u "```json```") = [].
Proof. vm_compute. reflexivity. Qed.

Example extract_four_ticks : extract_json_string (u "a````b```c```") = u "`b".
Proof. vm_compute. reflexivity. Qed.

Example extract_unclosed : extract_json_string (u "`````") = u "`````".
Proof. vm_compute. reflexivity. Qed.

Example gate_first_match :
  search gate_re (u "x 是否存在问题： 否 是否存在问题：是") = Some (Some (u "否")).
Proof. vm_compute. reflexivity. Qed.

Example gate_no_token : search gate_re (u "是否存在问题：   ") = None.
Proof. vm_compute. reflexivity. Qed.

Example score_not_a_record :
  calculate_score (JArr [JInt 1]) (JArr []) (JArr []) (JArr []) = Raise TypeError.
Proof. vm_compute. reflexivity. Qed.

Example score_unhashable :
  calculate_score (JArr [JObj [(SEVERITY, JArr [])]]) (JArr []) (JArr []) (JArr [])
  = Raise TypeError.
Proof. vm_compute. reflexivity. Qed.

Example score_unknown_severity :
  calculate_score (JArr [JObj [(SEVERITY, JStr (u "minor"))]; JObj []]) (JArr [])
    (JArr [JStr (u "x")]) (JArr [])
  = OK (50, 20, 20).
Proof. vm_compute. reflexivity. Qed.

Example score_string_item :
  calculate_score (JArr []) (JArr []) (JArr [JStr SEVERITY]) (JArr []) = Raise TypeError.
Proof. vm_compute. reflexivity. Qed.

Example lines_of_text :
  split_lines [] (u "a" ++ [13%N; 10%N] ++ u "b" ++ [13%N] ++ u "c" ++ NL ++ u "d")
  = [u "a" ++ NL; u "b" ++ NL; u "c" ++ NL; u "d"].
Proof. vm_compute. reflexivity. Qed.

Example replace_slashes : replace (u "/") (u "-") (u "openai/gpt/4") = u "openai-gpt-4".
Proof. vm_compute. reflexivity. Qed.

Example result_file_name :
  replace (u "partial.jsonl") (u "result.json") (u "./results/a-partial.jsonl")
  = u "./results/a-result.json".
Proof. vm_compute. reflexivity. Qed.

(** ** The score calculator *)

Section ScoreFacts.
Variables (key : pystr) (mapping : gmap pystr Z) (dflt : Z).

Lemma step_record score r :
  wf key r ->
  step key mapping dflt score (JObj r)
  = OK (score + penalty_of mapping dflt (assoc key r)).
Proof.
  unfold wf, step, penalty_of. simpl.
  destruct (assoc key r) as [v|] eqn:E; simpl; [|reflexivity].
  destruct v; simpl; try reflexivity; try tauto.
  destruct (mapping !! s); reflexivity.
Qed.

Lemma loop_records recs : forall score,
  Forall (wf key) recs ->
  loop key mapping dflt score (JObj <$> recs)
  = OK (score + sumZ ((fun r => penalty_of mapping dflt (assoc key r)) <$> recs)).
Proof.
  induction recs as [|r recs IH]; intros score Hwf; cbn [loop fmap list_fmap].
  - f_equal. unfold sumZ. cbn [foldr]. lia.
  - inversion Hwf as [|? ? Hr Hrest]; subst.
    rewrite (step_record _ _ Hr). cbn [rbind]. rewrite (IH _ Hrest).
    f_equal. unfold sumZ. cbn [foldr fmap list_fmap]. lia.
Qed.

(** A loop whose table and default never add anything positive never raises
    the score, whatever the items are. *)
Lemma loop_le items : forall score score',
  map_Forall (fun _ v => v <= 0) mapping -> dflt <= 0 ->
  loop key mapping dflt score items = OK score' -> score' <= score.
Proof.
  induction items as [|item items IH]; intros score score' Hm Hd; simpl.
  - intros [= <-]. lia.
  - destruct (step key mapping dflt score item) as [sc|e] eqn:E; simpl; [|discriminate].
    intros Hl. apply IH in Hl; [|assumption..].
    assert (sc <= score); [|lia].
    unfold step in E.
    destruct (py_contains key item) as [[|]|]; simpl in E; try discriminate.
    + destruct (py_getitem key item) as [v|]; simpl in E; try discriminate.
      destruct (py_dict_get v mapping) as [[pen|]|] eqn:G; simpl in E;
        try discriminate; injection E as <-; [|lia].
      destruct v; simpl in G; try discriminate; injection G as G.
      apply Hm in G. simpl in G. lia.
    + injection E as <-. lia.
Qed.

End ScoreFacts.

(** Lookups in the literal tables, by cases on the key. *)
Ltac table_cases :=
  repeat (rewrite list_to_map_cons || rewrite list_to_map_nil);
  repeat rewrite lookup_insert; rewrite ?lookup_empty;
  repeat case_decide; subst; simpl;
  try reflexivity; try lia;
  try (exfalso;
       repeat match goal with
              | H : _ \/ _ |- _ => destruct H
              | H : ~ (_ \/ _) |- _ => apply Decidable.not_or in H; destruct H
              end;
       congruence || (repeat match goal with
                      | H : @eq (list N) _ _ |- _ => vm_compute in H; try discriminate H
                      end; fail)).

Lemma accuracy_table s :
  default (-5) (ACCURACY_MAPPING !! s) = accuracy_penalty (Some (JStr s)).
Proof. unfold ACCURACY_MAPPING, accuracy_penalty. table_cases. Qed.

Lemma correctness_table s :
  default 0 (CORRECTNESS_MAPPING !! s) = checkpoint_penalty (Some (JStr s)).
Proof. unfold CORRECTNESS_MAPPING, checkpoint_penalty. table_cases. Qed.

Lemma fluency_table s :
  default 0 (FLUENCY_MAPPING !! s) = if decide (s = u "有问题") then -2 else 0.
Proof. unfold FLUENCY_MAPPING. table_cases. Qed.

Lemma appropiate_table s :
  default 0 (APPROPIATE_MAPPING !! s) = if decide (s = u "有问题") then -5 else 0.
Proof. unfold APPROPIATE_MAPPING. table_cases. Qed.

Lemma accuracy_nonpos : map_Forall (fun _ v => v <= 0) ACCURACY_MAPPING.
Proof. intros s v. unfold ACCURACY_MAPPING. table_cases; intros [= <-]; lia. Qed.

Lemma correctness_nonpos : map_Forall (fun _ v => v <= 0) CORRECTNESS_MAPPING.
Proof. intros s v. unfold CORRECTNESS_MAPPING. table_cases; intros [= <-]; lia. Qed.

Lemma fluency_nonpos : map_Forall (fun _ v => v <= 0) FLUENCY_MAPPING.
Proof. intros s v. unfold FLUENCY_MAPPING. table_cases; intros [= <-]; lia. Qed.

Lemma appropiate_nonpos : map_Forall (fun _ v => v <= 0) APPROPIATE_MAPPING.
Proof. intros s v. unfold APPROPIATE_MAPPING. table_cases; intros [= <-]; lia. Qed.

(** What a flag costs. *)
Lemma flagged_penalty (mapping : gmap pystr Z) (pen : Z) (r : issue) :
  (forall s, default 0 (mapping !! s) = if decide (s = u "有问题") then pen else 0) ->
  penalty_of mapping 0 (assoc SEVERITY r) = if flagged r then pen else 0.
Proof.
  intros Ht. unfold penalty_of, flagged.
  destruct (assoc SEVERITY r) as [[| | | |s| |]|]; try reflexivity.
  rewrite Ht. case_decide; case_bool_decide; congruence.
Qed.

Lemma flagged_sum (mapping : gmap pystr Z) (pen : Z) (l : list issue) :
  (forall s, default 0 (mapping !! s) = if decide (s = u "有问题") then pen else 0) ->
  sumZ ((fun r => penalty_of mapping 0 (assoc SEVERITY r)) <$> l)
  = pen * count_flagged l.
Proof.
  intros Ht. unfold count_flagged.
  induction l as [|r l IH]; cbn [fmap list_fmap sumZ foldr].
  - simpl. lia.
  - fold (sumZ ((fun r => penalty_of mapping 0 (assoc SEVERITY r)) <$> l)).
    rewrite IH, (flagged_penalty _ pen _ Ht).
    destruct (flagged r) eqn:E.
    + rewrite filter_cons_True by assumption. cbn [length]. lia.
    + rewrite filter_cons_False by congruence. lia.
Qed.

Lemma for_each_le key mapping dflt score v score' :
  map_Forall (fun _ x => x <= 0) mapping -> dflt <= 0 ->
  for_each key mapping dflt score v = OK score' -> score' <= score.
Proof.
  intros Hm Hd. unfold for_each.
  destruct (py_iter v) as [items|]; simpl; [|discriminate].
  apply loop_le; assumption.
Qed.

(** Whatever the four arguments are, a returned tuple lies within the three
    ranges. *)
Lemma calculate_score_range acc ckpt flu appropiate a f p :
  calculate_score acc ckpt flu appropiate = OK (a, f, p) ->
  0 <= a <= 60 /\ 0 <= f <= 20 /\ 0 <= p <= 20.
Proof.
  unfold calculate_score.
  destruct (for_each SEVERITY ACCURACY_MAPPING (-5) 60 acc) as [a1|] eqn:E1; simpl; [|discriminate].
  destruct (for_each VERDICT CORRECTNESS_MAPPING 0 a1 ckpt) as [a2|] eqn:E2; simpl; [|discriminate].
  destruct (for_each SEVERITY FLUENCY_MAPPING 0 20 flu) as [f1|] eqn:E3; simpl; [|discriminate].
  destruct (for_each SEVERITY APPROPIATE_MAPPING 0 20 appropiate) as [p1|] eqn:E4; simpl; [|discriminate].
  intros [= <- <- <-].
  apply for_each_le in E1; [|apply accuracy_nonpos|lia].
  apply for_each_le in E2; [|apply correctness_nonpos|lia].
  apply for_each_le in E3; [|apply fluency_nonpos|lia].
  apply for_each_le in E4; [|apply appropiate_nonpos|lia].
  lia.
Qed.

(** On lists of well-formed records the calculator returns, and this is what
    it returns. *)
Lemma calculate_score_records (acc ckpt flu appropiate : list issue) :
  Forall (wf SEVERITY) acc -> Forall (wf VERDICT) ckpt ->
  Forall (wf SEVERITY) flu -> Forall (wf SEVERITY) appropiate ->
  calculate_score (issues acc) (issues ckpt) (issues flu) (issues appropiate)
  = OK (Z.max (60 + sumZ ((fun r => accuracy_penalty (assoc SEVERITY r)) <$> acc)
                  + sumZ ((fun r => checkpoint_penalty (assoc VERDICT r)) <$> ckpt)) 0,
        Z.max (20 - 2 * count_flagged flu) 0,
        Z.max (20 - 5 * count_flagged appropiate) 0).
Proof.
  intros Ha Hc Hf Hp. unfold calculate_score, issues, for_each. cbn [py_iter rbind].
  rewrite (loop_records _ _ _ _ _ Ha). cbn [rbind].
  rewrite (loop_records _ _ _ _ _ Hc). cbn [rbind].
  rewrite (loop_records _ _ _ _ _ Hf). cbn [rbind].
  rewrite (loop_records _ _ _ _ _ Hp). cbn [rbind].
  rewrite (flagged_sum _ (-2) _ fluency_table).
  rewrite (flagged_sum _ (-5) _ appropiate_table).
  assert (Hacc : forall l : list issue,
    (fun r => penalty_of ACCURACY_MAPPING (-5) (assoc SEVERITY r)) <$> l
    = (fun r => accuracy_penalty (assoc SEVERITY r)) <$> l).
  { intros l. apply list_fmap_ext. intros _ r _. unfold penalty_of.
    destruct (assoc SEVERITY r) as [[| | | |s| |]|]; try reflexivity.
    apply accuracy_table. }
  assert (Hck : forall l : list issue,
    (fun r => penalty_of CORRECTNESS_MAPPING 0 (assoc VERDICT r)) <$> l
    = (fun r => checkpoint_penalty (assoc VERDICT r)) <$> l).
  { intros l. apply list_fmap_ext. intros _ r _. unfold penalty_of.
    destruct (assoc VERDICT r) as [[| | | |s| |]|]; try reflexivity.
    apply correctness_table. }
  rewrite Hacc, Hck. do 3 f_equal; f_equal; lia.
Qed.

(** C1.  For all lists of accuracy-issue and checkpoint-issue records, the
    accuracy component of [calculate_score] is 60, plus the penalty of the
    severity table for each accuracy issue (no-issue 0, minor and major -5,
    severe -10, extremely severe -50, and -5 for any other or missing
    severity), plus -5 for each checkpoint marked incorrect and 0 for the
    others, clamped to be at least 0. *)
Theorem calculate_score_accuracy (acc ckpt flu appropiate : list issue) :
  Forall (wf SEVERITY) acc -> Forall (wf VERDICT) ckpt ->
  Forall (wf SEVERITY) flu -> Forall (wf SEVERITY) appropiate ->
  exists f p,
    calculate_score (issues acc) (issues ckpt) (issues flu) (issues appropiate)
    = OK (Z.max (60 + sumZ ((fun r => accuracy_penalty (assoc SEVERITY r)) <$> acc)
                    + sumZ ((fun r => checkpoint_penalty (assoc VERDICT r)) <$> ckpt)) 0,
          f, p).
Proof.
  intros Ha Hc Hf Hp. eexists _, _.
  apply calculate_score_records; assumption.
Qed.

(** One extremely severe issue leaves 10, three leave 0. *)
Lemma calculate_score_accuracy_witness :
  (exists f p, calculate_score (issues [Demo.extremely_severe])
                 (issues []) (issues []) (issues []) = OK (10, f, p))
  /\ (exists f p, calculate_score
                 (issues [Demo.extremely_severe; Demo.extremely_severe; Demo.extremely_severe])
                 (issues []) (issues []) (issues []) = OK (0, f, p)).
Proof.
  split.
  - destruct (calculate_score_accuracy [Demo.extremely_severe] [] [] [])
      as (f & p & E); try (repeat constructor; vm_compute; exact I).
    exists f, p. rewrite E. reflexivity.
  - destruct (calculate_score_accuracy
                [Demo.extremely_severe; Demo.extremely_severe; Demo.extremely_severe] [] [] [])
      as (f & p & E); try (repeat constructor; vm_compute; exact I).
    exists f, p. rewrite E. reflexivity.
Defined.

(** C7.  With no issue in any dimension [calculate_score] returns
    (60, 20, 20), whose total is 100, and no input gives a larger total. *)
Theorem calculate_score_no_issues :
  calculate_score (JArr []) (JArr []) (JArr []) (JArr []) = OK (60, 20, 20)
  /\ sum3 (60, 20, 20) = 100
  /\ forall acc ckpt flu appropiate scores,
       calculate_score acc ckpt flu appropiate = OK scores -> sum3 scores <= 100.
Proof.
  split; [reflexivity|]. split; [reflexivity|].
  intros acc ckpt flu appropiate [[a f] p] E.
  apply calculate_score_range in E. unfold sum3. lia.
Qed.

Lemma calculate_score_no_issues_witness :
  calculate_score (issues [Demo.extremely_severe]) (JArr []) (JArr []) (JArr [])
    = OK (10, 20, 20)
  /\ sum3 (10, 20, 20) <= 100.
Proof.
  assert (E : calculate_score (issues [Demo.extremely_severe]) (JArr []) (JArr []) (JArr [])
              = OK (10, 20, 20)) by (vm_compute; reflexivity).
  split; [exact E|].
  exact (proj2 (proj2 calculate_score_no_issues) _ _ _ _ _ E).
Defined.

(** C9.  On lists of records the fluency score is 20 minus 2 for each record
    marked "has issue" and the appropriateness score 20 minus 5 for each,
    both clamped at 0: more flagged issues never give a higher score, adding
    a record never raises it, and on no input does a returned score fall
    below 0. *)
Theorem fluency_appropriateness_monotone
    (acc ckpt flu appropiate acc' ckpt' flu' appropiate' : list issue) :
  Forall (wf SEVERITY) acc -> Forall (wf VERDICT) ckpt ->
  Forall (wf SEVERITY) flu -> Forall (wf SEVERITY) appropiate ->
  Forall (wf SEVERITY) acc' -> Forall (wf VERDICT) ckpt' ->
  Forall (wf SEVERITY) flu' -> Forall (wf SEVERITY) appropiate' ->
  count_flagged flu <= count_flagged flu' ->
  count_flagged appropiate <= count_flagged appropiate' ->
  exists a f p a' f' p',
    calculate_score (issues acc) (issues ckpt) (issues flu) (issues appropiate)
      = OK (a, f, p)
    /\ calculate_score (issues acc') (issues ckpt') (issues flu') (issues appropiate')
      = OK (a', f', p')
    /\ f = Z.max (20 - 2 * count_flagged flu) 0
    /\ p = Z.max (20 - 5 * count_flagged appropiate) 0
    /\ f' <= f /\ p' <= p
    /\ (forall x y z w sa sf sp,
          calculate_score x y z w = OK (sa, sf, sp) -> 0 <= sf /\ 0 <= sp).
Proof.
  intros Ha Hc Hf Hp Ha' Hc' Hf' Hp' Hflu Happ.
  do 6 eexists.
  split; [apply calculate_score_records; assumption|].
  split; [apply calculate_score_records; assumption|].
  split; [reflexivity|]. split; [reflexivity|].
  split; [lia|]. split; [lia|].
  intros x y z w sa sf sp E. apply calculate_score_range in E. lia.
Qed.

Lemma fluency_appropriateness_monotone_witness :
  exists a f p a' f' p',
    calculate_score (issues []) (issues []) (issues [Demo.no_issue]) (issues [Demo.has_issue])
      = OK (a, f, p)
    /\ calculate_score (issues []) (issues [])
         (issues [Demo.no_issue; Demo.has_issue]) (issues [Demo.has_issue; Demo.has_issue])
      = OK (a', f', p')
    /\ f = 20 /\ p = 15 /\ f' <= f /\ p' <= p.
Proof.
  destruct (fluency_appropriateness_monotone
              [] [] [Demo.no_issue] [Demo.has_issue]
              [] [] [Demo.no_issue; Demo.has_issue] [Demo.has_issue; Demo.has_issue])
    as (a & f & p & a' & f' & p' & E & E' & Ef & Ep & Hf & Hp & _);
    try (repeat constructor; vm_compute; exact I);
    try (vm_compute; discriminate).
  exists a, f, p, a', f', p'.
  repeat split; try assumption.
Defined.

(** ** Stripping *)

Lemma lstrip_idem s : lstrip (lstrip s) = lstrip s.
Proof.
  induction s as [|c s IH]; cbn [lstrip_by]; [reflexivity|].
  destruct (is_space c) eqn:E; [exact IH|]. cbn [lstrip_by]. rewrite E. reflexivity.
Qed.

Lemma rstrip_idem s : rstrip (rstrip s) = rstrip s.
Proof.
  induction s as [|c s IH]; cbn [rstrip_by]; [reflexivity|].
  destruct (rstrip s) as [|d t] eqn:E.
  - destruct (is_space c) eqn:Ec; cbn [rstrip_by]; [reflexivity|]. rewrite Ec. reflexivity.
  - cbn [rstrip_by]. cbn [rstrip_by] in IH. rewrite IH. reflexivity.
Qed.

(** Stripping on the right leaves the front as it is. *)
Lemma lstrip_rstrip s : lstrip s = s -> lstrip (rstrip s) = rstrip s.
Proof.
  destruct s as [|c s]; [reflexivity|]. cbn [lstrip_by rstrip_by].
  destruct (is_space c) eqn:E.
  - intros Hl. exfalso.
    assert (Hlen : forall t, (length (lstrip t) <= length t)%nat).
    { induction t as [|x t IHt]; cbn [lstrip_by length]; [lia|].
      destruct (is_space x); cbn [length]; lia. }
    pose proof (Hlen s) as Hs. rewrite Hl in Hs. cbn [length] in Hs. lia.
  - intros _. destruct (rstrip s); cbn [lstrip_by]; rewrite E; reflexivity.
Qed.

Lemma strip_idem s : strip (strip s) = strip s.
Proof.
  unfold strip. rewrite (lstrip_rstrip (lstrip s) (lstrip_idem s)).
  apply rstrip_idem.
Qed.

(** What stripping removes is whitespace. *)
Lemma lstrip_split s : exists a, s = a ++ lstrip s /\ Forall (fun c => is_space c = true) a.
Proof.
  induction s as [|c s (a & Ha & Hs)]; cbn [lstrip_by].
  - exists []. split; [reflexivity|constructor].
  - destruct (is_space c) eqn:E.
    + exists (c :: a). split; [cbn; congruence|constructor; assumption].
    + exists []. split; [reflexivity|constructor].
Qed.

Lemma rstrip_split s : exists b, s = rstrip s ++ b /\ Forall (fun c => is_space c = true) b.
Proof.
  induction s as [|c s (b & Hb & Hs)]; cbn [rstrip_by].
  - exists []. split; [reflexivity|constructor].
  - destruct (rstrip s) as [|d t] eqn:E.
    + destruct (is_space c) eqn:Ec.
      * exists (c :: b). cbn in Hb. subst s. split; [reflexivity|constructor; assumption].
      * exists b. cbn in Hb. subst s. split; [reflexivity|assumption].
    + exists b. split; [|assumption]. cbn. cbn in Hb. congruence.
Qed.

Lemma strip_split s :
  exists a b, s = a ++ strip s ++ b
    /\ Forall (fun c => is_space c = true) a /\ Forall (fun c => is_space c = true) b.
Proof.
  destruct (lstrip_split s) as (a & Ha & Hsa).
  destruct (rstrip_split (lstrip s)) as (b & Hb & Hsb).
  exists a, b. unfold strip. rewrite <- Hb. auto.
Qed.

Section StripBy.
Variable p : N -> bool.

Lemma lstrip_by_app_ws (a y : pystr) :
  Forall (fun c => p c = true) a -> lstrip_by p (a ++ y) = lstrip_by p y.
Proof.
  induction 1 as [|c a Hc _ IH]; [reflexivity|].
  cbn [app lstrip_by]. rewrite Hc. exact IH.
Qed.

Lemma rstrip_by_ws (b : pystr) :
  Forall (fun c => p c = true) b -> rstrip_by p b = [].
Proof.
  induction 1 as [|c b Hc _ IH]; [reflexivity|].
  cbn [rstrip_by]. rewrite IH, Hc. reflexivity.
Qed.

Lemma rstrip_by_app_ws (y b : pystr) :
  Forall (fun c => p c = true) b -> rstrip_by p (y ++ b) = rstrip_by p y.
Proof.
  intros Hb. induction y as [|c y IH]; cbn [app rstrip_by].
  - apply rstrip_by_ws. assumption.
  - rewrite IH. reflexivity.
Qed.

Lemma lstrip_by_ws (b : pystr) :
  Forall (fun c => p c = true) b -> lstrip_by p b = [].
Proof.
  induction 1 as [|c b Hc _ IH]; [reflexivity|].
  cbn [lstrip_by]. rewrite Hc. exact IH.
Qed.

(** Whitespace around a text does not change what is left of it. *)
Lemma strip_by_frame (a s b : pystr) :
  Forall (fun c => p c = true) a -> Forall (fun c => p c = true) b ->
  rstrip_by p (lstrip_by p (a ++ s ++ b)) = rstrip_by p (lstrip_by p s).
Proof.
  intros Ha Hb. rewrite (lstrip_by_app_ws _ _ Ha).
  induction s as [|c s IH]; cbn [app lstrip_by].
  - rewrite (lstrip_by_ws _ Hb). reflexivity.
  - destruct (p c); [exact IH|].
    apply (rstrip_by_app_ws (c :: s) b). assumption.
Qed.

Lemma head_lstrip_by_frame (a s b : pystr) :
  Forall (fun c => p c = true) a -> Forall (fun c => p c = true) b ->
  head (lstrip_by p (a ++ s ++ b)) = head (lstrip_by p s).
Proof.
  intros Ha Hb. rewrite (lstrip_by_app_ws _ _ Ha).
  induction s as [|c s IH]; cbn [app lstrip_by].
  - rewrite (lstrip_by_ws _ Hb). reflexivity.
  - destruct (p c); [exact IH|reflexivity].
Qed.

End StripBy.

Lemma json_ws_space c : json_ws c = true -> is_space c = true.
Proof.
  unfold json_ws. rewrite !orb_true_iff, !N.eqb_eq.
  intros [[[-> | ->] | ->] | ->]; reflexivity.
Qed.

Lemma json_ws_spaces (a : pystr) :
  Forall (fun c => json_ws c = true) a -> Forall (fun c => is_space c = true) a.
Proof. intros Ha. eapply Forall_impl; [exact Ha|]. apply json_ws_space. Qed.

(** The stand-in parser treats whitespace as [json.loads] does. *)
Lemma demo_json_whitespace table : JsonWhitespace (Demo.lib table).
Proof.
  split; cbn [json_loads Demo.lib]; unfold Demo.table_loads.
  - intros a s b Ha Hb. unfold starts_value, json_strip.
    rewrite (head_lstrip_by_frame json_ws a s b Ha Hb).
    rewrite (strip_by_frame json_ws a s b Ha Hb). reflexivity.
  - intros s v. destruct (starts_value s); [reflexivity|discriminate].
Qed.

(** ** The JSON-fragment extractor *)

Section ReFacts.
Context {R : Type}.

Lemma run_Lit (p s : pystr) (g : option pystr) (k : pystr -> option pystr -> option R) :
  run (Lit p) s g k = if startswith p s then k (drop (length p) s) g else None.
Proof.
  revert s. induction p as [|c p IH]; intros s; cbn [Lit run startswith length drop].
  - destruct s; reflexivity.
  - destruct s as [|x s]; [reflexivity|].
    rewrite N.eqb_sym. destruct (c =? x)%N; cbn [andb]; [apply IH|reflexivity].
Qed.

Lemma search_none (r : regex) (s : pystr) :
  (forall n, match_here r (drop n s) = None) -> search r s = None.
Proof.
  induction s as [|c s IH]; intros Hn; cbn [search];
    pose proof (Hn 0%nat) as H0; cbn [drop] in H0; rewrite H0.
  - reflexivity.
  - apply IH. intros n. apply (Hn (S n)).
Qed.

End ReFacts.

(** *** The fence pattern, piece by piece *)

Lemma space_not_tick c s : is_space c = true -> startswith FENCE (c :: s) = false.
Proof.
  intros Hc. cbn [FENCE startswith].
  destruct (N.eqb_spec 96 c) as [<-|]; [vm_compute in Hc; discriminate|reflexivity].
Qed.

Lemma fence_not_space s : startswith FENCE s = true -> lstrip s = s.
Proof.
  destruct s as [|c s]; [reflexivity|]. cbn [lstrip_by].
  destruct (is_space c) eqn:E; [|reflexivity].
  rewrite (space_not_tick _ _ E). discriminate.
Qed.

Section FenceRun.
Context {R : Type}.

(** [\s*```] *)
Lemma greedy_closing (K : pystr -> option R) (s : pystr) :
  greedy is_space (fun s' => if startswith FENCE s' then K s' else None) s
  = if startswith FENCE (lstrip s) then K (lstrip s) else None.
Proof.
  induction s as [|c s IH]; cbn [greedy lstrip_by]; [reflexivity|].
  destruct (is_space c) eqn:E; [|reflexivity].
  rewrite IH, (space_not_tick _ _ E).
  destruct (startswith FENCE (lstrip s)); [|reflexivity].
  destruct (K (lstrip s)); reflexivity.
Qed.

Lemma greedy_ext (p : N -> bool) (k1 k2 : pystr -> option R) (s : pystr) :
  (forall s', k1 s' = k2 s') -> greedy p k1 s = greedy p k2 s.
Proof.
  intros Hk. induction s as [|c s IH]; cbn [greedy]; [apply Hk|].
  rewrite IH, Hk. reflexivity.
Qed.

Lemma lazy_ext (p : N -> bool) (k1 k2 : pystr -> option R) (s : pystr) :
  (forall s', k1 s' = k2 s') -> lazy p k1 s = lazy p k2 s.
Proof.
  intros Hk. induction s as [|c s IH]; cbn [lazy]; rewrite Hk; [reflexivity|].
  rewrite IH. reflexivity.
Qed.

(** [([\s\S]*?)] followed by the closing *)
Lemma lazy_group (K : pystr -> R) (s : pystr) : forall pre s0,
  s0 = pre ++ s ->
  lazy any (fun s' => if startswith FENCE (lstrip s')
                      then Some (K (take (length s0 - length s') s0)) else None) s
  = K <$> ((fun x => pre ++ x) <$> lazy_content s).
Proof.
  induction s as [|c s IH]; intros pre s0 ->; cbn [lazy lazy_content].
  - reflexivity.
  - destruct (startswith FENCE (lstrip (c :: s))) eqn:E.
    + cbn [fmap option_fmap option_map]. do 2 f_equal.
      rewrite length_app, app_nil_r.
      replace (length pre + length (c :: s) - length (c :: s))%nat with (length pre) by lia.
      apply take_app_length.
    + unfold any at 1. rewrite (IH (pre ++ [c]) (pre ++ c :: s)).
      * destruct (lazy_content s) as [x|]; cbn [fmap option_fmap option_map]; [|reflexivity].
        rewrite <- app_assoc. reflexivity.
      * rewrite <- app_assoc. reflexivity.
Qed.

End FenceRun.

Lemma fence_re_parts : fence_re = Cat (Lit FENCE) (Cat (Opt (Lit TAG)) tagless_part).
Proof. reflexivity. Qed.

Lemma run_closing_part s g :
  run closing_part s g finish = if startswith FENCE (lstrip s) then Some g else None.
Proof.
  unfold closing_part. cbn [run].
  etransitivity; [apply greedy_ext; intros s'; apply run_Lit|].
  apply (greedy_closing (fun _ => Some g)).
Qed.

Lemma run_group_part s g :
  run group_part s g finish = Some <$> lazy_content s.
Proof.
  unfold group_part. cbn [run].
  etransitivity; [apply lazy_ext; intros s'; apply run_closing_part|].
  rewrite (lazy_group Some s [] s eq_refl).
  destruct (lazy_content s); reflexivity.
Qed.

Lemma until_fence_space c s :
  is_space c = true -> until_fence (c :: s) = cons c <$> until_fence s.
Proof. intros Hc. cbn [until_fence]. rewrite (space_not_tick _ _ Hc). reflexivity. Qed.

Lemma closes_until s :
  startswith FENCE (lstrip s) = true ->
  exists ws, until_fence s = Some ws /\ rstrip ws = [].
Proof.
  induction s as [|c s IH]; cbn [lstrip_by]; [discriminate|].
  destruct (is_space c) eqn:E.
  - intros (ws & Hu & Hr)%IH. exists (c :: ws).
    rewrite (until_fence_space _ _ E), Hu. split; [reflexivity|].
    cbn [rstrip_by]. rewrite Hr, E. reflexivity.
  - intros Hf. exists []. cbn [until_fence]. rewrite Hf. split; reflexivity.
Qed.

Lemma until_closes s : forall x,
  until_fence s = Some x -> rstrip x = [] -> startswith FENCE (lstrip s) = true.
Proof.
  induction s as [|c s IH]; intros x; cbn [until_fence].
  - destruct (startswith FENCE []) eqn:E; [discriminate E|discriminate].
  - destruct (startswith FENCE (c :: s)) eqn:E.
    + intros _ _. rewrite (fence_not_space _ E). exact E.
    + destruct (until_fence s) as [x'|]; [|discriminate].
      intros [= <-]. cbn [rstrip_by lstrip_by].
      destruct (rstrip x') eqn:Er; [|discriminate].
      destruct (is_space c); [|discriminate].
      intros _. apply (IH x'); [reflexivity|assumption].
Qed.

Lemma lazy_content_until s : lazy_content s = rstrip <$> until_fence s.
Proof.
  induction s as [|c s IH]; [reflexivity|].
  cbn [lazy_content].
  destruct (startswith FENCE (lstrip (c :: s))) eqn:E.
  - destruct (closes_until _ E) as (ws & -> & Hr). cbn. rewrite Hr. reflexivity.
  - rewrite IH. cbn [until_fence].
    destruct (startswith FENCE (c :: s)) eqn:Ef.
    + rewrite (fence_not_space _ Ef) in E. congruence.
    + destruct (until_fence s) as [x|] eqn:Eu; [|reflexivity].
      cbn [fmap option_fmap option_map rstrip_by]. f_equal.
      destruct (rstrip x) eqn:Er; [|reflexivity].
      destruct (is_space c) eqn:Ec; [|reflexivity].
      exfalso. cbn [lstrip_by] in E. rewrite Ec in E.
      rewrite (until_closes _ _ Eu Er) in E. discriminate.
Qed.

Lemma until_fence_lstrip s : until_fence (lstrip s) = lstrip <$> until_fence s.
Proof.
  induction s as [|c s IH]; [reflexivity|]. cbn [lstrip_by].
  destruct (is_space c) eqn:E.
  - rewrite IH, (until_fence_space _ _ E).
    destruct (until_fence s); cbn; [rewrite E|]; reflexivity.
  - cbn [until_fence]. destruct (startswith FENCE (c :: s)); [reflexivity|].
    destruct (until_fence s); cbn; [rewrite E|]; reflexivity.
Qed.

Lemma run_tagless_part s g :
  run tagless_part s g finish = (fun x => Some (strip x)) <$> until_fence s.
Proof.
  unfold tagless_part. cbn [run].
  etransitivity; [apply greedy_ext; intros s'; apply run_group_part|].
  transitivity (Some <$> lazy_content (lstrip s)).
  - induction s as [|c s IH]; cbn [greedy lstrip_by]; [reflexivity|].
    destruct (is_space c) eqn:E; [|reflexivity].
    rewrite IH. destruct (lazy_content (lstrip s)) eqn:El; [reflexivity|].
    rewrite lazy_content_until, until_fence_lstrip in El.
    rewrite lazy_content_until, (until_fence_space _ _ E).
    destruct (until_fence s); [discriminate El|reflexivity].
  - rewrite lazy_content_until, until_fence_lstrip.
    destruct (until_fence s); reflexivity.
Qed.

Lemma startswith_app (p s : pystr) :
  startswith p s = true -> s = p ++ drop (length p) s.
Proof.
  revert s. induction p as [|a p IH]; intros s; [reflexivity|].
  destruct s as [|b s]; cbn [startswith]; [discriminate|].
  intros [->%N.eqb_eq Hp]%andb_prop. cbn. f_equal. apply IH. assumption.
Qed.

Lemma until_fence_other c s :
  c <> 96%N -> until_fence (c :: s) = cons c <$> until_fence s.
Proof.
  intros Hc. cbn [until_fence FENCE startswith].
  destruct (N.eqb_spec 96 c) as [<-|]; [congruence|reflexivity].
Qed.

Lemma until_fence_tag s :
  startswith TAG s = true -> until_fence (drop (length TAG) s) = None ->
  until_fence s = None.
Proof.
  intros Ht Hn. rewrite (startswith_app _ _ Ht). cbn [TAG app].
  rewrite !until_fence_other by discriminate. rewrite Hn. reflexivity.
Qed.

(** A match of the whole pattern at the start of [s]. *)
Lemma match_here_fence s :
  match_here fence_re s
  = if startswith FENCE s
    then (fun x => Some (strip x)) <$> until_fence (untagged (drop (length FENCE) s))
    else None.
Proof.
  unfold match_here. rewrite fence_re_parts. cbn [run].
  change (fun _ g => Some g) with finish.
  rewrite run_Lit. destruct (startswith FENCE s); [|reflexivity].
  cbn [run]. rewrite run_Lit, !run_tagless_part. unfold untagged.
  destruct (startswith TAG (drop (length FENCE) s)) eqn:Et; [|reflexivity].
  destruct (until_fence (drop (length TAG) (drop (length FENCE) s))) eqn:Eu;
    [reflexivity|].
  rewrite (until_fence_tag _ Et Eu). reflexivity.
Qed.

Lemma until_fence_find s : until_fence s = (fun j => take j s) <$> find FENCE s.
Proof.
  induction s as [|c s IH]; cbn [until_fence find].
  - destruct (startswith FENCE []); reflexivity.
  - destruct (startswith FENCE (c :: s)); [reflexivity|].
    rewrite IH. destruct (find FENCE s); reflexivity.
Qed.

Lemma until_fence_drop n : forall s,
  until_fence s = None -> until_fence (drop n s) = None.
Proof.
  induction n as [|n IH]; intros s; [intros; assumption|].
  destruct s as [|c s]; [intros; assumption|].
  cbn [until_fence drop]. destruct (startswith FENCE (c :: s)); [discriminate|].
  destruct (until_fence s) eqn:E; [discriminate|]. intros _. apply IH. assumption.
Qed.

Lemma until_fence_untagged s :
  until_fence (untagged s) = None <-> until_fence s = None.
Proof.
  unfold untagged. destruct (startswith TAG s) eqn:E; [|reflexivity].
  split; [apply until_fence_tag; assumption|apply until_fence_drop].
Qed.

(** [re.search] with the fence pattern. *)
Lemma search_fence s :
  search fence_re s
  = match find FENCE s with
    | Some i => (fun x => Some (strip x))
                  <$> until_fence (untagged (drop (i + length FENCE) s))
    | None => None
    end.
Proof.
  induction s as [|c s IH]; cbn [search]; rewrite match_here_fence; cbn [find].
  - destruct (startswith FENCE []) eqn:E; [discriminate E|reflexivity].
  - destruct (startswith FENCE (c :: s)) eqn:E.
    + change (drop (0 + length FENCE) (c :: s)) with (drop (length FENCE) (c :: s)).
      destruct (until_fence (untagged (drop (length FENCE) (c :: s)))) eqn:Eu;
        [reflexivity|].
      cbn [fmap option_fmap option_map].
      apply search_none. intros n. rewrite match_here_fence.
      destruct (startswith FENCE (drop n s)); [|reflexivity].
      apply (proj1 (until_fence_untagged _)) in Eu.
      apply (until_fence_drop (S n)) in Eu.
      replace (drop (S n) (drop (length FENCE) (c :: s)))
        with (drop (length FENCE) (drop n s)) in Eu
        by (rewrite !drop_drop;
            replace (length FENCE + S n)%nat with (S (n + length FENCE)) by lia;
            reflexivity).
      apply (proj2 (until_fence_untagged _)) in Eu. rewrite Eu. reflexivity.
    + rewrite IH. destruct (find FENCE s) as [i|]; reflexivity.
Qed.

(** What the extractor returns, in terms of the first fenced block, and that
    it differs from the content of the block by surrounding whitespace
    only. *)
Lemma extract_json_string_strip (text : pystr) :
  match first_fence text with
  | Some inner =>
      extract_json_string text = strip inner
      /\ exists a b, inner = a ++ extract_json_string text ++ b
           /\ Forall (fun c => is_space c = true) a
           /\ Forall (fun c => is_space c = true) b
  | None => extract_json_string text = text
  end.
Proof.
  unfold first_fence, extract_json_string. rewrite search_fence.
  destruct (find FENCE text) as [i|]; [|reflexivity].
  cbv zeta. rewrite until_fence_find.
  destruct (find FENCE (untagged (drop (i + length FENCE) text))) as [j|];
    [|reflexivity].
  cbn [fmap option_fmap option_map]. rewrite strip_idem.
  split; [reflexivity|]. apply strip_split.
Qed.

(** No whitespace character starts a JSON value. *)
Lemma space_not_value_start c : is_space c = true -> value_start c = false.
Proof.
  unfold is_space, value_start.
  rewrite !orb_true_iff, !andb_true_iff, !N.leb_le, !N.eqb_eq.
  intros Hc.
  repeat match goal with
         | |- (_ || _)%bool = false => apply orb_false_intro
         | |- (_ && _)%bool = false => apply andb_false_iff
         end;
    rewrite ?N.eqb_neq, ?N.leb_gt; lia.
Qed.

(** A text that begins with whitespace other than JSON whitespace does not
    parse. *)
Lemma json_loads_rejects_space {lib : PyLib} {laws : JsonWhitespace lib}
    (c : N) (s : pystr) :
  is_space c = true -> json_ws c = false ->
  exists e, json_loads (c :: s) = Raise e.
Proof.
  intros Hs Hj. destruct (json_loads (c :: s)) as [v|e] eqn:E; [|eauto].
  apply json_loads_start in E. unfold starts_value in E.
  cbn [lstrip_by] in E. rewrite Hj in E. cbn [head] in E.
  rewrite (space_not_value_start _ Hs) in E. discriminate.
Qed.

Section ExtractParse.
Context {lib : PyLib} {laws : JsonWhitespace lib}.

(** C8, as the code has it.  When the text has a fenced block - a first
    fence, an optional [json] tag, and a next fence - the extractor returns
    the content between them without its leading and trailing whitespace; so
    when that content is a document surrounded by JSON whitespace only, the
    extractor returns the document and parsing its result equals parsing the
    content.  When the text has no such block the extractor returns it
    unchanged. *)
Theorem extract_json_string_document (text : pystr) :
  match first_fence text with
  | Some inner =>
      extract_json_string text = strip inner
      /\ forall a doc b,
           inner = a ++ doc ++ b ->
           Forall (fun c => json_ws c = true) a ->
           Forall (fun c => json_ws c = true) b ->
           strip doc = doc ->
           extract_json_string text = doc
           /\ json_loads (extract_json_string text) = json_loads inner
  | None => extract_json_string text = text
  end.
Proof.
  pose proof (extract_json_string_strip text) as Hs.
  destruct (first_fence text) as [inner|]; [|exact Hs].
  destruct Hs as [Hs _]. split; [exact Hs|].
  intros a doc b -> Ha Hb Hdoc.
  assert (E : extract_json_string text = doc).
  { rewrite Hs. unfold strip in *.
    rewrite (strip_by_frame is_space a doc b (json_ws_spaces _ Ha) (json_ws_spaces _ Hb)).
    exact Hdoc. }
  split; [exact E|]. rewrite E. symmetry. apply json_loads_ws; assumption.
Qed.

End ExtractParse.

Lemma extract_json_string_document_witness :
  extract_json_string Demo.fenced = u "[1]"
  /\ json_loads (PyLib := Demo.pylib) (extract_json_string Demo.fenced)
     = json_loads (PyLib := Demo.pylib) (NL ++ u "[1]" ++ NL).
Proof.
  pose proof (extract_json_string_document (lib := Demo.pylib) (laws := demo_json_whitespace _)
                Demo.fenced) as Hs.
  change (first_fence Demo.fenced) with (Some (NL ++ u "[1]" ++ NL)) in Hs.
  destruct Hs as [_ Hs].
  apply (Hs NL (u "[1]") NL).
  - reflexivity.
  - repeat constructor.
  - repeat constructor.
  - vm_compute. reflexivity.
Defined.

(** C8 as stated fails here: the content of the fence does not parse, the
    result of the extractor does. *)
Lemma full_width_space_breaks_parse :
  first_fence Demo.padded = Some (NL ++ [12288%N] ++ u "[1]" ++ NL)
  /\ extract_json_string Demo.padded = u "[1]"
  /\ json_loads (PyLib := Demo.pylib) (extract_json_string Demo.padded) = OK (JArr [JInt 1])
  /\ json_loads (PyLib := Demo.pylib) (NL ++ [12288%N] ++ u "[1]" ++ NL) = Raise ValueError.
Proof. vm_compute. repeat split; reflexivity. Qed.

(** ** The gate pattern *)

Section GateRun.
Context {R : Type}.

(** A greedy [\s*] before something that cannot start with whitespace. *)
Lemma greedy_space (K : pystr -> option R) (s : pystr) :
  (forall c s', is_space c = true -> K (c :: s') = None) ->
  greedy is_space K s = K (lstrip s).
Proof.
  intros HK. induction s as [|c s IH]; cbn [greedy lstrip_by]; [reflexivity|].
  destruct (is_space c) eqn:E; [|reflexivity].
  rewrite IH, (HK _ _ E). destruct (K (lstrip s)); reflexivity.
Qed.

End GateRun.

Lemma match_here_gate s :
  match_here gate_re s
  = if startswith MARKER s
    then (fun c => Some [c]) <$> head (lstrip (drop (length MARKER) s))
    else None.
Proof.
  unfold match_here, gate_re. cbn [run]. rewrite run_Lit.
  destruct (startswith MARKER s); [|reflexivity].
  cbn [run]. rewrite greedy_space.
  - destruct (lstrip (drop (length MARKER) s)) as [|c t] eqn:E; [reflexivity|].
    assert (Hc : is_space c = false).
    { destruct (is_space c) eqn:Ec; [|reflexivity]. exfalso.
      assert (Hi : lstrip (lstrip (drop (length MARKER) s)) = c :: t)
        by (rewrite lstrip_idem; exact E).
      rewrite E in Hi. cbn [lstrip_by] in Hi. rewrite Ec in Hi.
      pose proof (f_equal length Hi) as Hl. cbn [length] in Hl.
      assert (Hle : forall x, (length (lstrip x) <= length x)%nat).
      { induction x as [|y x IHx]; cbn [lstrip_by length]; [lia|].
        destruct (is_space y); cbn [length]; lia. }
      specialize (Hle t). lia. }
    unfold not_space. rewrite Hc. cbn [negb head fmap option_fmap option_map].
    do 3 f_equal. cbn [length].
    replace (S (length t) - length t)%nat with 1%nat by lia. reflexivity.
  - intros c s' Hc. unfold not_space. rewrite Hc. reflexivity.
Qed.

Lemma lstrip_nil_spaces x : lstrip x = [] -> Forall (fun c => is_space c = true) x.
Proof.
  induction x as [|c x IH]; cbn [lstrip_by]; [constructor|].
  destruct (is_space c) eqn:E; [|discriminate].
  intros Hx. constructor; [exact E|apply IH; exact Hx].
Qed.

Lemma startswith_marker_spaces x :
  Forall (fun c => is_space c = true) x -> startswith MARKER x = false.
Proof.
  destruct 1 as [|c x Hc _]; [reflexivity|].
  cbn [MARKER startswith].
  destruct (N.eqb_spec 26159 c) as [<-|]; [vm_compute in Hc; discriminate|reflexivity].
Qed.

(** [re.search] with the gate pattern. *)
Lemma search_gate s :
  search gate_re s = (fun c => Some [c]) <$> gate_token s.
Proof.
  unfold gate_token.
  induction s as [|c s IH]; cbn [search]; rewrite match_here_gate; cbn [find].
  - destruct (startswith MARKER []) eqn:E; [discriminate E|reflexivity].
  - destruct (startswith MARKER (c :: s)) eqn:E.
    + change (drop (0 + length MARKER) (c :: s)) with (drop (length MARKER) (c :: s)).
      destruct (head (lstrip (drop (length MARKER) (c :: s)))) eqn:Eh; [reflexivity|].
      cbn [fmap option_fmap option_map].
      apply search_none. intros n. rewrite match_here_gate.
      replace (startswith MARKER (drop n s)) with false; [reflexivity|].
      symmetry.
      assert (Hsp : Forall (fun c => is_space c = true) (drop (length MARKER) (c :: s))).
      { apply lstrip_nil_spaces.
        destruct (lstrip (drop (length MARKER) (c :: s))); [reflexivity|discriminate]. }
      pose proof (startswith_app _ _ E) as Es.
      set (rest := drop (length MARKER) (c :: s)) in *.
      change (drop n s) with (drop (S n) (c :: s)). rewrite Es.
      do 6 (destruct n as [|n]; [reflexivity|]).
      cbn [MARKER app drop].
      apply startswith_marker_spaces, Forall_drop. exact Hsp.
    + rewrite IH. destruct (find MARKER s) as [i|]; reflexivity.
Qed.

Lemma gate_problem_token s :
  gate_problem s = bool_decide (gate_token s = Some 26159%N).
Proof.
  unfold gate_problem. rewrite search_gate.
  destruct (gate_token s) as [c|]; cbn [fmap option_fmap option_map].
  - apply bool_decide_ext. unfold YES. split; intros [= ->]; reflexivity.
  - symmetry. apply bool_decide_eq_false_2. discriminate.
Qed.


(** ** Structured judge calls *)

Section JudgeFacts.
Context {lib : PyLib} {tpl : Prompts}.

Lemma attempts_failed func n w w' :
  failed func w w' -> attempts func (S n) w = attempts func n w'.
Proof.
  intros [e E|r e E L]; cbn [attempts]; unfold catch, bind, lift; rewrite E.
  - reflexivity.
  - rewrite L. reflexivity.
Qed.

Lemma attempts_parsed func n w w' s v :
  func w = (OK (Some s), w') -> json_loads s = OK v ->
  attempts func (S n) w = (OK v, w').
Proof.
  intros E L. cbn [attempts]. unfold catch, bind, lift. rewrite E.
  cbn [loads]. rewrite L. reflexivity.
Qed.

(** The wrapper never raises. *)
Lemma attempts_total func n : forall w,
  exists v w', attempts func n w = (OK v, w').
Proof.
  induction n as [|n IH]; intros w; cbn [attempts].
  - eexists _, _. reflexivity.
  - unfold catch, bind, lift.
    destruct (func w) as [[r|e] w1].
    + destruct (loads r) as [v|e]; [eexists _, _; reflexivity|apply IH].
    + apply IH.
Qed.

Lemma attempts_all_failed func n : forall w,
  (forall w1, exists w2, failed func w1 w2) ->
  exists w', attempts func n w = (OK (JArr []), w').
Proof.
  intros w Hf. revert w.
  induction n as [|n IH]; intros w.
  - eexists. reflexivity.
  - destruct (Hf w) as [w2 F]. rewrite (attempts_failed _ _ _ _ F). apply IH.
Qed.

Lemma attempts_failing func n : forall w w',
  failing func n w w' -> attempts func n w = (OK (JArr []), w').
Proof.
  induction n as [|n IH]; intros w w' H; inversion H as [|? ? w1 ? F1 Fn]; subst.
  - reflexivity.
  - rewrite (attempts_failed _ _ _ _ F1). apply IH, Fn.
Qed.

(** C4.  A wrapped call that fails twice (it raises, or its output does not
    parse) and then returns parsable JSON on the third of three attempts
    gives that parse; a call that fails at each of the three attempts - and
    in general at each of its [retries] attempts, which are all the wrapper
    makes - gives the empty list; and in no case does the wrapper raise. *)
Theorem safe_json_call_retry (func : M (option pystr)) (w0 : world) :
  (forall w1 w2 w3 s v,
     failed func w0 w1 -> failed func w1 w2 ->
     func w2 = (OK (Some s), w3) -> json_loads s = OK v ->
     safe_json_call func 3 w0 = (OK v, w3))
  /\ (forall w1 w2 w3,
        failed func w0 w1 -> failed func w1 w2 -> failed func w2 w3 ->
        safe_json_call func 3 w0 = (OK (JArr []), w3))
  /\ (forall n w,
        failing func n w0 w ->
        safe_json_call func (Z.of_nat n) w0 = (OK (JArr []), w))
  /\ (forall retries, exists v w', safe_json_call func retries w0 = (OK v, w')).
Proof.
  unfold safe_json_call. split; [|split; [|split]].
  - intros w1 w2 w3 s v F1 F2 E L.
    change (Z.to_nat 3) with 3%nat.
    rewrite (attempts_failed _ _ _ _ F1), (attempts_failed _ _ _ _ F2).
    apply (attempts_parsed _ _ _ _ _ _ E L).
  - intros w1 w2 w3 F1 F2 F3.
    change (Z.to_nat 3) with 3%nat.
    rewrite (attempts_failed _ _ _ _ F1), (attempts_failed _ _ _ _ F2),
      (attempts_failed _ _ _ _ F3).
    reflexivity.
  - intros n w F. rewrite Nat2Z.id. apply attempts_failing, F.
  - intros retries. apply attempts_total.
Qed.

End JudgeFacts.

Lemma safe_json_call_retry_witness :
  (safe_json_call (lib := Demo.pylib) Demo.judge_call 3 Demo.third_time).1 = OK (JArr [JInt 1])
  /\ (safe_json_call (lib := Demo.pylib) Demo.judge_call 3 Stage.hopeless).1 = OK (JArr [])
  /\ length (sent (safe_json_call (lib := Demo.pylib) Demo.judge_call 3 Stage.hopeless).2)
     = 3%nat.
Proof.
  split.
  - pose (w1 := (Demo.judge_call Demo.third_time).2).
    pose (w2 := (Demo.judge_call w1).2).
    pose (w3 := (Demo.judge_call w2).2).
    rewrite (proj1 (safe_json_call_retry Demo.judge_call Demo.third_time)
               w1 w2 w3 (u "[1]") (JArr [JInt 1])).
    + reflexivity.
    + apply (failed_parse _ _ _ None TypeError); vm_compute; reflexivity.
    + apply (failed_parse _ _ _ (Some (u "no JSON")) ValueError); vm_compute; reflexivity.
    + vm_compute. reflexivity.
    + vm_compute. reflexivity.
  - pose (w1 := (Demo.judge_call Stage.hopeless).2).
    pose (w2 := (Demo.judge_call w1).2).
    pose (w3 := (Demo.judge_call w2).2).
    rewrite (proj1 (proj2 (safe_json_call_retry Demo.judge_call Stage.hopeless))
               w1 w2 w3).
    + split; reflexivity.
    + apply (failed_parse _ _ _ None TypeError); vm_compute; reflexivity.
    + apply (failed_parse _ _ _ (Some (u "no JSON")) ValueError); vm_compute; reflexivity.
    + apply (failed_parse _ _ _ None TypeError); vm_compute; reflexivity.
Defined.

(** ** The judgment pipeline *)

Section PipelineFacts.
Context {lib : PyLib} {tpl : Prompts}.

Lemma silent_send req w : silent w -> silent (send req w).
Proof. intros Hs history. apply Hs. Qed.

(** Whatever its arguments, the invoker returns (it never raises), and it
    sends at most one request. *)
Lemma litellm_generate_silent messages model temperature max_tokens mode top_p w :
  silent w ->
  exists w', litellm_generate messages model temperature max_tokens mode top_p w
             = (OK None, w') /\ silent w'.
Proof.
  intros Hs. unfold litellm_generate.
  destruct (environ w _) as [base|]; [|eexists; split; [reflexivity|assumption]].
  destruct (environ w _) as [key|]; [|eexists; split; [reflexivity|assumption]].
  match goal with |- context [completion w ?h] => destruct (Hs h) as [-> | ->] end;
    (eexists; split; [reflexivity|apply silent_send; assumption]).
Qed.

(** With a silent backend a judge call comes back as [None]. *)
Lemma or_none_silent sp up judge_model kwargs w :
  silent w ->
  exists w', or_none (eval_result_by_llm sp up judge_model kwargs) w = (OK None, w')
             /\ silent w'.
Proof.
  intros Hs. unfold or_none, eval_result_by_llm, catch, bind, lift, ret, raise.
  destruct (str_format up kwargs) as [user_prompt|e].
  - destruct (litellm_generate_silent
                [ {| role := u "system"; content := sp |};
                  {| role := u "user"; content := user_prompt |} ]
                judge_model None None true None w Hs) as (w' & -> & Hs').
    eexists. split; [reflexivity|assumption].
  - eexists. split; [reflexivity|assumption].
Qed.

Lemma attempts_silent sp up judge_model kwargs n : forall w,
  silent w ->
  exists w', attempts (or_none (eval_result_by_llm sp up judge_model kwargs)) n w
             = (OK (JArr []), w') /\ silent w'.
Proof.
  induction n as [|n IH]; intros w Hs.
  - eexists. split; [reflexivity|assumption].
  - destruct (or_none_silent sp up judge_model kwargs w Hs) as (w1 & E & Hs1).
    rewrite (attempts_failed _ n w w1); [apply IH; assumption|].
    eapply failed_parse; [exact E|reflexivity].
Qed.

(** The gate call with a given answer of the backend. *)
Lemma eval_result_by_llm_answer sp up judge_model kwargs w user_prompt w1 answer :
  str_format up kwargs = OK user_prompt ->
  litellm_generate [ {| role := u "system"; content := sp |};
                     {| role := u "user"; content := user_prompt |} ]
    judge_model None None true None w = (OK answer, w1) ->
  eval_result_by_llm sp up judge_model kwargs w
  = (match answer with
     | Some text => OK (extract_json_string text)
     | None => Raise TypeError
     end, w1).
Proof.
  intros Hf Hg. unfold eval_result_by_llm, bind, lift, ret, raise.
  rewrite Hf, Hg. destruct answer; reflexivity.
Qed.

End PipelineFacts.

Section Pipeline.
Context {lib : PyLib} {tpl : Prompts}.

(** Content can only come from a request that was sent. *)
Lemma litellm_generate_content messages model temperature max_tokens mode top_p
    w text w1 :
  litellm_generate messages model temperature max_tokens mode top_p w
    = (OK (Some text), w1) ->
  exists req, req_messages req = messages /\ w1 = send req w.
Proof.
  unfold litellm_generate.
  destruct (environ w _) as [base|]; [|discriminate].
  destruct (environ w _) as [key|]; [|discriminate].
  match goal with |- context [send ?r w] => set (req := r) end.
  destruct (completion w _); intros [= ? <-]; exists req; split; reflexivity.
Qed.

(** C3.  When, in the text the gate call returns, the first occurrence of the
    marker phrase is followed, after optional whitespace, by the "problem
    exists" token, [metrics] returns the scores (0, 0, 0), the total 0 and a
    detailed judgment with the gate result alone, and the gate request is the
    only request sent: no dimension judge, self-critique or final judge is
    invoked. *)
Theorem gate_short_circuit (task : DISCOX) (response : option pystr)
    (judge_model : pystr) (w w1 : world) (user_prompt text : pystr) :
  str_format instruct_up (gate_kwargs task response) = OK user_prompt ->
  litellm_generate (gate_messages user_prompt) judge_model None None true None w
    = (OK (Some text), w1) ->
  gate_token (extract_json_string text) = Some 26159%N ->
  metrics task response judge_model w
    = (OK ((0, 0, 0), 0,
           JObj [(u "instruction_following", JStr (extract_json_string text))]), w1)
  /\ exists req, req_messages req = gate_messages user_prompt
                 /\ sent w1 = sent w ++ [req].
Proof.
  intros Hf Hg Ht.
  assert (Hp : gate_problem (extract_json_string text) = true)
    by (rewrite gate_problem_token; apply bool_decide_eq_true_2; exact Ht).
  split.
  - unfold gate_kwargs, gate_messages in *. unfold metrics, bind. cbv zeta.
    rewrite (eval_result_by_llm_answer _ _ _ _ _ _ _ _ Hf Hg).
    rewrite Hp. reflexivity.
  - apply litellm_generate_content in Hg as (req & Hm & ->).
    exists req. split; [assumption|reflexivity].
Qed.

(** A raise of [run_task] becomes an error record. *)
Lemma wrapped_run_raise model judgemodel task w e w1 :
  run_task task model judgemodel w = (Raise e, w1) ->
  wrapped_run model judgemodel task w
  = (OK (JObj [ (u "error", JStr (exn_str e));
                (u "traceback", JStr (format_exc e)) ]), w1).
Proof.
  intros E. unfold wrapped_run, catch, bind. rewrite E. reflexivity.
Qed.

(** A judge call to which the invoker returns no content is a failed
    attempt. *)
Lemma no_content_failed sp up judge_model kwargs w w' :
  no_content sp up judge_model kwargs w w' ->
  failed (or_none (eval_result_by_llm sp up judge_model kwargs)) w w'.
Proof.
  intros (user_prompt & Hf & Hl).
  apply (failed_parse _ _ _ None TypeError); [|reflexivity].
  unfold or_none, catch, bind, ret.
  rewrite (eval_result_by_llm_answer _ _ _ _ _ _ _ _ Hf Hl). reflexivity.
Qed.

(** Three attempts without content end a structured judge call with the
    empty judgment. *)
Lemma safe_json_call_no_content sp up judge_model kwargs w w1 w2 w3 :
  no_content sp up judge_model kwargs w w1 ->
  no_content sp up judge_model kwargs w1 w2 ->
  no_content sp up judge_model kwargs w2 w3 ->
  safe_json_call (or_none (eval_result_by_llm sp up judge_model kwargs)) 3 w
  = (OK (JArr []), w3).
Proof.
  intros H1 H2 H3. unfold safe_json_call. change (Z.to_nat 3) with 3%nat.
  rewrite (attempts_failed _ _ _ _ (no_content_failed _ _ _ _ _ _ H1)),
    (attempts_failed _ _ _ _ (no_content_failed _ _ _ _ _ _ H2)),
    (attempts_failed _ _ _ _ (no_content_failed _ _ _ _ _ _ H3)).
  reflexivity.
Qed.

(** C5, as the code has it.  A structured judge call, which is what every
    dimension judge and final judge is, never raises.  When the invoker
    returns no content at each of the three attempts of such a stage, the
    stage ends with the empty judgment; and the task goes on: after a gate
    that found no problem and an accuracy judge left without content,
    [metrics] continues with the checkpoint judge, from the empty accuracy
    judgment.  A [None] at the gate makes [metrics] raise a [TypeError], and
    the worker turns the task into an error record.  A [None] from the
    candidate call does not end the task: it is judged as the response. *)
Theorem invocation_failure_by_stage (task : DISCOX) (model judge_model : pystr)
    (w : world) :
  (forall sp up kwargs,
     exists v w', safe_json_call (or_none (eval_result_by_llm sp up judge_model kwargs)) 3 w
                  = (OK v, w'))
  /\ (forall response sp up kwargs stage w1 w2 w3,
        judge_stage task response judge_model sp up kwargs stage ->
        no_content sp up judge_model kwargs w w1 ->
        no_content sp up judge_model kwargs w1 w2 ->
        no_content sp up judge_model kwargs w2 w3 ->
        stage w = (OK (JArr []), w3))
  /\ (forall response instruct_res w0 w1 w2 w3,
        eval_result_by_llm instruct_sp instruct_up judge_model (gate_kwargs task response) w
          = (OK instruct_res, w0) ->
        gate_problem instruct_res = false ->
        let kwargs := [(u "ori_text", JStr (ori_text task));
                       (u "response", opt_str response)] in
        no_content accuracy_sp up judge_model kwargs w0 w1 ->
        no_content accuracy_sp up judge_model kwargs w1 w2 ->
        no_content accuracy_sp up judge_model kwargs w2 w3 ->
        metrics task response judge_model w
        = judged task (opt_str response) judge_model instruct_res (JArr []) w3)
  /\ (forall output w1 user_prompt w2,
        litellm_generate (candidate_messages task) model None (Some 20000) false None w
          = (OK output, w1) ->
        str_format instruct_up (gate_kwargs task output) = OK user_prompt ->
        litellm_generate (gate_messages user_prompt) judge_model None None true None w1
          = (OK None, w2) ->
        metrics task output judge_model w1 = (Raise TypeError, w2)
        /\ wrapped_run model judge_model task w
           = (OK (JObj [ (u "error", JStr (exn_str TypeError));
                         (u "traceback", JStr (format_exc TypeError)) ]), w2))
  /\ (forall w1 scores total detailed_judgement w2,
        litellm_generate (candidate_messages task) model None (Some 20000) false None w
          = (OK None, w1) ->
        metrics task None judge_model w1 = (OK (scores, total, detailed_judgement), w2) ->
        run_task task model judge_model w
        = (OK (run_record task None scores total detailed_judgement), w2)).
Proof.
  split; [|split; [|split; [|split]]].
  - intros sp up kwargs. apply attempts_total.
  - intros response sp up kwargs stage w1 w2 w3 Hstage H1 H2 H3.
    destruct Hstage;
      unfold judge_accuracy, judge_checkpoint, judge_fluency, judge_appropiate, final_judge;
      apply (safe_json_call_no_content _ _ _ _ _ _ _ _ H1 H2 H3).
  - intros response instruct_res w0 w1 w2 w3 Hg Hp kwargs H1 H2 H3. subst kwargs.
    unfold metrics. unfold gate_kwargs in Hg. unfold bind at 1. rewrite Hg, Hp.
    unfold judge_accuracy at 1. unfold bind at 1.
    rewrite (safe_json_call_no_content _ _ _ _ _ _ _ _ H1 H2 H3). reflexivity.
  - intros output w1 user_prompt w2 Hc Hf Hg.
    assert (Hm : metrics task output judge_model w1 = (Raise TypeError, w2)).
    { unfold gate_kwargs, gate_messages in *. unfold metrics, bind. cbv zeta.
      rewrite (eval_result_by_llm_answer _ _ _ _ _ _ _ _ Hf Hg). reflexivity. }
    split; [exact Hm|].
    apply wrapped_run_raise. unfold run_task, bind.
    unfold candidate_messages in Hc. rewrite Hc, Hm. reflexivity.
  - intros w1 [[a f] p] total dj w2 Hc Hm.
    unfold run_task, bind. unfold candidate_messages in Hc. rewrite Hc, Hm.
    reflexivity.
Qed.

End Pipeline.

Lemma gate_short_circuit_witness :
  (metrics (lib := Demo.pylib) (tpl := Demo.prompts) (Demo.task 1) (Some (u "hello"))
     (u "judge") Demo.problem_found).1
  = OK ((0, 0, 0), 0, JObj [(u "instruction_following", JStr (u "是否存在问题：是"))]).
Proof.
  pose (w1 := (litellm_generate (gate_messages (tpl := Demo.prompts) [])
                 (u "judge") None None true None Demo.problem_found).2).
  rewrite (proj1 (gate_short_circuit (lib := Demo.pylib) (tpl := Demo.prompts)
                    (Demo.task 1) (Some (u "hello")) (u "judge")
                    Demo.problem_found w1 [] (u "是否存在问题：是")
                    ltac:(reflexivity) ltac:(vm_compute; reflexivity)
                    ltac:(vm_compute; reflexivity))).
  vm_compute. reflexivity.
Defined.

Lemma invocation_failure_by_stage_witness :
  (wrapped_run (lib := Demo.pylib) (tpl := Demo.prompts) (u "model") (u "judge")
     (Demo.task 1) Demo.gate_down).1
  = OK (JObj [ (u "error", JStr (u "error")); (u "traceback", JStr (u "Traceback")) ])
  /\ exists detailed_judgement,
       (wrapped_run (lib := Stage.pylib) (tpl := Demo.prompts) (u "model") (u "judge")
          (Demo.task 1) Stage.recovering).1
       = OK (run_record (Demo.task 1) (Some (u "hello")) (60, 20, 20) 100
               detailed_judgement).
Proof.
  split.
  - pose (w1 := (litellm_generate (candidate_messages (Demo.task 1)) (u "model")
                   None (Some 20000) false None Demo.gate_down).2).
    pose (w2 := (litellm_generate (gate_messages (tpl := Demo.prompts) [])
                   (u "judge") None None true None w1).2).
    rewrite (proj2 (proj1 (proj2 (proj2 (proj2 (invocation_failure_by_stage
               (lib := Demo.pylib) (tpl := Demo.prompts)
               (Demo.task 1) (u "model") (u "judge") Demo.gate_down))))
               (Some (u "hello")) w1 [] w2
               ltac:(vm_compute; reflexivity) ltac:(reflexivity)
               ltac:(vm_compute; reflexivity))).
    reflexivity.
  - pose (w := (litellm_generate (candidate_messages (Demo.task 1)) (u "model")
                  None (Some 20000) false None Stage.recovering).2).
    pose (call := litellm_generate
                    [ {| role := u "system"; content := [] |};
                      {| role := u "user"; content := [] |} ]
                    (u "judge") None None true None).
    pose (w0 := (call w).2). pose (w1 := (call w0).2).
    pose (w2 := (call w1).2). pose (w3 := (call w2).2).
    assert (Hm : metrics (lib := Stage.pylib) (tpl := Demo.prompts) (Demo.task 1)
                   (Some (u "hello")) (u "judge") w
                 = judged (lib := Stage.pylib) (tpl := Demo.prompts) (Demo.task 1)
                     (JStr (u "hello")) (u "judge") (u "fine") (JArr []) w3).
    { apply (proj1 (proj2 (proj2 (invocation_failure_by_stage
               (lib := Stage.pylib) (tpl := Demo.prompts)
               (Demo.task 1) (u "model") (u "judge") w)))
               (Some (u "hello")) (u "fine") w0 w1 w2 w3).
      - vm_compute. reflexivity.
      - vm_compute. reflexivity.
      - exists []. split; [reflexivity|]. vm_compute. reflexivity.
      - exists []. split; [reflexivity|]. vm_compute. reflexivity.
      - exists []. split; [reflexivity|]. vm_compute. reflexivity. }
    assert (Hc : litellm_generate [ {| role := u "user"; content := prompt (Demo.task 1) |} ]
                   (u "model") None (Some 20000) false None Stage.recovering
                 = (OK (Some (u "hello")), w)) by (vm_compute; reflexivity).
    eexists. unfold wrapped_run, catch, run_task. unfold bind at 1 2 3.
    rewrite Hc, Hm. vm_compute. reflexivity.
Defined.

(** C5 as stated fails at the gate and at the candidate call.  At the gate:
    the candidate answers, the gate invocation returns [None]; [metrics]
    raises instead of producing a judgment, and the worker records the task
    as failed.  At the candidate call: with no key for the candidate the
    invocation returns [None] without a request; the task is judged all the
    same, and its record is a run record with a score, not a failure. *)
Lemma gate_none_aborts_task :
  let w1 := (litellm_generate (candidate_messages (Demo.task 1)) (u "model")
               None (Some 20000) false None Demo.gate_down).2 in
  (litellm_generate (gate_messages (tpl := Demo.prompts) []) (u "judge")
     None None true None w1).1 = OK None
  /\ (metrics (lib := Demo.pylib) (tpl := Demo.prompts) (Demo.task 1) (Some (u "hello"))
        (u "judge") w1).1 = Raise TypeError
  /\ (wrapped_run (lib := Demo.pylib) (tpl := Demo.prompts) (u "model") (u "judge")
        (Demo.task 1) Demo.gate_down).1
     = OK (JObj [ (u "error", JStr (u "error")); (u "traceback", JStr (u "Traceback")) ])
  /\ litellm_generate (candidate_messages (Demo.task 1)) (u "model")
       None (Some 20000) false None Stage.no_candidate = (OK None, Stage.no_candidate)
  /\ exists detailed_judgement,
       (wrapped_run (lib := Demo.pylib) (tpl := Demo.prompts) (u "model") (u "judge")
          (Demo.task 1) Stage.no_candidate).1
       = OK (run_record (Demo.task 1) None (60, 20, 20) 100 detailed_judgement).
Proof.
  cbv zeta. split; [vm_compute; reflexivity|]. split; [vm_compute; reflexivity|].
  split; [vm_compute; reflexivity|]. split; [vm_compute; reflexivity|].
  eexists. vm_compute. reflexivity.
Qed.

(** C3 as stated fails for a reply that is fenced.  The reply of the gate
    judge holds the marker phrase followed by the token for a problem, after
    a fenced block; the pattern is looked for in the content of the block,
    where it is not; so the gate lets the answer through, ten requests are
    sent, and the answer gets the full score. *)
Lemma fenced_verdict_not_searched :
  (litellm_generate (gate_messages (tpl := Demo.prompts) []) (u "judge")
     None None true None Stage.fencing).1 = OK (Some Stage.fenced_verdict)
  /\ search gate_re Stage.fenced_verdict = Some (Some YES)
  /\ extract_json_string Stage.fenced_verdict = u "[]"
  /\ (exists detailed_judgement,
        (metrics (lib := Stage.pylib) (tpl := Demo.prompts) (Demo.task 1) (Some (u "hello"))
           (u "judge") Stage.fencing).1
        = OK ((60, 20, 20), 100, detailed_judgement))
  /\ length (sent (metrics (lib := Stage.pylib) (tpl := Demo.prompts) (Demo.task 1)
                     (Some (u "hello")) (u "judge") Stage.fencing).2) = 10%nat.
Proof.
  split; [vm_compute; reflexivity|]. split; [vm_compute; reflexivity|].
  split; [vm_compute; reflexivity|]. split; [eexists; vm_compute; reflexivity|].
  vm_compute. reflexivity.
Qed.

(** ** The task runner *)

(** A JSON value equals at most one integer. *)
Lemma eq_int_inj z z' v : eq_int z v = true -> eq_int z' v = true -> z = z'.
Proof.
  destruct v as [|b|x|f| | |]; cbn [eq_int]; try discriminate.
  - intros ->%Z.eqb_eq ->%Z.eqb_eq. reflexivity.
  - intros ->%Z.eqb_eq ->%Z.eqb_eq. reflexivity.
  - destruct f as [s| | |s m e]; try discriminate.
    + intros ->%Z.eqb_eq ->%Z.eqb_eq. reflexivity.
    + cbv zeta. destruct (0 <=? e) eqn:E.
      * intros ->%Z.eqb_eq ->%Z.eqb_eq. reflexivity.
      * intros H1%Z.eqb_eq H2%Z.eqb_eq.
        apply Z.leb_gt in E.
        assert (0 < 2 ^ (- e)) by (apply Z.pow_pos_nonneg; lia).
        apply (Z.mul_reg_r _ _ (2 ^ (- e))); lia.
Qed.

Lemma filter_at_most_one {A} (P : A -> Prop) `{forall x, Decision (P x)} (l : list A) :
  NoDup l -> (forall x y, P x -> P y -> x = y) -> (length (filter P l) <= 1)%nat.
Proof.
  intros Hnd Hp. induction Hnd as [|x l Hx Hnd IH]; [cbn; lia|].
  destruct (decide (P x)) as [Px|Px].
  - rewrite filter_cons_True by assumption.
    destruct (filter P l) as [|y t] eqn:E; [cbn; lia|].
    exfalso. assert (Hy : y ∈ filter P l) by (rewrite E; left).
    apply list_elem_of_filter in Hy as [Py Hy].
    rewrite (Hp x y Px Py) in Hx. contradiction.
  - rewrite filter_cons_False by assumption. assumption.
Qed.

(** Distinct integers that all occur in a list of JSON values are at most as
    many as the values. *)
Lemma covered_length (vs : list json) : forall zs : list Z,
  NoDup zs ->
  (forall z, z ∈ zs -> existsb (eq_int z) vs = true) ->
  (length zs <= length vs)%nat.
Proof.
  induction vs as [|v vs IH]; intros zs Hnd Hc.
  - destruct zs as [|z zs]; [reflexivity|].
    specialize (Hc z (list_elem_of_here _ _)). discriminate.
  - cbn [length].
    pose (P := fun z => eq_int z v = true).
    assert (Hrest : (length (filter (fun z => ~ P z) zs) <= length vs)%nat).
    { apply IH.
      - apply NoDup_filter. assumption.
      - intros z [Hz Hin]%list_elem_of_filter.
        specialize (Hc z Hin). cbn [existsb] in Hc. unfold P in Hz.
        destruct (eq_int z v); [contradiction|exact Hc]. }
    assert (Hone : (length (filter P zs) <= 1)%nat).
    { apply filter_at_most_one; [assumption|].
      intros x y. apply eq_int_inj. }
    pose proof (Permutation_length (filter_app_complement P zs)) as Hlen.
    rewrite length_app in Hlen. lia.
Qed.

Section RunnerFacts.
Context {lib : PyLib} {tpl : Prompts}.

(** C10.  On an empty task list [run_all_sync] raises [IndexError] where it
    takes the type name of the first task: nothing has been looked up,
    submitted or written, and no result with average 0.0 is returned. *)
Theorem run_all_sync_empty (model judgemodel : pystr) (concurrency : Z) (s : sys) :
  run_all_sync [] model judgemodel concurrency s = (Raise IndexError, s).
Proof. reflexivity. Qed.

End RunnerFacts.

(** *** Records and their scores *)

Section RecordFacts.
Context {lib : PyLib} {tpl : Prompts}.

(** One step of a computation: split on its result. *)
Ltac step_in E :=
  match type of E with
  | context [match ?m ?w with _ => _ end] =>
      let r := fresh "r" in let w' := fresh "w" in let Em := fresh "E" in
      destruct (m w) as [[r|?] w'] eqn:Em; [|discriminate E]
  end.

Lemma metrics_total_range task response judge_model w scores total dj w' :
  metrics task response judge_model w = (OK (scores, total, dj), w') ->
  0 <= total <= 100.
Proof.
  unfold metrics, bind, ret, lift. cbv zeta. intros E.
  step_in E.
  destruct (gate_problem r); [injection E as <- <- <- <-; lia|].
  do 9 step_in E.
  match type of E with
  | context [calculate_score ?a ?c ?f ?p] =>
      destruct (calculate_score a c f p) as [[[sa sf] sp]|] eqn:Ec; [|discriminate E]
  end.
  injection E as <- <- <- <-.
  apply calculate_score_range in Ec. unfold sum3. lia.
Qed.

(** The candidate call never raises. *)
Lemma litellm_generate_total messages model temperature max_tokens mode top_p w :
  exists o w', litellm_generate messages model temperature max_tokens mode top_p w
               = (OK o, w').
Proof.
  unfold litellm_generate.
  destruct (environ w _); [|eexists _, _; reflexivity].
  destruct (environ w _); [|eexists _, _; reflexivity].
  destruct (completion w _); eexists _, _; reflexivity.
Qed.

(** A worker always hands back a record, and one that can be averaged. *)
Lemma wrapped_run_record model judgemodel task w :
  exists r w', wrapped_run model judgemodel task w = (OK r, w') /\ score_ok r.
Proof.
  unfold wrapped_run, catch, bind.
  destruct (run_task task model judgemodel w) as [[r|e] w1] eqn:E.
  - unfold run_task, bind, ret in E.
    destruct (litellm_generate_total [ {| role := u "user"; content := prompt task |} ]
                model None (Some 20000) false None w) as (o & w0 & El).
    rewrite El in E.
    destruct (metrics task o judgemodel w0) as [[[[[[a f] p] total] dj]|e] w2] eqn:Em;
      [|discriminate E].
    injection E as <- <-.
    exists (JObj (model_dump task ++
      [ (u "model_output", opt_str o);
        (u "domain_score", JArr [JInt a; JInt f; JInt p]);
        (u "score", JInt total);
        (u "detailed_judgement", dj) ])), w2.
    split; [vm_compute; reflexivity|].
    eexists. split; [reflexivity|].
    replace (assoc (u "score") _) with (Some (JInt total)) by (vm_compute; reflexivity).
    exists total. split; [reflexivity|].
    eapply metrics_total_range. eassumption.
  - eexists _, _. split; [reflexivity|].
    eexists. split; [reflexivity|]. vm_compute. exact I.
Qed.

End RecordFacts.

(** *** The phases of a run *)

Lemma extends_refl s : extends s s [].
Proof. unfold extends. rewrite app_nil_r. auto. Qed.

Lemma extends_trans s s' s'' es es' :
  extends s s' es -> extends s' s'' es' -> extends s s'' (es ++ es').
Proof.
  unfold extends. intros (-> & -> & -> & -> & E) (-> & -> & -> & -> & E').
  rewrite E', E, app_assoc. auto.
Qed.

Lemma emit_extends e s : exists s', emit e s = (OK tt, s') /\ extends s s' [e]
                                   /\ files s' = files s.
Proof. eexists. split; [reflexivity|]. unfold extends. cbn. repeat split. Qed.

Lemma submitted_app l l' : submitted (l ++ l') = submitted l ++ submitted l'.
Proof. apply omap_app. Qed.

Lemma lookup_put n t f fs :
  lookup_file n (put n t f fs)
  = Some {| name := n; ctime := t; text := f (text <$> lookup_file n fs) |}.
Proof.
  induction fs as [|x fs IH]; cbn [put lookup_file].
  - rewrite decide_True by reflexivity. reflexivity.
  - destruct (decide (name x = n)) as [E|E]; cbn [lookup_file name].
    + rewrite decide_True by reflexivity. reflexivity.
    + rewrite decide_False by assumption. exact IH.
Qed.

Section PhaseFacts.
Context {lib : PyLib} {tpl : Prompts}.

Lemma outcome_record s model judgemodel task :
  outcome s model judgemodel task = OK (record_of s model judgemodel task)
  /\ score_ok (record_of s model judgemodel task).
Proof.
  unfold record_of, outcome.
  destruct (wrapped_run_record model judgemodel task (worker s task))
    as (r & w' & -> & Hr).
  split; [reflexivity|assumption].
Qed.

Lemma record_of_worker s s' model judgemodel :
  worker s' = worker s ->
  record_of s' model judgemodel = record_of s model judgemodel.
Proof. intros E. unfold record_of, outcome. rewrite E. reflexivity. Qed.

Lemma get_latest_extends folder modelname taskname s r s' :
  get_latest_jsonl_file folder modelname taskname s = (r, s') ->
  exists es, extends s s' es /\ submitted es = [] /\ files s' = files s.
Proof.
  unfold get_latest_jsonl_file, glob, bind, ret, emit. cbn.
  destruct (_ <$> filter _ (files s)); intros [= <- <-];
    (eexists [_]; split; [unfold extends; cbn; repeat split|split; reflexivity]).
Qed.

Lemma readlines_extends path s r s' :
  readlines path s = (r, s') ->
  exists es, extends s s' es /\ submitted es = [] /\ files s' = files s.
Proof.
  unfold readlines, bind, emit. cbn.
  destruct (lookup_file _ _); intros [= <- <-];
    (eexists [_]; split; [unfold extends; cbn; repeat split|split; reflexivity]).
Qed.

Lemma for_list_submit (tasks : list DISCOX) : forall s,
  exists us s', for_list (fun task => emit (Submit task)) tasks s = (OK us, s')
    /\ extends s s' (Submit <$> tasks) /\ files s' = files s.
Proof.
  induction tasks as [|t tasks IH]; intros s; cbn [for_list].
  - eexists _, _. split; [reflexivity|]. split; [apply extends_refl|reflexivity].
  - unfold bind. destruct (emit_extends (Submit t) s) as (s1 & -> & X1 & F1).
    destruct (IH s1) as (us & s' & -> & X & F).
    eexists _, _. split; [reflexivity|].
    split; [exact (extends_trans _ _ _ _ _ X1 X)|congruence].
Qed.

(** An append adds no submission to the log, whether it goes through or
    not. *)
Lemma append_file_extends path data s :
  exists r s' es, append_file path data s = (r, s') /\ extends s s' es
    /\ submitted es = [].
Proof.
  unfold append_file, emit. destruct (encodable data); cbn [snd];
    (eexists _, _, [_]; split; [reflexivity|];
     split; [unfold extends; cbn; repeat split|reflexivity]).
Qed.

(** An append of a text that can be encoded. *)
Lemma append_file_ok path data s :
  encodable data = true ->
  exists s', append_file path data s = (OK tt, s') /\ extends s s' [Append path data]
    /\ files s' = put (normpath path) (clock s) (fun old => default [] old ++ data) (files s).
Proof.
  intros E. unfold append_file, emit. rewrite E.
  eexists. split; [reflexivity|]. split; [|reflexivity].
  unfold extends. cbn. repeat split.
Qed.

(** Collecting results adds no submission, however it ends. *)
Lemma collect_quiet model judgemodel jsonl_file (done : list DISCOX) :
  forall results s,
  exists r s' es,
    collect model judgemodel jsonl_file done results s = (r, s')
    /\ extends s s' es /\ submitted es = [].
Proof.
  induction done as [|t done IH]; intros results s; cbn [collect].
  - eexists _, _, []. split; [reflexivity|]. split; [apply extends_refl|reflexivity].
  - unfold bind. rewrite (proj1 (outcome_record s model judgemodel t)).
    destruct (append_file_extends jsonl_file
                (json_dumps (record_of s model judgemodel t) ++ NL) s)
      as (r1 & s1 & es1 & -> & X1 & S1).
    destruct r1 as [[]|e].
    + destruct (IH (results ++ [record_of s model judgemodel t]) s1)
        as (r & s' & es & -> & X & Hs).
      eexists _, _, (es1 ++ es). split; [reflexivity|].
      split; [exact (extends_trans _ _ _ _ _ X1 X)|].
      rewrite submitted_app, S1, Hs. reflexivity.
    + eexists _, _, es1. split; [reflexivity|]. split; assumption.
Qed.

(** When every record can be written, collecting returns the results so far
    and the records of the tasks, in the order of completion. *)
Lemma collect_spec model judgemodel jsonl_file (done : list DISCOX) :
  forall results s,
  Forall (fun task => encodable (json_dumps (record_of s model judgemodel task) ++ NL) = true)
    done ->
  exists s' es,
    collect model judgemodel jsonl_file done results s
    = (OK (results ++ (record_of s model judgemodel <$> done)), s')
    /\ extends s s' es /\ submitted es = [].
Proof.
  induction done as [|t done IH]; intros results s Henc; cbn [collect].
  - eexists _, []. rewrite app_nil_r. split; [reflexivity|].
    split; [apply extends_refl|reflexivity].
  - inversion Henc as [|? ? Ht Hdone]; subst.
    unfold bind. rewrite (proj1 (outcome_record s model judgemodel t)).
    destruct (append_file_ok jsonl_file _ s Ht) as (s1 & -> & X1 & _).
    assert (Hw : worker s1 = worker s) by (destruct X1 as (_ & _ & E & _); exact E).
    destruct (IH (results ++ [record_of s model judgemodel t]) s1)
      as (s' & es & -> & X & Hs).
    { rewrite (record_of_worker _ _ _ _ Hw). exact Hdone. }
    rewrite (record_of_worker _ _ _ _ Hw).
    exists s', (Append jsonl_file (json_dumps (record_of s model judgemodel t) ++ NL) :: es).
    rewrite <- app_assoc. split; [reflexivity|].
    split; [|exact Hs].
    exact (extends_trans s s1 s' [_] es X1 X).
Qed.

(** Writing the result adds no submission, whether it goes through or
    not. *)
Lemma write_file_extends path pieces s :
  exists r s' es, write_file path pieces s = (r, s') /\ extends s s' es
    /\ submitted es = [].
Proof.
  unfold write_file, emit. destruct (written pieces) as [data [|]]; cbn [snd];
    (eexists _, _, [_]; split; [reflexivity|];
     split; [unfold extends; cbn; repeat split|reflexivity]).
Qed.

(** Pieces that can all be encoded are all written. *)
Lemma written_all (pieces : list pystr) :
  Forall (fun piece => encodable piece = true) pieces ->
  written pieces = (concat pieces, true).
Proof.
  induction 1 as [|piece rest Hp _ IH]; cbn [written concat]; [reflexivity|].
  rewrite Hp, IH. reflexivity.
Qed.

Lemma write_file_ok path pieces s :
  Forall (fun piece => encodable piece = true) pieces ->
  exists s', write_file path pieces s = (OK tt, s')
    /\ extends s s' [WriteFile path (concat pieces)]
    /\ files s' = put (normpath path) (clock s) (fun _ => concat pieces) (files s).
Proof.
  intros H. unfold write_file, emit. rewrite (written_all _ H).
  eexists. split; [reflexivity|]. split; [|reflexivity].
  unfold extends. cbn. repeat split.
Qed.

(** Records that can be averaged have their scores collected. *)
Lemma scores_ok (results : list json) :
  Forall score_ok results ->
  exists valid, scores results = OK valid /\ Forall percent valid.
Proof.
  induction 1 as [|r results (kv & -> & Hr) _ (valid & IH & Hv)]; cbn [scores].
  - exists []. split; [reflexivity|constructor].
  - cbn [py_contains py_getitem rbind].
    destruct (assoc (u "score") kv) as [v|] eqn:E.
    + rewrite bool_decide_eq_true_2 by eauto. cbn [rbind]. rewrite IH. cbn [rbind].
      exists (v :: valid). split; [reflexivity|constructor; assumption].
    + rewrite bool_decide_eq_false_2 by (intros [? ?]; discriminate).
      exists valid. split; assumption.
Qed.

End PhaseFacts.

Section ExecuteFacts.
Context {lib : PyLib} {tpl : Prompts}.

(** With a positive number of workers, [execute] submits the tasks it is
    given, in order, and nothing else, whatever becomes of the run. *)
Lemma execute_submits model judgemodel concurrency tasks results jsonl_file final_file s :
  0 < concurrency ->
  submitted (log (execute model judgemodel concurrency tasks results
                    jsonl_file final_file s).2)
  = submitted (log s) ++ tasks.
Proof.
  intros Hc. unfold execute, bind, lift, ret, raise.
  replace (concurrency <=? 0) with false by (symmetry; apply Z.leb_gt; assumption).
  destruct (for_list_submit tasks s) as (us & s1 & -> & X1 & _).
  destruct (collect_quiet model judgemodel jsonl_file (as_completed s1 tasks) results s1)
    as (r2 & s2 & es & -> & X2 & Hs).
  assert (Hlog : submitted (log s2) = submitted (log s) ++ tasks).
  { destruct (extends_trans _ _ _ _ _ X1 X2) as (_ & _ & _ & _ & ->).
    rewrite !submitted_app, Hs, app_nil_r. f_equal.
    clear. induction tasks as [|t l IH]; [reflexivity|]. cbn. f_equal. exact IH. }
  destruct r2 as [rs|e]; [|exact Hlog].
  destruct (scores _) as [valid|e]; [|exact Hlog].
  destruct (match valid with [] => OK (JFloat zero) | _ => mean_percent valid end)
    as [acc|e]; [|exact Hlog].
  match goal with
  | |- context [write_file ?f ?d s2] =>
      destruct (write_file_extends f d s2) as (r3 & s3 & es3 & -> & X3 & S3)
  end.
  assert (Hlog3 : submitted (log s3) = submitted (log s) ++ tasks).
  { destruct X3 as (_ & _ & _ & _ & ->). rewrite submitted_app, S3, app_nil_r. exact Hlog. }
  destruct r3 as [[]|e]; exact Hlog3.
Qed.

(** C6.  When the identifiers read from the latest matching checkpoint cover
    every task, the run is a fresh one: it writes to new files named after
    the current time, starts from no results and submits all the tasks. *)
Theorem completed_checkpoint_starts_fresh (tasks : list DISCOX)
    (model judgemodel : pystr) (concurrency : Z) (s s1 s2 : sys)
    (path : pystr) (lines : list pystr) (ids : list json) :
  tasks <> [] ->
  NoDup (prompt_id <$> tasks) ->
  get_latest_jsonl_file (u "./results") (replace (u "/") (u "-") model) (u "DISCOX") s
    = (OK (Some path), s1) ->
  readlines path s1 = (OK lines, s2) ->
  already_run lines = OK ids ->
  (forall task, task ∈ tasks -> existsb (eq_int (prompt_id task)) ids = true) ->
  run_all_sync tasks model judgemodel concurrency s
  = execute model judgemodel concurrency tasks []
      (path_join (u "results") (run_name s2 model ++ u "partial.jsonl"))
      (path_join (u "results") (run_name s2 model ++ u "result.json"))
      (made_dirs s2)
  /\ (0 < concurrency ->
      submitted (log (run_all_sync tasks model judgemodel concurrency s).2)
      = submitted (log s) ++ tasks).
Proof.
  intros Hne Hnd Hlatest Hread Hids Hcover.
  assert (Hlen : (length tasks <= length ids)%nat).
  { rewrite <- (length_fmap prompt_id tasks). apply covered_length; [assumption|].
    intros z (task & -> & Hin)%list_elem_of_fmap. apply Hcover. assumption. }
  assert (Hrun : run_all_sync tasks model judgemodel concurrency s
    = execute model judgemodel concurrency tasks []
        (path_join (u "results") (run_name s2 model ++ u "partial.jsonl"))
        (path_join (u "results") (run_name s2 model ++ u "result.json"))
        (made_dirs s2)).
  { destruct tasks as [|t tasks]; [congruence|].
    unfold run_all_sync, resume, bind, lift, ret.
    rewrite Hlatest. rewrite Hread. rewrite Hids.
    replace (length ids <? length (t :: tasks))%nat with false
      by (symmetry; apply Nat.ltb_ge; assumption).
    unfold output_files, run_name, made_dirs, emit. cbn [snd fst].
    rewrite <- !app_assoc. reflexivity. }
  split; [exact Hrun|].
  intros Hc. rewrite Hrun, (execute_submits _ _ _ _ _ _ _ _ Hc). f_equal.
  destruct (get_latest_extends _ _ _ _ _ _ Hlatest) as (es1 & (_ & _ & _ & _ & L1) & S1 & _).
  destruct (readlines_extends _ _ _ _ Hread) as (es2 & (_ & _ & _ & _ & L2) & S2 & _).
  unfold made_dirs, emit. cbn [snd log]. rewrite L2, L1, !submitted_app, S1, S2.
  cbn [submitted omap]. rewrite !app_nil_r. reflexivity.
Qed.

End ExecuteFacts.

(** *** Resuming from a checkpoint *)

Section ResumeFacts.
Context {lib : PyLib} {tpl : Prompts}.

Lemma already_run_ids lines : forall recs ids,
  Forall2 (fun line r => json_loads line = OK r) lines recs ->
  Forall2 checkpoint_record recs ids ->
  already_run lines = OK (JInt <$> ids).
Proof.
  induction lines as [|line lines IH]; intros recs ids Hp Hr.
  - inversion Hp; subst. inversion Hr; subst. reflexivity.
  - inversion Hp as [|? r ? recs' Hl Hp']; subst.
    inversion Hr as [|? id ? ids' (kv & -> & Hid & _) Hr']; subst.
    cbn [already_run]. rewrite Hl. cbn [rbind py_contains py_getitem].
    rewrite Hid. rewrite bool_decide_eq_true_2 by eauto. cbn [rbind].
    rewrite (IH _ _ Hp' Hr'). reflexivity.
Qed.

Lemma load_all_recs lines : forall recs,
  Forall2 (fun line r => json_loads line = OK r) lines recs ->
  load_all lines = OK recs.
Proof.
  induction lines as [|line lines IH]; intros recs Hp.
  - inversion Hp; subst. reflexivity.
  - inversion Hp as [|? r ? recs' Hl Hp']; subst.
    cbn [load_all]. rewrite Hl. cbn [rbind]. rewrite (IH _ Hp'). reflexivity.
Qed.

Lemma not_run_ids (ids : list Z) (task : DISCOX) :
  not_run (JInt <$> ids) task = true <-> prompt_id task ∉ ids.
Proof.
  unfold not_run. rewrite negb_true_iff.
  induction ids as [|z ids IH]; cbn [fmap list_fmap existsb eq_int].
  - split; [intros _; apply not_elem_of_nil|reflexivity].
  - rewrite orb_false_iff, IH, not_elem_of_cons, Z.eqb_neq. tauto.
Qed.

Lemma done_ids (ids : list Z) (tasks : list DISCOX) :
  NoDup (prompt_id <$> tasks) -> NoDup ids -> ids ⊆ prompt_id <$> tasks ->
  prompt_id <$> filter (fun task => prompt_id task ∈ ids) tasks ≡ₚ ids.
Proof.
  intros Ht Hi Hsub. apply NoDup_Permutation; [| assumption |].
  - clear Hsub. induction tasks as [|t tasks IH]; [constructor|].
    apply NoDup_cons in Ht as [Hx Ht].
    destruct (decide (prompt_id t ∈ ids)).
    + rewrite filter_cons_True by assumption. cbn [fmap list_fmap].
      apply NoDup_cons. split; [|apply IH; assumption].
      intros (y & Hy & [_ Hin]%list_elem_of_filter)%list_elem_of_fmap.
      apply Hx. apply list_elem_of_fmap. eauto.
    + rewrite filter_cons_False by assumption. apply IH. assumption.
  - intros z. split.
    + intros (y & -> & [Hy _]%list_elem_of_filter)%list_elem_of_fmap. assumption.
    + intros Hz. destruct (proj1 (list_elem_of_fmap _ _ _) (Hsub z Hz)) as (y & -> & Hy).
      apply list_elem_of_fmap. exists y. split; [reflexivity|].
      apply list_elem_of_filter. split; assumption.
Qed.

Lemma accounted (ids : list Z) (tasks : list DISCOX) :
  NoDup (prompt_id <$> tasks) -> NoDup ids -> ids ⊆ prompt_id <$> tasks ->
  ids ++ (prompt_id <$> remaining ids tasks) ≡ₚ prompt_id <$> tasks.
Proof.
  intros Ht Hi Hsub. unfold remaining.
  rewrite <- (done_ids ids tasks Ht Hi Hsub), <- fmap_app.
  apply fmap_Permutation.
  apply (filter_app_complement (fun task => prompt_id task ∈ ids)).
Qed.

Lemma remaining_length (ids : list Z) (tasks : list DISCOX) :
  NoDup (prompt_id <$> tasks) -> NoDup ids -> ids ⊆ prompt_id <$> tasks ->
  length (remaining ids tasks) = (length tasks - length ids)%nat.
Proof.
  intros Ht Hi Hsub.
  pose proof (Permutation_length (accounted ids tasks Ht Hi Hsub)) as E.
  rewrite length_app, !length_fmap in E. lia.
Qed.

End ResumeFacts.

(** *** Writes that go through, and writes that do not *)

Lemma writes_app l l' : writes (l ++ l') = writes l ++ writes l'.
Proof. apply omap_app. Qed.

Section WriteFacts.
Context {lib : PyLib} {tpl : Prompts}.

Lemma get_latest_log folder modelname taskname s r s' :
  get_latest_jsonl_file folder modelname taskname s = (r, s') ->
  exists pattern, log s' = log s ++ [Glob pattern].
Proof.
  unfold get_latest_jsonl_file, glob, bind, ret, emit. cbn.
  destruct (_ <$> filter _ (files s)); intros [= <- <-]; eexists; reflexivity.
Qed.

Lemma readlines_log path s r s' :
  readlines path s = (r, s') -> log s' = log s ++ [ReadLines path].
Proof.
  unfold readlines, bind, emit. cbn.
  destruct (lookup_file _ _); intros [= <- <-]; reflexivity.
Qed.

(** The first record that cannot be encoded ends the collecting: nothing is
    submitted any more, and no result is written. *)
Lemma collect_unwritable model judgemodel jsonl_file (done : list DISCOX) :
  forall results s,
  Exists (fun task => encodable (json_dumps (record_of s model judgemodel task) ++ NL) = false)
    done ->
  exists s' es,
    collect model judgemodel jsonl_file done results s = (Raise UnicodeEncodeError, s')
    /\ extends s s' es /\ submitted es = [] /\ writes es = [].
Proof.
  induction done as [|t done IH]; intros results s Hex; [inversion Hex|].
  cbn [collect]. unfold bind. rewrite (proj1 (outcome_record s model judgemodel t)).
  destruct (encodable (json_dumps (record_of s model judgemodel t) ++ NL)) eqn:E.
  - destruct (append_file_ok jsonl_file _ s E) as (s1 & -> & X1 & _).
    assert (Hw : worker s1 = worker s) by (destruct X1 as (_ & _ & W & _); exact W).
    destruct (IH (results ++ [record_of s model judgemodel t]) s1)
      as (s' & es & -> & X & Hs & Hwr).
    { rewrite (record_of_worker _ _ _ _ Hw).
      apply Exists_cons in Hex as [Hex|Hex]; [congruence|exact Hex]. }
    exists s', (Append jsonl_file (json_dumps (record_of s model judgemodel t) ++ NL) :: es).
    split; [reflexivity|]. split; [exact (extends_trans s s1 s' [_] es X1 X)|].
    split; assumption.
  - unfold append_file. rewrite E. eexists _, [_]. split; [reflexivity|].
    split; [unfold extends; cbn; repeat split|split; reflexivity].
Qed.

(** Writing the result: what reaches the file, and whether the call
    returns. *)
Lemma write_file_spec path pieces s :
  exists s',
    write_file path pieces s
    = (if (written pieces).2 then OK tt else Raise UnicodeEncodeError, s')
    /\ extends s s' [WriteFile path (written pieces).1]
    /\ files s' = put (normpath path) (clock s) (fun _ => (written pieces).1) (files s).
Proof.
  unfold write_file, emit. destruct (written pieces) as [data [|]]; cbn [fst snd];
    (eexists; split; [reflexivity|]; split; [unfold extends; cbn; repeat split|reflexivity]).
Qed.

(** A run whose records can all be appended: it gets as far as the result
    file, and returns if the result can be encoded. *)
Lemma execute_spec model judgemodel concurrency tasks results jsonl_file final_file s :
  0 < concurrency ->
  Forall score_ok results ->
  Forall (fun r => encodable (json_dumps r ++ NL) = true)
    (record_of s model judgemodel <$> as_completed s tasks) ->
  (forall valid, Forall percent valid -> exists acc, mean_percent valid = OK acc) ->
  exists acc s',
    let all := results ++ (record_of s model judgemodel <$> as_completed s tasks) in
    let pieces := json_dump_indent (result_document acc model all) in
    execute model judgemodel concurrency tasks results jsonl_file final_file s
    = (if (written pieces).2 then OK (all, acc) else Raise UnicodeEncodeError, s')
    /\ text <$> lookup_file (normpath final_file) (files s') = Some (written pieces).1.
Proof.
  intros Hc Hres Henc Hmean. unfold execute, bind, lift, ret, raise.
  replace (concurrency <=? 0) with false by (symmetry; apply Z.leb_gt; assumption).
  destruct (for_list_submit tasks s) as (us & s1 & -> & X1 & _).
  assert (Hw : worker s1 = worker s) by (destruct X1 as (_ & _ & W & _); exact W).
  assert (Ha : as_completed s1 = as_completed s)
    by (destruct X1 as (_ & _ & _ & A & _); exact A).
  rewrite Ha.
  destruct (collect_spec model judgemodel jsonl_file (as_completed s tasks) results s1)
    as (s2 & es & -> & X2 & _).
  { rewrite (record_of_worker _ _ _ _ Hw). apply Forall_fmap in Henc. exact Henc. }
  rewrite (record_of_worker _ _ _ _ Hw).
  set (all := results ++ (record_of s model judgemodel <$> as_completed s tasks)).
  assert (Hok : Forall score_ok all).
  { apply Forall_app. split; [exact Hres|].
    apply Forall_fmap, Forall_forall. intros t _. apply outcome_record. }
  destruct (scores_ok all Hok) as (valid & -> & Hv).
  assert (Hacc : exists acc, match valid with
                             | [] => OK (JFloat zero)
                             | _ => mean_percent valid
                             end = OK acc).
  { destruct valid; [eexists; reflexivity|apply Hmean; assumption]. }
  destruct Hacc as (acc & ->).
  destruct (write_file_spec final_file
              (json_dump_indent (JObj [ (u "average_accuracy", acc);
                                        (u "model", JStr model);
                                        (u "detailed_results", JArr all) ])) s2)
    as (s3 & -> & _ & F3).
  exists acc, s3. cbv zeta. unfold result_document. split.
  - destruct (written _) as [data [|]]; reflexivity.
  - rewrite F3, lookup_put. reflexivity.
Qed.

(** A run with a record that cannot be appended raises at the append, and
    writes no result file. *)
Lemma execute_unwritable model judgemodel concurrency tasks results jsonl_file final_file s :
  0 < concurrency ->
  Exists (fun r => encodable (json_dumps r ++ NL) = false)
    (record_of s model judgemodel <$> as_completed s tasks) ->
  exists s' es,
    execute model judgemodel concurrency tasks results jsonl_file final_file s
    = (Raise UnicodeEncodeError, s')
    /\ log s' = log s ++ es /\ writes es = [].
Proof.
  intros Hc Hex. unfold execute, bind, lift, ret, raise.
  replace (concurrency <=? 0) with false by (symmetry; apply Z.leb_gt; assumption).
  destruct (for_list_submit tasks s) as (us & s1 & -> & X1 & _).
  assert (Hw : worker s1 = worker s) by (destruct X1 as (_ & _ & W & _); exact W).
  assert (Ha : as_completed s1 = as_completed s)
    by (destruct X1 as (_ & _ & _ & A & _); exact A).
  rewrite Ha.
  destruct (collect_unwritable model judgemodel jsonl_file (as_completed s tasks) results s1)
    as (s2 & es & -> & X2 & _ & Hwr).
  { rewrite (record_of_worker _ _ _ _ Hw). apply Exists_fmap in Hex. exact Hex. }
  exists s2, ((Submit <$> tasks) ++ es). split; [reflexivity|]. split.
  - destruct (extends_trans _ _ _ _ _ X1 X2) as (_ & _ & _ & _ & ->). reflexivity.
  - rewrite writes_app, Hwr, app_nil_r. clear.
    induction tasks as [|t l IH]; [reflexivity|exact IH].
Qed.

End WriteFacts.

Section Resume.
Context {lib : PyLib} {tpl : Prompts}.

(** C2, as the code has it.  With M tasks of distinct identifiers and a
    latest checkpoint that holds run records for N < M of them, the resumed
    run submits the M - N other tasks and only them, and starts from the N
    records read; these and one record for each submitted task are M
    records, every task accounted for once.  If each new record can be
    encoded as UTF-8 they are all appended to the checkpoint, and the result
    is written: the run returns the M records and the file holds the whole
    result when the result can be encoded too, and it raises a
    [UnicodeEncodeError], with the file cut short, when it cannot.  If a new
    record cannot be encoded - it holds a lone surrogate - the run raises a
    [UnicodeEncodeError] when it appends that record, and writes no
    result. *)
Theorem resume_runs_the_rest (tasks : list DISCOX) (model judgemodel : pystr)
    (concurrency : Z) (s s1 s2 : sys) (path : pystr) (lines : list pystr)
    (recs : list json) (ids : list Z) :
  0 < concurrency ->
  NoDup (prompt_id <$> tasks) ->
  get_latest_jsonl_file (u "./results") (replace (u "/") (u "-") model) (u "DISCOX") s
    = (OK (Some path), s1) ->
  readlines path s1 = (OK lines, s2) ->
  Forall2 (fun line r => json_loads line = OK r) lines recs ->
  Forall2 checkpoint_record recs ids ->
  NoDup ids -> ids ⊆ prompt_id <$> tasks ->
  (length ids < length tasks)%nat ->
  (forall l, as_completed s l ≡ₚ l) ->
  (forall valid, Forall percent valid -> exists acc, mean_percent valid = OK acc) ->
  let todo := remaining ids tasks in
  let new := record_of s model judgemodel <$> as_completed s todo in
  let results := recs ++ new in
  let final_file := replace (u "partial.jsonl") (u "result.json") path in
  submitted (log (run_all_sync tasks model judgemodel concurrency s).2)
    = submitted (log s) ++ todo
  /\ length todo = (length tasks - length ids)%nat
  /\ length results = length tasks
  /\ ids ++ (prompt_id <$> as_completed s todo) ≡ₚ prompt_id <$> tasks
  /\ (Forall (fun r => encodable (json_dumps r ++ NL) = true) new ->
      exists acc s',
        let pieces := json_dump_indent (result_document acc model results) in
        run_all_sync tasks model judgemodel concurrency s
        = (if (written pieces).2 then OK (results, acc) else Raise UnicodeEncodeError, s')
        /\ text <$> lookup_file (normpath final_file) (files s') = Some (written pieces).1
        /\ (Forall (fun piece => encodable piece = true) pieces ->
            written pieces = (concat pieces, true)))
  /\ (Exists (fun r => encodable (json_dumps r ++ NL) = false) new ->
      exists s' es,
        run_all_sync tasks model judgemodel concurrency s = (Raise UnicodeEncodeError, s')
        /\ log s' = log s ++ es /\ writes es = []).
Proof.
  intros Hc Hnd Hlatest Hread Hparse Hrecs Hids Hsub Hlt Hperm Hmean
    todo new results final_file.
  destruct (get_latest_extends _ _ _ _ _ _ Hlatest) as (es1 & X1 & S1 & _).
  destruct (readlines_extends _ _ _ _ Hread) as (es2 & X2 & S2 & _).
  pose proof (extends_trans _ _ _ _ _ X1 X2) as X12.
  destruct (emit_extends (MakeDirs (u "results")) s2) as (s3 & E3 & X3 & _).
  pose proof (extends_trans _ _ _ _ _ X12 X3) as X13.
  assert (Hw3 : worker s3 = worker s) by apply X13.
  assert (Ha3 : as_completed s3 = as_completed s) by apply X13.
  assert (Hlog3 : log s3 = log s ++ (es1 ++ es2) ++ [MakeDirs (u "results")]) by apply X13.
  assert (Hrun : run_all_sync tasks model judgemodel concurrency s
                 = execute model judgemodel concurrency todo recs path final_file s3).
  { destruct tasks as [|t tasks']; [cbn in Hlt; lia|].
    unfold run_all_sync, resume, bind, lift, ret.
    rewrite Hlatest, Hread, (already_run_ids _ _ _ Hparse Hrecs).
    rewrite length_fmap.
    replace (length ids <? length (t :: tasks'))%nat with true
      by (symmetry; apply Nat.ltb_lt; assumption).
    rewrite (load_all_recs _ _ Hparse).
    rewrite (list_filter_iff _ (fun task => prompt_id task ∉ ids))
      by (intros task; apply not_run_ids).
    fold (remaining ids (t :: tasks')). fold todo.
    rewrite E3. unfold output_files. reflexivity. }
  assert (Hrecs_ok : Forall score_ok recs).
  { clear -Hrecs. induction Hrecs as [|r id ? ? (kv & -> & _ & Hr)]; constructor;
      assumption. }
  pose proof (Forall2_length _ _ _ Hrecs) as Lrecs.
  pose proof (remaining_length ids tasks Hnd Hids Hsub) as Lrem.
  split; [|split; [|split; [|split; [|split]]]].
  - rewrite Hrun, (execute_submits _ _ _ _ _ _ _ _ Hc), Hlog3.
    rewrite !submitted_app, S1, S2. cbn [submitted omap]. rewrite !app_nil_r.
    reflexivity.
  - exact Lrem.
  - unfold results, new.
    rewrite length_app, length_fmap, (Permutation_length (Hperm todo)).
    unfold todo. lia.
  - rewrite (Hperm todo). apply accounted; assumption.
  - intros Henc. rewrite Hrun.
    destruct (execute_spec model judgemodel concurrency todo recs path final_file s3
                Hc Hrecs_ok) as (acc & s' & E & Ht).
    { rewrite (record_of_worker _ _ _ _ Hw3), Ha3. exact Henc. }
    { exact Hmean. }
    cbv zeta in E, Ht. rewrite (record_of_worker _ _ _ _ Hw3), Ha3 in E, Ht.
    exists acc, s'. cbv zeta. split; [exact E|]. split; [exact Ht|apply written_all].
  - intros Hex. rewrite Hrun.
    destruct (execute_unwritable model judgemodel concurrency todo recs path final_file s3
                Hc) as (s' & es & E & L & Hwr).
    { rewrite (record_of_worker _ _ _ _ Hw3), Ha3. exact Hex. }
    exists s', (((es1 ++ es2) ++ [MakeDirs (u "results")]) ++ es).
    split; [exact E|]. split.
    + rewrite L, Hlog3, <- app_assoc. reflexivity.
    + rewrite !writes_app, Hwr, app_nil_r. cbn [writes omap]. rewrite app_nil_r.
      destruct (get_latest_log _ _ _ _ _ _ Hlatest) as [pattern L1].
      pose proof (readlines_log _ _ _ _ Hread) as L2.
      destruct X1 as (_ & _ & _ & _ & L1'). destruct X2 as (_ & _ & _ & _ & L2').
      rewrite L1' in L1. apply app_inv_head in L1 as ->.
      rewrite L2' in L2. apply app_inv_head in L2 as ->. reflexivity.
Qed.

End Resume.

(** *** The runner on examples *)

(** Decide a closed proposition by evaluation. *)
Ltac by_compute :=
  match goal with
  | |- ?P => apply (@bool_decide_unpack P _); vm_compute; exact I
  end.

Lemma resume_runs_the_rest_witness :
  exists acc s',
    run_all_sync (lib := Demo.pylib) (tpl := Demo.prompts) Demo.two_tasks (u "model") (u "judge") 24 Demo.start
    = (OK ([Demo.stored;
            record_of (lib := Demo.pylib) (tpl := Demo.prompts) Demo.start (u "model") (u "judge")
              (Demo.task 2)], acc), s')
    /\ text <$> lookup_file (u "results/2025-01-01 00-00-00-model-DISCOXresult.json") (files s')
       = Some (u "{}")
    /\ submitted (log (run_all_sync (lib := Demo.pylib) (tpl := Demo.prompts) Demo.two_tasks
                         (u "model") (u "judge") 24 Demo.start).2)
       = [Demo.task 2].
Proof.
  pose (s1 := (get_latest_jsonl_file (lib := Demo.pylib) (u "./results")
                 (replace (u "/") (u "-") (u "model")) (u "DISCOX") Demo.start).2).
  pose (path := u "./results/2025-01-01 00-00-00-model-DISCOXpartial.jsonl").
  pose (s2 := (readlines path s1).2).
  destruct (resume_runs_the_rest (lib := Demo.pylib) (tpl := Demo.prompts)
              Demo.two_tasks (u "model") (u "judge") 24 Demo.start s1 s2 path
              [u "{task 1}" ++ NL] [Demo.stored] [1])
    as (Hs & _ & _ & _ & Hok & _).
  - lia.
  - by_compute.
  - vm_compute. reflexivity.
  - vm_compute. reflexivity.
  - repeat constructor. 
  - repeat constructor. exists [ (u "prompt_id", JInt 1); (u "score", JInt 100) ].
    split; [reflexivity|]. split; [reflexivity|].
    eexists. split; [reflexivity|]. exists 100. split; [vm_compute; reflexivity| lia].
  - by_compute.
  - by_compute.
  - cbn. lia.
  - intros l. symmetry. apply Permutation_rev.
  - intros valid _. eexists. reflexivity.
  - destruct Hok as (acc & s' & E & Ht & _).
    + repeat constructor.
    + exists acc, s'. split; [exact E|]. split; [exact Ht|exact Hs].
Defined.

(** C2 as stated fails when an answer cannot be written.  The checkpoint
    holds the record of task 1 of two tasks; the candidate answers task 2
    with the single code point U+D800, which [json.dumps] passes on; the
    append of the record raises a [UnicodeEncodeError], the run ends with
    it, and no result file exists. *)
Lemma surrogate_stops_resume :
  already_run (lib := Surrogate.pylib) [u "{task 1}" ++ NL] = OK [JInt 1]
  /\ (run_task (lib := Surrogate.pylib) (tpl := Demo.prompts) (Demo.task 2) (u "model")
        (u "judge") (worker Surrogate.start (Demo.task 2))).1
     = OK (run_record (Demo.task 2) (Some [55296%N]) (0, 0, 0) 0
             (JObj [(u "instruction_following", JStr (u "是否存在问题：是"))]))
  /\ (run_all_sync (lib := Surrogate.pylib) (tpl := Demo.prompts) Demo.two_tasks (u "model")
        (u "judge") 24 Surrogate.start).1 = Raise UnicodeEncodeError
  /\ submitted (log (run_all_sync (lib := Surrogate.pylib) (tpl := Demo.prompts)
                       Demo.two_tasks (u "model") (u "judge") 24 Surrogate.start).2)
     = [Demo.task 2]
  /\ name <$> files (run_all_sync (lib := Surrogate.pylib) (tpl := Demo.prompts)
                       Demo.two_tasks (u "model") (u "judge") 24 Surrogate.start).2
     = [ u "results/2025-01-01 00-00-00-model-DISCOXpartial.jsonl" ]
  /\ text <$> files (run_all_sync (lib := Surrogate.pylib) (tpl := Demo.prompts)
                       Demo.two_tasks (u "model") (u "judge") 24 Surrogate.start).2
     = [ u "{task 1}" ++ NL ].
Proof. vm_compute. repeat split; reflexivity. Qed.

(** The same directory when the checkpoint holds task 1 and only task 1 is
    to be run. *)
Lemma completed_checkpoint_starts_fresh_witness :
  (run_all_sync (lib := Demo.pylib) (tpl := Demo.prompts) [Demo.task 1] (u "model") (u "judge")
     24 Demo.start).1
  = OK ([record_of (lib := Demo.pylib) (tpl := Demo.prompts) Demo.start (u "model") (u "judge")
           (Demo.task 1)], JFloat zero)
  /\ submitted (log (run_all_sync (lib := Demo.pylib) (tpl := Demo.prompts) [Demo.task 1]
                       (u "model") (u "judge") 24 Demo.start).2)
     = [Demo.task 1]
  /\ name <$> files (run_all_sync (lib := Demo.pylib) (tpl := Demo.prompts) [Demo.task 1]
                       (u "model") (u "judge") 24 Demo.start).2
     = [ u "results/2025-01-01 00-00-00-model-DISCOXpartial.jsonl";
         u "results/2025-01-02 00-00-00-model-DISCOXpartial.jsonl";
         u "results/2025-01-02 00-00-00-model-DISCOXresult.json" ].
Proof.
  pose (s1 := (get_latest_jsonl_file (lib := Demo.pylib) (u "./results")
                 (replace (u "/") (u "-") (u "model")) (u "DISCOX") Demo.start).2).
  pose (path := u "./results/2025-01-01 00-00-00-model-DISCOXpartial.jsonl").
  pose (s2 := (readlines path s1).2).
  rewrite (proj1 (completed_checkpoint_starts_fresh
             (lib := Demo.pylib) (tpl := Demo.prompts)
             [Demo.task 1] (u "model") (u "judge") 24 Demo.start s1 s2 path
             [u "{task 1}" ++ NL] [JInt 1]
             ltac:(discriminate) ltac:(by_compute) ltac:(vm_compute; reflexivity)
             ltac:(vm_compute; reflexivity) ltac:(vm_compute; reflexivity)
             ltac:(intros task ->%list_elem_of_singleton; vm_compute; reflexivity))).
  vm_compute. repeat split; reflexivity.
Defined.
(** * Further properties *)

(** ** The score calculator on items of any shape *)

Section ItemFacts.
Variables (key : pystr) (mapping : gmap pystr Z) (dflt : Z).

(** One pass of a loop adds the penalty of the item, or raises a
    [TypeError]; which of the two does not depend on the score so far. *)
Lemma step_item score item :
  step key mapping dflt score item
  = match item_penalty key mapping dflt item with
    | Some d => OK (score + d)
    | None => Raise TypeError
    end.
Proof.
  unfold step, item_penalty. destruct item as [| | | |s|l|kv]; cbn [py_contains rbind];
    try reflexivity.
  - destruct (is_substring key s); reflexivity.
  - destruct (existsb (eq_str key) l); reflexivity.
  - destruct (assoc key kv) as [v|] eqn:E.
    + rewrite bool_decide_eq_true_2 by (eexists; reflexivity).
      cbn [py_getitem]. rewrite E. cbn [rbind].
      destruct v; cbn [py_dict_get rbind]; try reflexivity.
      destruct (mapping !! s); reflexivity.
    + rewrite bool_decide_eq_false_2 by (intros [? [=]]). reflexivity.
Qed.

Lemma loop_app l : forall l' score,
  loop key mapping dflt score (l ++ l')
  = rbind (loop key mapping dflt score l) (fun score' => loop key mapping dflt score' l').
Proof.
  induction l as [|x l IH]; intros l' score; cbn [loop app]; [reflexivity|].
  destruct (step key mapping dflt score x) as [sc|e]; cbn [rbind]; [apply IH|reflexivity].
Qed.

(** A loop started higher ends higher by as much. *)
Lemma loop_shift l : forall score d,
  loop key mapping dflt (score + d) l
  = match loop key mapping dflt score l with
    | OK r => OK (r + d)
    | Raise e => Raise e
    end.
Proof.
  induction l as [|x l IH]; intros score d; cbn [loop]; [reflexivity|].
  rewrite !step_item. destruct (item_penalty key mapping dflt x) as [dx|]; cbn [rbind];
    [|reflexivity].
  replace (score + d + dx) with (score + dx + d) by lia. apply IH.
Qed.

Lemma loop_raise l : forall score e,
  loop key mapping dflt score l = Raise e -> e = TypeError.
Proof.
  induction l as [|x l IH]; intros score e; cbn [loop]; [discriminate|].
  rewrite step_item. destruct (item_penalty key mapping dflt x) as [dx|]; cbn [rbind].
  - apply IH.
  - congruence.
Qed.

Lemma loop_perm l l' :
  l ≡ₚ l' -> forall score, loop key mapping dflt score l = loop key mapping dflt score l'.
Proof.
  induction 1 as [|x l l' _ IH|x y l|l l' l'' _ IH1 _ IH2]; intros score.
  - reflexivity.
  - cbn [loop]. destruct (step key mapping dflt score x); cbn [rbind]; [apply IH|reflexivity].
  - cbn [loop]. rewrite !step_item.
    destruct (item_penalty key mapping dflt x) as [dx|] eqn:Ex,
             (item_penalty key mapping dflt y) as [dy|] eqn:Ey; cbn [rbind];
      rewrite ?step_item, ?Ex, ?Ey; cbn [rbind]; try reflexivity.
    f_equal. lia.
  - rewrite IH1. apply IH2.
Qed.

Lemma for_each_raise score v e :
  for_each key mapping dflt score v = Raise e -> e = TypeError.
Proof.
  unfold for_each. destruct v; cbn [py_iter rbind]; try congruence; apply loop_raise.
Qed.

Lemma for_each_not_iterable score v :
  not_iterable v -> for_each key mapping dflt score v = Raise TypeError.
Proof. destruct v; cbn; tauto. Qed.

End ItemFacts.

(** X1.  The scores do not depend on the order in which the judges list
    their findings: with the items of each of the four lists rearranged,
    whatever the items are, [calculate_score] returns the same scores, or
    raises as before. *)
Theorem calculate_score_order
    (acc acc' ckpt ckpt' flu flu' appropiate appropiate' : list json) :
  acc ≡ₚ acc' -> ckpt ≡ₚ ckpt' -> flu ≡ₚ flu' -> appropiate ≡ₚ appropiate' ->
  calculate_score (JArr acc) (JArr ckpt) (JArr flu) (JArr appropiate)
  = calculate_score (JArr acc') (JArr ckpt') (JArr flu') (JArr appropiate').
Proof.
  intros Ha Hc Hf Hp. unfold calculate_score, for_each. cbn [py_iter rbind].
  rewrite (loop_perm _ _ _ _ _ Ha).
  destruct (loop SEVERITY ACCURACY_MAPPING (-5) 60 acc') as [a1|]; cbn [rbind]; [|reflexivity].
  rewrite (loop_perm _ _ _ _ _ Hc).
  destruct (loop VERDICT CORRECTNESS_MAPPING 0 a1 ckpt') as [a2|]; cbn [rbind]; [|reflexivity].
  rewrite (loop_perm _ _ _ _ _ Hf).
  destruct (loop SEVERITY FLUENCY_MAPPING 0 20 flu') as [f1|]; cbn [rbind]; [|reflexivity].
  rewrite (loop_perm _ _ _ _ _ Hp). reflexivity.
Qed.

Lemma calculate_score_order_witness :
  calculate_score (JArr [JObj Demo.extremely_severe; JObj []]) (JArr [])
    (JArr [JObj Demo.has_issue; JObj Demo.no_issue]) (JArr [])
  = calculate_score (JArr [JObj []; JObj Demo.extremely_severe]) (JArr [])
      (JArr [JObj Demo.no_issue; JObj Demo.has_issue]) (JArr [])
  /\ calculate_score (JArr [JObj []; JObj Demo.extremely_severe]) (JArr [])
       (JArr [JObj Demo.no_issue; JObj Demo.has_issue]) (JArr [])
     = OK (5, 18, 20).
Proof.
  split; [|vm_compute; reflexivity].
  apply calculate_score_order; first [apply perm_swap | reflexivity].
Defined.

(** X2.  [TypeError] is the only exception [calculate_score] raises, and it
    raises it whenever one of its four arguments is [None], a boolean or a
    number, as a judge may answer. *)
Theorem calculate_score_type_error (acc ckpt flu appropiate : json) :
  (forall e, calculate_score acc ckpt flu appropiate = Raise e -> e = TypeError)
  /\ (not_iterable acc \/ not_iterable ckpt \/ not_iterable flu \/ not_iterable appropiate ->
      calculate_score acc ckpt flu appropiate = Raise TypeError).
Proof.
  unfold calculate_score.
  destruct (for_each SEVERITY ACCURACY_MAPPING (-5) 60 acc) as [a1|e1] eqn:E1; cbn [rbind];
    [|apply for_each_raise in E1 as ->; split; [congruence|reflexivity]].
  destruct (for_each VERDICT CORRECTNESS_MAPPING 0 a1 ckpt) as [a2|e2] eqn:E2; cbn [rbind];
    [|apply for_each_raise in E2 as ->; split; [congruence|reflexivity]].
  destruct (for_each SEVERITY FLUENCY_MAPPING 0 20 flu) as [f1|e3] eqn:E3; cbn [rbind];
    [|apply for_each_raise in E3 as ->; split; [congruence|reflexivity]].
  destruct (for_each SEVERITY APPROPIATE_MAPPING 0 20 appropiate) as [p1|e4] eqn:E4;
    cbn [rbind];
    [|apply for_each_raise in E4 as ->; split; [congruence|reflexivity]].
  split; [discriminate|].
  intros [H|[H|[H|H]]].
  - rewrite (for_each_not_iterable _ _ _ _ _ H) in E1. discriminate.
  - rewrite (for_each_not_iterable _ _ _ _ _ H) in E2. discriminate.
  - rewrite (for_each_not_iterable _ _ _ _ _ H) in E3. discriminate.
  - rewrite (for_each_not_iterable _ _ _ _ _ H) in E4. discriminate.
Qed.

Lemma calculate_score_type_error_witness :
  calculate_score (JArr []) (JArr []) JNull (JArr []) = Raise TypeError.
Proof.
  apply (proj2 (calculate_score_type_error (JArr []) (JArr []) JNull (JArr []))).
  right. right. left. exact I.
Defined.

(** X3.  Further accuracy findings and further checkpoint findings, of
    whatever shape, never raise the accuracy score, and they leave the
    fluency and the appropriateness scores as they were. *)
Theorem calculate_score_more_issues (acc acc' ckpt ckpt' : list json)
    (flu appropiate : json) (a f p a' f' p' : Z) :
  calculate_score (JArr acc) (JArr ckpt) flu appropiate = OK (a, f, p) ->
  calculate_score (JArr (acc ++ acc')) (JArr (ckpt ++ ckpt')) flu appropiate
    = OK (a', f', p') ->
  a' <= a /\ f' = f /\ p' = p.
Proof.
  unfold calculate_score. unfold for_each at 1 2 5 6. cbn [py_iter rbind].
  destruct (loop SEVERITY ACCURACY_MAPPING (-5) 60 acc) as [a1|] eqn:E1; cbn [rbind];
    [|discriminate].
  destruct (loop VERDICT CORRECTNESS_MAPPING 0 a1 ckpt) as [a2|] eqn:E2; cbn [rbind];
    [|discriminate].
  destruct (for_each SEVERITY FLUENCY_MAPPING 0 20 flu) as [f1|]; cbn [rbind];
    [|discriminate].
  destruct (for_each SEVERITY APPROPIATE_MAPPING 0 20 appropiate) as [p1|]; cbn [rbind];
    [|discriminate].
  intros [= <- <- <-].
  rewrite loop_app, E1. cbn [rbind].
  destruct (loop SEVERITY ACCURACY_MAPPING (-5) a1 acc') as [b1|] eqn:F1; cbn [rbind];
    [|discriminate].
  rewrite loop_app. replace b1 with (a1 + (b1 - a1)) at 1 by lia.
  rewrite loop_shift, E2. cbn [rbind].
  destruct (loop VERDICT CORRECTNESS_MAPPING 0 (a2 + (b1 - a1)) ckpt') as [b2|] eqn:F2;
    cbn [rbind]; [|discriminate].
  intros [= <- <- <-].
  apply loop_le in F1; [|apply accuracy_nonpos|lia].
  apply loop_le in F2; [|apply correctness_nonpos|lia].
  lia.
Qed.

Lemma calculate_score_more_issues_witness :
  calculate_score (JArr [JObj Demo.extremely_severe]) (JArr []) (JArr [JObj Demo.has_issue])
    (JArr []) = OK (10, 18, 20)
  /\ calculate_score (JArr ([JObj Demo.extremely_severe] ++ [JStr (u "unreadable")]))
       (JArr ([] ++ [JObj [(VERDICT, JStr (u "错误"))]])) (JArr [JObj Demo.has_issue])
       (JArr []) = OK (0, 18, 20)
  /\ 0 <= 10 /\ 18 = 18 /\ 20 = 20.
Proof.
  split; [vm_compute; reflexivity|]. split; [vm_compute; reflexivity|].
  apply (calculate_score_more_issues [JObj Demo.extremely_severe] [JStr (u "unreadable")]
           [] [JObj [(VERDICT, JStr (u "错误"))]] (JArr [JObj Demo.has_issue]) (JArr []));
    vm_compute; reflexivity.
Defined.

(** ** The extractor applied to its own result *)

Lemma startswith_prefix (p x rest : pystr) :
  startswith p x = true -> startswith p (x ++ rest) = true.
Proof.
  revert x. induction p as [|a p IH]; intros [|b x]; cbn [startswith app]; try done.
  intros [-> H]%andb_prop. rewrite (IH _ H). reflexivity.
Qed.

(** The text before the first fence is a prefix of the text and holds no
    fence. *)
Lemma until_fence_prefix s : forall x,
  until_fence s = Some x ->
  (exists rest, s = x ++ rest) /\ until_fence x = None.
Proof.
  induction s as [|c s IH]; intros x; cbn [until_fence].
  - destruct (startswith FENCE []) eqn:E; [discriminate E|discriminate].
  - destruct (startswith FENCE (c :: s)) eqn:E.
    + intros [= <-]. split; [exists (c :: s); reflexivity|reflexivity].
    + destruct (until_fence s) as [x'|] eqn:U; [|discriminate].
      intros [= <-]. destruct (IH x' eq_refl) as [[rest ->] Hx]. split.
      * exists rest. reflexivity.
      * cbn [until_fence]. rewrite Hx.
        destruct (startswith FENCE (c :: x')) eqn:E'; [|reflexivity].
        apply (startswith_prefix _ _ rest) in E'. cbn [app] in E'. congruence.
Qed.

Lemma until_fence_front (y b : pystr) :
  until_fence (y ++ b) = None -> until_fence y = None.
Proof.
  induction y as [|c y IH]; cbn [until_fence app]; [reflexivity|].
  destruct (startswith FENCE (c :: y)) eqn:E.
  - apply (startswith_prefix _ _ b) in E. cbn [app] in E. rewrite E. discriminate.
  - destruct (startswith FENCE (c :: y ++ b)); [discriminate|].
    destruct (until_fence (y ++ b)); [discriminate|].
    intros _. rewrite IH; reflexivity.
Qed.

Lemma until_fence_strip x : until_fence x = None -> until_fence (strip x) = None.
Proof.
  intros H. destruct (strip_split x) as (a & b & E & _ & _).
  rewrite E in H. apply (until_fence_drop (length a)) in H.
  rewrite drop_app_length in H. apply until_fence_front in H. exact H.
Qed.

(** A text without a fence is returned as it is. *)
Lemma extract_json_string_plain y : until_fence y = None -> extract_json_string y = y.
Proof.
  intros H. unfold extract_json_string. rewrite search_fence.
  rewrite until_fence_find in H. destruct (find FENCE y); [discriminate|reflexivity].
Qed.

(** The two ways the extractor can go. *)
Lemma extract_json_string_cases text :
  extract_json_string text = text
  \/ exists pre x rest, text = pre ++ x ++ rest
       /\ until_fence x = None /\ extract_json_string text = strip x.
Proof.
  unfold extract_json_string. rewrite search_fence.
  destruct (find FENCE text) as [i|]; [|left; reflexivity].
  destruct (until_fence (untagged (drop (i + length FENCE) text))) as [x|] eqn:U;
    cbn [fmap option_fmap option_map]; [|left; reflexivity].
  right. destruct (until_fence_prefix _ _ U) as [[rest E] Hx].
  unfold untagged in E.
  destruct (startswith TAG (drop (i + length FENCE) text)).
  - exists (take (length TAG + (i + length FENCE)) text), x, rest.
    split; [|split; [exact Hx|apply strip_idem]].
    rewrite drop_drop in E. rewrite <- E.
    rewrite (Nat.add_comm (length TAG)). symmetry. apply take_drop.
  - exists (take (i + length FENCE) text), x, rest.
    split; [|split; [exact Hx|apply strip_idem]].
    rewrite <- E. symmetry. apply take_drop.
Qed.

(** X4.  Extracting twice is extracting once: what the extractor returns
    holds no fenced block any more. *)
Theorem extract_json_string_idempotent (text : pystr) :
  extract_json_string (extract_json_string text) = extract_json_string text.
Proof.
  destruct (extract_json_string_cases text) as [E|(pre & x & rest & _ & Hx & E)].
  - rewrite !E. reflexivity.
  - rewrite E. apply extract_json_string_plain, until_fence_strip, Hx.
Qed.

(** X5.  The extractor returns a contiguous part of its input: it never
    returns a character the text does not hold at that place. *)
Theorem extract_json_string_part (text : pystr) :
  exists a b, text = a ++ extract_json_string text ++ b.
Proof.
  destruct (extract_json_string_cases text) as [E|(pre & x & rest & Ht & _ & E)].
  - exists [], []. rewrite E, app_nil_r. reflexivity.
  - destruct (strip_split x) as (a & b & Ex & _ & _).
    exists (pre ++ a), (b ++ rest). rewrite E.
    rewrite Ht at 1. rewrite Ex at 1. rewrite <- !app_assoc. reflexivity.
Qed.

(** ** The requests of a task *)

Lemma sends_refl w : sends w w [].
Proof. unfold sends. rewrite app_nil_r. repeat split. Qed.

Section Within.
Variables (env : pystr -> option pystr) (P : request -> Prop).

Lemma within_ret {A} (a : A) : within env P 0 (ret a).
Proof.
  intros w _. exists []. split; [apply sends_refl|]. split; constructor.
Qed.

Lemma within_raise {A} (e : exn) : within env P 0 (raise (A := A) e).
Proof.
  intros w _. exists []. split; [apply sends_refl|]. split; constructor.
Qed.

Lemma within_lift {A} (r : res A) : within env P 0 (lift r).
Proof.
  intros w _. exists []. split; [apply sends_refl|]. split; constructor.
Qed.

Lemma within_mono {A} (m : M A) n n' :
  (n <= n')%nat -> within env P n m -> within env P n' m.
Proof.
  intros Hn Hm w Hw. destruct (Hm w Hw) as (reqs & S & L & F).
  exists reqs. repeat split; try apply S; [lia|exact F].
Qed.

Lemma within_bind {A B} (m : M A) (f : A -> M B) a b :
  within env P a m -> (forall x, within env P b (f x)) ->
  within env P (a + b) (bind m f).
Proof.
  intros Hm Hf w Hw. destruct (Hm w Hw) as (r1 & (E1 & C1 & S1) & L1 & F1).
  unfold bind. destruct (m w) as [[x|e] w1]; cbn [snd] in *.
  - destruct (Hf x w1) as (r2 & (E2 & C2 & S2) & L2 & F2); [congruence|].
    exists (r1 ++ r2). repeat split; try congruence.
    + rewrite S2, S1, app_assoc. reflexivity.
    + rewrite length_app. lia.
    + apply Forall_app; split; assumption.
  - exists r1. repeat split; try assumption. lia.
Qed.

Lemma within_catch {A} (m : M A) (h : exn -> M A) a b :
  within env P a m -> (forall e, within env P b (h e)) ->
  within env P (a + b) (catch m h).
Proof.
  intros Hm Hh w Hw. destruct (Hm w Hw) as (r1 & (E1 & C1 & S1) & L1 & F1).
  unfold catch. destruct (m w) as [[x|e] w1]; cbn [snd] in *.
  - exists r1. repeat split; try assumption. lia.
  - destruct (Hh e w1) as (r2 & (E2 & C2 & S2) & L2 & F2); [congruence|].
    exists (r1 ++ r2). repeat split; try congruence.
    + rewrite S2, S1, app_assoc. reflexivity.
    + rewrite length_app. lia.
    + apply Forall_app; split; assumption.
Qed.

End Within.

Section Requests.
Context {lib : PyLib} {tpl : Prompts}.
Variable env : pystr -> option pystr.

(** A call in judging mode sends at most one request, a judge request,
    whatever temperature and top-p it was called with. *)
Lemma litellm_generate_judging messages judge_model temperature top_p :
  within env (judge_request env judge_model) 1
    (litellm_generate messages judge_model temperature None true top_p).
Proof.
  intros w Hw. unfold litellm_generate. cbn [negb fst snd].
  destruct (environ w (u "JUDGE_API_BASE")) as [base|] eqn:Eb;
    [destruct (environ w (u "JUDGE_API_KEY")) as [key|] eqn:Ek|].
  - match goal with
    | |- context [send ?r w] => exists [r]
    end.
    subst env.
    destruct (completion w _); cbn [snd send environ completion sent];
      (split; [repeat split|split; [cbn; lia|]]);
      repeat constructor; cbn; assumption.
  - exists []. split; [apply sends_refl|]. split; [cbn; lia|constructor].
  - exists []. split; [apply sends_refl|]. split; [cbn; lia|constructor].
Qed.

Lemma eval_result_by_llm_within sp up judge_model kwargs :
  within env (judge_request env judge_model) 1 (eval_result_by_llm sp up judge_model kwargs).
Proof.
  unfold eval_result_by_llm.
  apply (within_bind _ _ _ _ 0 1); [apply within_lift|]. intros user_prompt.
  apply (within_bind _ _ _ _ 1 0); [apply litellm_generate_judging|].
  intros [text|]; [apply within_ret|apply within_raise].
Qed.

Lemma or_none_within P n (f : M pystr) :
  within env P n f -> within env P n (or_none f).
Proof.
  intros Hf. unfold or_none.
  apply (within_mono _ _ _ (n + 0 + 0)); [lia|].
  apply within_catch; [|intros; apply within_ret].
  apply within_bind; [exact Hf|intros; apply within_ret].
Qed.

Lemma attempts_within P (func : M (option pystr)) n :
  within env P 1 func -> within env P n (attempts func n).
Proof.
  intros Hf. induction n as [|n IH]; cbn [attempts]; [apply within_ret|].
  apply (within_catch _ _ _ _ 1 n); [|intros; exact IH].
  apply (within_bind _ _ _ _ 1 0); [exact Hf|intros; apply within_lift].
Qed.

Lemma safe_json_call_within sp up judge_model kwargs retries :
  within env (judge_request env judge_model) (Z.to_nat retries)
    (safe_json_call (or_none (eval_result_by_llm sp up judge_model kwargs)) retries).
Proof.
  unfold safe_json_call. apply attempts_within, or_none_within, eval_result_by_llm_within.
Qed.

Lemma metrics_within task response judge_model :
  within env (judge_request env judge_model) 26 (metrics task response judge_model).
Proof.
  unfold metrics, judge_accuracy, judge_checkpoint, judge_fluency, judge_appropiate,
    self_critique_judge, final_judge.
  apply (within_bind _ _ _ _ 1 25); [apply eval_result_by_llm_within|]. intros instruct_res.
  destruct (gate_problem instruct_res);
    [apply (within_mono _ _ _ 0); [lia|apply within_ret]|].
  apply (within_bind _ _ _ _ 3 22); [apply (safe_json_call_within _ _ _ _ 3)|]. intros acc_res.
  apply (within_bind _ _ _ _ 3 19); [apply (safe_json_call_within _ _ _ _ 3)|]. intros ckpt_res.
  apply (within_bind _ _ _ _ 3 16); [apply (safe_json_call_within _ _ _ _ 3)|]. intros flu_res.
  apply (within_bind _ _ _ _ 3 13); [apply (safe_json_call_within _ _ _ _ 3)|]. intros app_res.
  apply (within_bind _ _ _ _ 1 12); [apply eval_result_by_llm_within|]. intros adjustment_res.
  apply (within_bind _ _ _ _ 3 9); [apply (safe_json_call_within _ _ _ _ 3)|]. intros r1.
  apply (within_bind _ _ _ _ 3 6); [apply (safe_json_call_within _ _ _ _ 3)|]. intros r2.
  apply (within_bind _ _ _ _ 3 3); [apply (safe_json_call_within _ _ _ _ 3)|]. intros r3.
  apply (within_bind _ _ _ _ 3 0); [apply (safe_json_call_within _ _ _ _ 3)|]. intros r4.
  apply (within_bind _ _ _ _ 0 0); [apply within_lift|]. intros scores.
  apply within_ret.
Qed.

End Requests.

Section TaskRequests.
Context {lib : PyLib} {tpl : Prompts}.

Lemma within_weaken env (P Q : request -> Prop) n {A} (m : M A) :
  (forall req, P req -> Q req) -> within env P n m -> within env Q n m.
Proof.
  intros HPQ Hm w Hw. destruct (Hm w Hw) as (reqs & S & L & F).
  exists reqs. repeat split; try apply S; [exact L|].
  eapply Forall_impl; [exact F|exact HPQ].
Qed.

(** The call for the answer of the candidate sends at most one request. *)
Lemma litellm_generate_candidate env task model :
  within env (candidate_request env task model) 1
    (litellm_generate [ {| role := u "user"; content := prompt task |} ]
       model None (Some 20000) false None).
Proof.
  intros w Hw. unfold litellm_generate. cbn [negb fst snd].
  destruct (environ w (u "CANDIDATE_API_BASE")) as [base|] eqn:Eb;
    [destruct (environ w (u "CANDIDATE_API_KEY")) as [key|] eqn:Ek|].
  - match goal with
    | |- context [send ?r w] => exists [r]
    end.
    subst env.
    destruct (completion w _); cbn [snd send environ completion sent];
      (split; [repeat split|split; [cbn; lia|]]);
      repeat constructor; cbn; assumption.
  - exists []. split; [apply sends_refl|]. split; [cbn; lia|constructor].
  - exists []. split; [apply sends_refl|]. split; [cbn; lia|constructor].
Qed.

Lemma wrapped_run_within env model judgemodel task :
  within env (fun req => candidate_request env task model req
                         \/ judge_request env judgemodel req) 27
    (wrapped_run model judgemodel task).
Proof.
  unfold wrapped_run, run_task.
  apply (within_catch _ _ _ _ 27 0); [|intros; apply within_ret].
  apply (within_bind _ _ _ _ 27 0).
  - apply (within_bind _ _ _ _ 1 26).
    + eapply within_weaken; [|apply litellm_generate_candidate]. intros req H. left. exact H.
    + intros output. apply (within_bind _ _ _ _ 26 0).
      * eapply within_weaken; [|apply metrics_within]. intros req H. right. exact H.
      * intros [[[[a f] p] total] dj]. apply within_ret.
  - intros r. apply (within_bind _ _ _ _ 0 0); [apply within_lift|].
    intros [|]; [apply within_raise|apply within_ret].
Qed.

(** X6.  A structured judge call sends at most as many requests as it has
    attempts - none when [retries] is not positive - and every one of them
    goes to the judge model with the judge's credentials, temperature 0.0
    and top-p 0.7; the environment and the backend stay as they are. *)
Theorem judge_call_requests (sp up judge_model : pystr) (kwargs : list (pystr * json))
    (retries : Z) (w : world) :
  exists reqs,
    sends w (safe_json_call (or_none (eval_result_by_llm sp up judge_model kwargs))
               retries w).2 reqs
    /\ (length reqs <= Z.to_nat retries)%nat
    /\ Forall (judge_request (environ w) judge_model) reqs.
Proof. apply (safe_json_call_within (environ w)). reflexivity. Qed.

(** X7.  Judging one answer costs at most 26 requests: one for the gate,
    three for each of the four dimension judges, one for the self-critique
    and three for each of the four final judges; all of them are judge
    requests. *)
Theorem metrics_requests (task : DISCOX) (response : option pystr)
    (judge_model : pystr) (w : world) :
  exists reqs,
    sends w (metrics task response judge_model w).2 reqs
    /\ (length reqs <= 26)%nat
    /\ Forall (judge_request (environ w) judge_model) reqs.
Proof. apply (metrics_within (environ w)). reflexivity. Qed.

(** X8.  A worker sends at most 27 requests for its task, each of them
    either the request for the candidate's answer, with the candidate's
    credentials, or a judge request, with the judge's. *)
Theorem wrapped_run_requests (model judgemodel : pystr) (task : DISCOX) (w : world) :
  exists reqs,
    sends w (wrapped_run model judgemodel task w).2 reqs
    /\ (length reqs <= 27)%nat
    /\ Forall (fun req => candidate_request (environ w) task model req
                          \/ judge_request (environ w) judgemodel req) reqs.
Proof. apply (wrapped_run_within (environ w)). reflexivity. Qed.

End TaskRequests.

(** ** What [metrics] returns, and when it does not return *)

Section MetricsFacts.
Context {lib : PyLib} {tpl : Prompts}.

Ltac split_step E :=
  match type of E with
  | context [match ?m ?w with _ => _ end] =>
      let r := fresh "r" in let w' := fresh "w" in let Em := fresh "E" in
      destruct (m w) as [[r|?] w'] eqn:Em; [|discriminate E]
  end.

(** X9.  Whenever [metrics] returns, the final score is the sum of the three
    domain scores, and the accuracy score lies between 0 and 60, the fluency
    and the appropriateness scores between 0 and 20. *)
Theorem metrics_scores (task : DISCOX) (response : option pystr) (judge_model : pystr)
    (w w' : world) (a f p total : Z) (detailed_judgement : json) :
  metrics task response judge_model w = (OK ((a, f, p), total, detailed_judgement), w') ->
  total = a + f + p /\ 0 <= a <= 60 /\ 0 <= f <= 20 /\ 0 <= p <= 20.
Proof.
  unfold metrics, bind, ret, lift. cbv zeta. intros E.
  split_step E.
  destruct (gate_problem r); [injection E as <- <- <- <- <- <-; lia|].
  do 9 split_step E.
  match type of E with
  | context [calculate_score ?x ?c ?y ?z] =>
      destruct (calculate_score x c y z) as [[[sa sf] sp]|] eqn:Ec; [|discriminate E]
  end.
  injection E as <- <- <- <- <- <-.
  apply calculate_score_range in Ec. unfold sum3. lia.
Qed.

(** X10.  The worker never raises.  When [run_task] returns, the worker
    hands its record on as it is, with a score between 0 and 100: the check
    for an [error] key in it never fires.  When [run_task] raises, the
    worker returns a record of the exception's text and traceback. *)
Theorem wrapped_run_outcome (model judgemodel : pystr) (task : DISCOX) (w : world) :
  (exists output scores total detailed_judgement w',
     run_task task model judgemodel w
       = (OK (run_record task output scores total detailed_judgement), w')
     /\ wrapped_run model judgemodel task w
       = (OK (run_record task output scores total detailed_judgement), w')
     /\ 0 <= total <= 100)
  \/ (exists e w',
        run_task task model judgemodel w = (Raise e, w')
        /\ wrapped_run model judgemodel task w = (OK (error_record e), w')).
Proof.
  destruct (run_task task model judgemodel w) as [[r|e] w1] eqn:E.
  - left. unfold run_task, bind, ret in E.
    destruct (litellm_generate_total [ {| role := u "user"; content := prompt task |} ]
                model None (Some 20000) false None w) as (o & w0 & El).
    rewrite El in E.
    destruct (metrics task o judgemodel w0) as [[[[[[a f] p] total] dj]|e] w2] eqn:Em;
      [|discriminate E].
    injection E as <- <-.
    exists o, (a, f, p), total, dj, w2. split; [reflexivity|]. split.
    + unfold wrapped_run, catch, bind, run_task, bind, ret. rewrite El, Em.
      vm_compute. reflexivity.
    + eapply metrics_total_range. exact Em.
  - right. exists e, w1. split; [reflexivity|]. apply wrapped_run_raise. exact E.
Qed.

End MetricsFacts.

(** ** Backends that fail, and backends that do not say anything useful *)

Section BackendFacts.
Context {lib : PyLib} {tpl : Prompts}.

Lemma silent_from_send req w : silent_from w -> silent_from (send req w).
Proof.
  intros H r rs. cbn [send completion sent]. rewrite <- app_assoc. apply H.
Qed.

Lemma litellm_generate_silent_from messages model temperature max_tokens mode top_p w :
  silent_from w ->
  exists w', litellm_generate messages model temperature max_tokens mode top_p w
             = (OK None, w') /\ silent_from w'.
Proof.
  intros H. unfold litellm_generate.
  destruct (environ w _); [|eexists; split; [reflexivity|assumption]].
  destruct (environ w _); [|eexists; split; [reflexivity|assumption]].
  match goal with
  | |- context [completion w (sent (send ?r w))] =>
      destruct (H r []) as [E|E]; cbn [send sent]; rewrite E
  end; (eexists; split; [reflexivity|apply silent_from_send, H]).
Qed.

Lemma eval_result_by_llm_silent_from sp up judge_model kwargs w :
  silent_from w ->
  exists e w', eval_result_by_llm sp up judge_model kwargs w = (Raise e, w')
               /\ silent_from w'
               /\ (forall p, str_format up kwargs = OK p -> e = TypeError).
Proof.
  intros H. unfold eval_result_by_llm, bind, lift, raise.
  destruct (str_format up kwargs) as [p|e].
  - destruct (litellm_generate_silent_from
                [ {| role := u "system"; content := sp |};
                  {| role := u "user"; content := p |} ] judge_model None None true None w H)
      as (w' & -> & H').
    exists TypeError, w'. split; [reflexivity|]. split; [exact H'|reflexivity].
  - exists e, w. split; [reflexivity|]. split; [exact H|discriminate].
Qed.

Lemma attempts_silent_from sp up judge_model kwargs n : forall w,
  silent_from w ->
  exists w', attempts (or_none (eval_result_by_llm sp up judge_model kwargs)) n w
             = (OK (JArr []), w') /\ silent_from w'.
Proof.
  induction n as [|n IH]; intros w H; cbn [attempts].
  - exists w. split; [reflexivity|exact H].
  - destruct (eval_result_by_llm_silent_from sp up judge_model kwargs w H)
      as (e & w1 & E & H1 & _).
    unfold catch at 1. unfold bind at 1. unfold or_none, catch, bind, ret. rewrite E.
    unfold lift. cbn [loads]. apply IH, H1.
Qed.

(** X11.  The self-critique call is not guarded as the dimension judges
    are.  With a gate that found no problem and a backend that delivers no
    content afterwards, the four dimension judges come back empty, the
    self-critique raises - a [TypeError] if its prompt could be formatted -
    and the worker records the task as failed. *)
Theorem self_critique_silence_aborts (task : DISCOX) (model judge_model : pystr)
    (w0 w w1 : world) (output : option pystr) (text : pystr) :
  litellm_generate (candidate_messages task) model None (Some 20000) false None w0
    = (OK output, w) ->
  eval_result_by_llm instruct_sp instruct_up judge_model (gate_kwargs task output) w
    = (OK text, w1) ->
  gate_problem text = false ->
  silent_from w1 ->
  exists e w2,
    metrics task output judge_model w = (Raise e, w2)
    /\ wrapped_run model judge_model task w0 = (OK (error_record e), w2)
    /\ (forall p, str_format self_critique_up critique_of_nothing = OK p -> e = TypeError).
Proof.
  intros Hc Hg Hp Hs.
  assert (Hm : exists e w2, metrics task output judge_model w = (Raise e, w2)
            /\ (forall p, str_format self_critique_up critique_of_nothing = OK p
                          -> e = TypeError)).
  { unfold metrics. unfold gate_kwargs in Hg. unfold bind at 1. rewrite Hg, Hp.
    unfold judge_accuracy, judge_checkpoint, judge_fluency, judge_appropiate,
      safe_json_call.
    destruct (attempts_silent_from accuracy_sp up judge_model
                [(u "ori_text", JStr (ori_text task)); (u "response", opt_str output)]
                (Z.to_nat 3) w1 Hs) as (w2 & E2 & H2).
    unfold bind at 1. rewrite E2.
    destruct (attempts_silent_from checkpoints_sp checkpoints_up judge_model
                [(u "ori_text", JStr (ori_text task)); (u "response", opt_str output);
                 (u "checkpoints", JStr (reference_list task))]
                (Z.to_nat 3) w2 H2) as (w3 & E3 & H3).
    unfold bind at 1. rewrite E3.
    destruct (attempts_silent_from fluency_sp up judge_model
                [(u "ori_text", JStr (ori_text task)); (u "response", opt_str output)]
                (Z.to_nat 3) w3 H3) as (w4 & E4 & H4).
    unfold bind at 1. rewrite E4.
    destruct (attempts_silent_from appropiate_sp up judge_model
                [(u "ori_text", JStr (ori_text task)); (u "response", opt_str output)]
                (Z.to_nat 3) w4 H4) as (w5 & E5 & H5).
    unfold bind at 1. rewrite E5.
    unfold self_critique_judge.
    destruct (eval_result_by_llm_silent_from self_critique_sp self_critique_up judge_model
                critique_of_nothing w5 H5) as (e & w6 & E6 & _ & He).
    unfold critique_of_nothing in E6. unfold bind at 1. rewrite E6.
    exists e, w6. split; [reflexivity|exact He]. }
  destruct Hm as (e & w2 & Hm & He). exists e, w2. split; [exact Hm|]. split; [|exact He].
  apply wrapped_run_raise. unfold run_task, bind.
  unfold candidate_messages in Hc. rewrite Hc, Hm. reflexivity.
Qed.

End BackendFacts.

Lemma self_critique_silence_aborts_witness :
  exists w2,
    wrapped_run (lib := Demo.pylib) (tpl := Demo.prompts) (u "model") (u "judge")
      (Demo.task 1) Sample.no_problem
    = (OK (error_record (lib := Demo.pylib) TypeError), w2).
Proof.
  pose (w := (litellm_generate (candidate_messages (Demo.task 1)) (u "model") None
                (Some 20000) false None Sample.no_problem).2).
  pose (w1 := (eval_result_by_llm (lib := Demo.pylib) (instruct_sp (Prompts := Demo.prompts))
                 (instruct_up (Prompts := Demo.prompts)) (u "judge")
                 (gate_kwargs (Demo.task 1) (Some (u "hello"))) w).2).
  destruct (self_critique_silence_aborts (lib := Demo.pylib) (tpl := Demo.prompts)
              (Demo.task 1) (u "model") (u "judge") Sample.no_problem w w1
              (Some (u "hello")) (u "是否存在问题：否"))
    as (e & w2 & _ & E & He).
  - reflexivity.
  - reflexivity.
  - vm_compute. reflexivity.
  - intros req reqs. left. reflexivity.
  - exists w2. rewrite E. rewrite (He [] eq_refl). reflexivity.
Defined.

Section Unparsable.
Context {lib : PyLib} {tpl : Prompts}.
Variable text : pystr.
Hypothesis unparsable : exists e, json_loads (extract_json_string text) = Raise e.

(** The number of requests an attempt costs: none when the prompt cannot be
    made. *)
Let cost (up : pystr) (kwargs : list (pystr * json)) (n : nat) : nat :=
  match str_format up kwargs with
  | OK _ => n
  | Raise _ => 0%nat
  end.

Lemma eval_result_by_llm_chatting sp up judge_model kwargs w :
  chatting text w -> formats up kwargs ->
  exists w', eval_result_by_llm sp up judge_model kwargs w
             = (OK (extract_json_string text), w')
    /\ chatting text w' /\ length (sent w') = S (length (sent w)).
Proof.
  intros [[[base Eb] [key Ek]] Ha] [p Hp]. unfold eval_result_by_llm, bind, lift.
  rewrite Hp.
  unfold litellm_generate. cbn [negb fst snd]. rewrite Eb, Ek, Ha.
  eexists. split; [reflexivity|]. split.
  - split; [split; eexists; cbn [send environ]; eassumption|exact Ha].
  - cbn [send sent]. rewrite length_app. cbn. lia.
Qed.

(** A guarded attempt fails, with a request or, when the prompt cannot be
    made, without. *)
Lemma or_none_chatting sp up judge_model kwargs w :
  chatting text w ->
  exists w', failed (or_none (eval_result_by_llm sp up judge_model kwargs)) w w'
    /\ chatting text w'
    /\ length (sent w') = (length (sent w) + cost up kwargs 1)%nat.
Proof.
  intros H. unfold cost. destruct (str_format up kwargs) as [p|e] eqn:Hp.
  - destruct (eval_result_by_llm_chatting sp up judge_model kwargs w H)
      as (w' & E & H' & L); [exists p; exact Hp|].
    exists w'. split; [|split; [exact H'|lia]].
    destruct unparsable as [e He].
    apply (failed_parse _ _ _ (Some (extract_json_string text)) e); [|exact He].
    unfold or_none, catch, bind, ret. rewrite E. reflexivity.
  - exists w. split; [|split; [exact H|lia]].
    apply (failed_parse _ _ _ None TypeError); [|reflexivity].
    unfold or_none, catch, bind, ret, eval_result_by_llm, bind, lift. rewrite Hp.
    reflexivity.
Qed.

Lemma attempts_chatting sp up judge_model kwargs n : forall w,
  chatting text w ->
  exists w', attempts (or_none (eval_result_by_llm sp up judge_model kwargs)) n w
             = (OK (JArr []), w')
    /\ chatting text w'
    /\ length (sent w') = (length (sent w) + cost up kwargs n)%nat.
Proof.
  induction n as [|n IH]; intros w H.
  - exists w. split; [reflexivity|]. split; [exact H|].
    unfold cost. destruct (str_format up kwargs); lia.
  - destruct (or_none_chatting sp up judge_model kwargs w H) as (w1 & F & H1 & L1).
    rewrite (attempts_failed _ _ _ _ F).
    destruct (IH w1 H1) as (w' & -> & H' & L').
    exists w'. split; [reflexivity|]. split; [exact H'|].
    rewrite L', L1. unfold cost. destruct (str_format up kwargs); lia.
Qed.

Lemma calculate_score_nothing :
  calculate_score (JArr []) (JArr []) (JArr []) (JArr []) = OK (60, 20, 20).
Proof. reflexivity. Qed.

(** X12.  Judgments that cannot be read count as no findings.  Let the
    judge answer every request with the same text, a text that is not JSON
    and in which the gate pattern finds no problem, and let the prompts of
    the gate and of the self-critique take their arguments.  Then every
    judgment comes back empty and the answer gets the full score of 100,
    whatever it is; and when the prompts of the judges take their arguments
    too, all of the 26 requests are sent for it. *)
Theorem unparsable_judgments_full_marks (task : DISCOX) (response : option pystr)
    (judge_model : pystr) (w : world) :
  chatting text w ->
  gate_problem (extract_json_string text) = false ->
  formats instruct_up (gate_kwargs task response) ->
  formats self_critique_up critique_of_nothing ->
  exists w',
    metrics task response judge_model w
      = (OK ((60, 20, 20), 100,
             nothing_found (extract_json_string text) (extract_json_string text)), w')
    /\ (judges_format task response (extract_json_string text) ->
        length (sent w') = (length (sent w) + 26)%nat).
Proof.
  intros H0 Hp Hgate Hcritique.
  unfold metrics, judge_accuracy, judge_checkpoint, judge_fluency, judge_appropiate,
    self_critique_judge, final_judge, safe_json_call.
  destruct (eval_result_by_llm_chatting instruct_sp instruct_up judge_model
              [(u "prompt", JStr (ori_text task)); (u "response", opt_str response)] w H0
              Hgate)
    as (w1 & E1 & H1 & L1).
  unfold bind at 1. rewrite E1, Hp.
  destruct (attempts_chatting accuracy_sp up judge_model
              [(u "ori_text", JStr (ori_text task)); (u "response", opt_str response)]
              (Z.to_nat 3) w1 H1) as (w2 & E2 & H2 & L2).
  unfold bind at 1. rewrite E2.
  destruct (attempts_chatting checkpoints_sp checkpoints_up judge_model
              [(u "ori_text", JStr (ori_text task)); (u "response", opt_str response);
               (u "checkpoints", JStr (reference_list task))]
              (Z.to_nat 3) w2 H2) as (w3 & E3 & H3 & L3).
  unfold bind at 1. rewrite E3.
  destruct (attempts_chatting fluency_sp up judge_model
              [(u "ori_text", JStr (ori_text task)); (u "response", opt_str response)]
              (Z.to_nat 3) w3 H3) as (w4 & E4 & H4 & L4).
  unfold bind at 1. rewrite E4.
  destruct (attempts_chatting appropiate_sp up judge_model
              [(u "ori_text", JStr (ori_text task)); (u "response", opt_str response)]
              (Z.to_nat 3) w4 H4) as (w5 & E5 & H5 & L5).
  unfold bind at 1. rewrite E5.
  destruct (eval_result_by_llm_chatting self_critique_sp self_critique_up judge_model
              critique_of_nothing w5 H5 Hcritique) as (w6 & E6 & H6 & L6).
  unfold critique_of_nothing in E6. unfold bind at 1. rewrite E6.
  destruct (attempts_chatting accuracy_final_sp accuracy_final_up judge_model
              [(u "accuracy_judge_result", JArr []);
               (u "adjustment", JStr (extract_json_string text))]
              (Z.to_nat 3) w6 H6) as (w7 & E7 & H7 & L7).
  unfold bind at 1. rewrite E7.
  destruct (attempts_chatting appropiate_final_sp appropiate_final_up judge_model
              [(u "style_judge_result", JArr []);
               (u "adjustment", JStr (extract_json_string text))]
              (Z.to_nat 3) w7 H7) as (w8 & E8 & H8 & L8).
  unfold bind at 1. rewrite E8.
  destruct (attempts_chatting checkpoints_final_sp checkpoints_final_up judge_model
              [(u "checkpoints_judge_result", JArr []);
               (u "adjustment", JStr (extract_json_string text))]
              (Z.to_nat 3) w8 H8) as (w9 & E9 & H9 & L9).
  unfold bind at 1. rewrite E9.
  destruct (attempts_chatting fluency_final_sp fluency_final_up judge_model
              [(u "fluency_judge_result", JArr []);
               (u "adjustment", JStr (extract_json_string text))]
              (Z.to_nat 3) w9 H9) as (w10 & E10 & H10 & L10).
  unfold bind at 1. rewrite E10.
  unfold bind, lift, ret. rewrite calculate_score_nothing.
  exists w10. split; [reflexivity|].
  intros ([p1 F1] & [p2 F2] & [p3 F3] & [p4 F4] & [p5 F5] & [p6 F6]).
  unfold cost in *. rewrite ?F1, ?F2, ?F3, ?F4, ?F5, ?F6 in *.
  change (Z.to_nat 3) with 3%nat in *. lia.
Qed.

End Unparsable.

Lemma unparsable_judgments_full_marks_witness :
  exists w',
    metrics (lib := Demo.pylib) (tpl := Demo.prompts) (Demo.task 1) (Some (u "hello"))
      (u "judge") Sample.chatty
    = (OK ((60, 20, 20), 100,
           nothing_found (u "Sure, happy to help!") (u "Sure, happy to help!")), w')
    /\ length (sent w') = 26%nat.
Proof.
  destruct (unparsable_judgments_full_marks (lib := Demo.pylib) (tpl := Demo.prompts)
              (u "Sure, happy to help!")
              ltac:(exists ValueError; vm_compute; reflexivity)
              (Demo.task 1) (Some (u "hello")) (u "judge") Sample.chatty)
    as (w' & E & L).
  - split; [split; eexists; reflexivity|]. intros history. reflexivity.
  - vm_compute. reflexivity.
  - eexists. reflexivity.
  - eexists. reflexivity.
  - exists w'. split; [exact E|]. apply L.
    repeat split; eexists; reflexivity.
Defined.

Section Credentials.
Context {lib : PyLib} {tpl : Prompts}.

Lemma litellm_generate_unconfigured messages model temperature max_tokens top_p w :
  environ w (u "JUDGE_API_BASE") = None \/ environ w (u "JUDGE_API_KEY") = None ->
  litellm_generate messages model temperature max_tokens true top_p w = (OK None, w).
Proof.
  intros H. unfold litellm_generate. cbn [negb fst snd].
  destruct H as [-> | ->]; [reflexivity|].
  destruct (environ w (u "JUDGE_API_BASE")); reflexivity.
Qed.

Lemma or_none_unconfigured sp up judge_model kwargs w :
  environ w (u "JUDGE_API_BASE") = None \/ environ w (u "JUDGE_API_KEY") = None ->
  or_none (eval_result_by_llm sp up judge_model kwargs) w = (OK None, w).
Proof.
  intros H. unfold or_none, catch, eval_result_by_llm, bind, lift, ret, raise.
  destruct (str_format up kwargs); [|reflexivity].
  rewrite (litellm_generate_unconfigured _ _ _ _ _ _ H). reflexivity.
Qed.

(** X13.  Without the judge's credentials in the environment nothing is
    sent: the gate call raises a [TypeError] at once, so [metrics] does, and
    every structured judge call returns the empty judgment at once, however
    many attempts it has. *)
Theorem judge_credentials_missing (task : DISCOX) (response : option pystr)
    (judge_model : pystr) (w : world) (user_prompt : pystr) :
  environ w (u "JUDGE_API_BASE") = None \/ environ w (u "JUDGE_API_KEY") = None ->
  str_format instruct_up (gate_kwargs task response) = OK user_prompt ->
  metrics task response judge_model w = (Raise TypeError, w)
  /\ forall sp up kwargs retries,
       safe_json_call (or_none (eval_result_by_llm sp up judge_model kwargs)) retries w
       = (OK (JArr []), w).
Proof.
  intros H Hf. split.
  - unfold metrics, eval_result_by_llm. unfold gate_kwargs in Hf.
    unfold bind, lift, raise. rewrite Hf.
    rewrite (litellm_generate_unconfigured _ _ _ _ _ _ H). reflexivity.
  - intros sp up kwargs retries. unfold safe_json_call.
    induction (Z.to_nat retries) as [|n IH]; cbn [attempts]; [reflexivity|].
    unfold catch, bind. rewrite (or_none_unconfigured _ _ _ _ _ H).
    unfold lift. cbn [loads]. exact IH.
Qed.

End Credentials.

Lemma judge_credentials_missing_witness :
  metrics (lib := Demo.pylib) (tpl := Demo.prompts) (Demo.task 1) (Some (u "hello"))
    (u "judge") Sample.no_judge_key
  = (Raise TypeError, Sample.no_judge_key)
  /\ judge_accuracy (lib := Demo.pylib) (tpl := Demo.prompts) (u "你好") (JStr (u "hello"))
       (u "judge") Sample.no_judge_key
     = (OK (JArr []), Sample.no_judge_key).
Proof.
  destruct (judge_credentials_missing (lib := Demo.pylib) (tpl := Demo.prompts)
              (Demo.task 1) (Some (u "hello")) (u "judge") Sample.no_judge_key [])
    as [Hm Hj].
  - right. reflexivity.
  - reflexivity.
  - split; [exact Hm|]. apply Hj.
Defined.

(** ** Which checkpoint is the latest *)

(** [max] with a key returns the first of the elements with the greatest
    key. *)
Lemma max_by_first (key : pystr -> Z) (rest : list pystr) : forall best,
  exists pre post,
    best :: rest = pre ++ max_by key best rest :: post
    /\ Forall (fun x => key x < key (max_by key best rest)) pre
    /\ Forall (fun x => key x <= key (max_by key best rest)) post.
Proof.
  induction rest as [|x rest IH]; intros best; cbn [max_by].
  - exists [], []. repeat split; constructor.
  - destruct (key best <? key x) eqn:E.
    + apply Z.ltb_lt in E.
      destruct (IH x) as (pre & post & Hs & Hpre & Hpost).
      exists (best :: pre), post. split; [cbn [app]; rewrite <- Hs; reflexivity|].
      split; [|exact Hpost]. constructor; [|exact Hpre].
      assert (Hx : key x <= key (max_by key x rest)).
      { assert (Hin : x ∈ pre ++ max_by key x rest :: post)
          by (rewrite <- Hs; left).
        apply elem_of_app in Hin as [Hin|Hin].
        - rewrite Forall_forall in Hpre. specialize (Hpre x Hin). cbn in Hpre. lia.
        - apply elem_of_cons in Hin as [<-|Hin]; [lia|].
          rewrite Forall_forall in Hpost. apply (Hpost x Hin). }
      lia.
    + apply Z.ltb_ge in E.
      destruct (IH best) as (pre & post & Hs & Hpre & Hpost).
      destruct pre as [|b pre].
      * cbn [app] in Hs. injection Hs as Hb Hr.
        exists [], (x :: post). rewrite <- Hb in Hpost |- *. subst post.
        split; [reflexivity|]. split; [constructor|].
        constructor; [exact E|exact Hpost].
      * cbn [app] in Hs. injection Hs as Hb Hr. subst b.
        exists (best :: x :: pre), post.
        split; [cbn [app]; do 2 f_equal; exact Hr|]. split; [|exact Hpost].
        inversion Hpre as [|? ? Hbest Hpre']; subst.
        constructor; [exact Hbest|]. constructor; [lia|exact Hpre'].
Qed.

Section Latest.
Context {lib : PyLib}.

(** X14.  The checkpoint that is continued is the newest: among the files
    that match the pattern of the model and the task set,
    [get_latest_jsonl_file] returns the first, in the order of the listing,
    of those created last; it returns [None] when no file matches, and it
    changes no file. *)
Theorem get_latest_jsonl_file_newest (folder_path modelname taskname : pystr) (s : sys) :
  exists all_files s',
    glob (path_join folder_path (u "*" ++ modelname ++ u "*" ++ taskname ++ u "*.jsonl")) s
      = (OK all_files, s')
    /\ files s' = files s
    /\ match all_files with
       | [] => get_latest_jsonl_file folder_path modelname taskname s = (OK None, s')
       | _ :: _ =>
         exists older latest_file others,
           all_files = older ++ latest_file :: others
           /\ get_latest_jsonl_file folder_path modelname taskname s
              = (OK (Some latest_file), s')
           /\ Forall (fun p => getctime (files s) p < getctime (files s) latest_file) older
           /\ Forall (fun p => getctime (files s) p <= getctime (files s) latest_file) others
       end.
Proof.
  unfold get_latest_jsonl_file, bind.
  destruct (glob _ s) as [[all_files|e] s'] eqn:G.
  2: { unfold glob, bind, emit in G. discriminate G. }
  assert (Hf : files s' = files s).
  { unfold glob, bind, emit in G. injection G as _ <-. reflexivity. }
  exists all_files, s'. split; [reflexivity|]. split; [exact Hf|].
  destruct all_files as [|first rest]; [reflexivity|].
  destruct (max_by_first (getctime (files s)) rest first) as (pre & post & Hs & Hpre & Hpost).
  exists pre, (max_by (getctime (files s)) first rest), post.
  rewrite Hf. repeat split; assumption.
Qed.

End Latest.

(** ** The names of the output files *)

Lemma str_replace_char (a b : N) (s : pystr) : forall fuel,
  (length s < fuel)%nat ->
  str_replace [a] [b] fuel s = (fun c => if (a =? c)%N then b else c) <$> s.
Proof.
  induction s as [|c s IH]; intros [|fuel] Hf; cbn in Hf; try lia; cbn [str_replace].
  - reflexivity.
  - cbn [startswith fmap list_fmap]. rewrite andb_true_r.
    destruct (a =? c)%N; cbn [length drop app]; rewrite IH by lia; reflexivity.
Qed.

(** X15.  The model name used in file names is the model name with every
    slash turned into a hyphen: it has the length of the model name, holds no
    slash, and is the model name itself when that holds none. *)
Theorem modelname_flat (model : pystr) :
  let modelname := replace (u "/") (u "-") model in
  modelname = (fun c => if (47 =? c)%N then 45%N else c) <$> model
  /\ length modelname = length model
  /\ Forall (fun c => c <> 47%N) modelname
  /\ (Forall (fun c => c <> 47%N) model -> modelname = model).
Proof.
  cbv zeta. unfold replace.
  change (u "/") with [47%N]. change (u "-") with [45%N].
  rewrite str_replace_char by lia.
  split; [reflexivity|]. split; [apply length_fmap|]. split.
  - apply Forall_fmap, Forall_forall. intros c _. unfold compose.
    destruct (47 =? c)%N eqn:E; [intros Heq; discriminate Heq|].
    apply N.eqb_neq in E. intros Heq. congruence.
  - intros H. induction H as [|c l Hc _ IH]; [reflexivity|].
    cbn [fmap list_fmap]. rewrite IH.
    destruct (47 =? c)%N eqn:E; [|reflexivity]. apply N.eqb_eq in E. congruence.
Qed.

Lemma modelname_flat_witness :
  replace (u "/") (u "-") (u "gpt-4o") = u "gpt-4o"
  /\ replace (u "/") (u "-") (u "openai/gpt-4o") = u "openai-gpt-4o".
Proof.
  split; [|vm_compute; reflexivity].
  apply (proj2 (proj2 (proj2 (modelname_flat (u "gpt-4o"))))).
  repeat constructor; discriminate.
Defined.

Lemma startswith_self (p x : pystr) : startswith p (p ++ x) = true.
Proof.
  induction p as [|a p IH]; [reflexivity|]. cbn [startswith app].
  rewrite N.eqb_refl, IH. reflexivity.
Qed.

Lemma str_replace_nil (old new : pystr) (fuel : nat) :
  old <> [] -> str_replace old new fuel [] = [].
Proof.
  intros Ho. destruct fuel; [reflexivity|]. cbn [str_replace].
  destruct old; [congruence|reflexivity].
Qed.

(** Replacing a string that occurs at the end of a text and nowhere
    before. *)
Lemma str_replace_at_end (old new : pystr) (base : pystr) : forall fuel,
  old <> [] ->
  find old (base ++ old) = Some (length base) ->
  (length base < fuel)%nat ->
  str_replace old new fuel (base ++ old) = base ++ new.
Proof.
  induction base as [|c base IH]; intros [|fuel] Ho Hfind Hf; cbn in Hf; try lia.
  - cbn [str_replace app].
    assert (E : startswith old old = true)
      by (rewrite <- (app_nil_r old) at 2; apply startswith_self).
    rewrite E, drop_all, str_replace_nil by assumption. apply app_nil_r.
  - cbn [app] in Hfind |- *. cbn [str_replace].
    destruct old as [|o old]; [congruence|].
    cbn [find] in Hfind.
    destruct (startswith (o :: old) (c :: base ++ o :: old)); [discriminate Hfind|].
    destruct (find (o :: old) (base ++ o :: old)) as [j|] eqn:Ej; [|discriminate Hfind].
    cbn in Hfind. injection Hfind as ->.
    rewrite IH; [reflexivity|discriminate|reflexivity|lia].
Qed.

(** X16.  A run that continues a checkpoint writes its result where the run
    that began the checkpoint would have written it: when the name of the
    checkpoint holds [partial.jsonl] at its end and nowhere before, the
    result file of the resumed run is the result file of the fresh run, with
    the [./] of the lookup in front. *)
Theorem resumed_result_file (formatted_time modelname tasksname : pystr)
    (formatted_time' modelname' tasksname' : pystr) :
  let fresh := output_files formatted_time modelname tasksname None in
  let stem := u "./results/" ++ formatted_time ++ u "-" ++ modelname ++ u "-" ++ tasksname in
  find (u "partial.jsonl") (stem ++ u "partial.jsonl") = Some (length stem) ->
  output_files formatted_time' modelname' tasksname' (Some (u "./" ++ fresh.1))
  = (u "./" ++ fresh.1, u "./" ++ fresh.2)
  /\ normpath (u "./" ++ fresh.2) = fresh.2.
Proof.
  cbv zeta. intros Hfind. unfold output_files, path_join. cbn [fst snd]. split.
  - f_equal. unfold replace.
    assert (E : forall tail, u "./" ++ u "results" ++ u "/" ++
                  formatted_time ++ u "-" ++ modelname ++ u "-" ++ tasksname ++ tail
                = (u "./results/" ++ formatted_time ++ u "-" ++ modelname ++ u "-" ++ tasksname)
                  ++ tail).
    { intros tail. rewrite <- !app_assoc. reflexivity. }
    rewrite !E. apply str_replace_at_end; [discriminate|exact Hfind|].
    rewrite !length_app. lia.
  - reflexivity.
Qed.

Lemma resumed_result_file_witness :
  output_files (u "2025-01-02 00-00-00") (u "model") (u "DISCOX")
    (Some (u "./results/2025-01-01 00-00-00-model-DISCOXpartial.jsonl"))
  = (u "./results/2025-01-01 00-00-00-model-DISCOXpartial.jsonl",
     u "./results/2025-01-01 00-00-00-model-DISCOXresult.json").
Proof.
  apply (resumed_result_file (u "2025-01-01 00-00-00") (u "model") (u "DISCOX")).
  vm_compute. reflexivity.
Defined.

(** ** The checkpoint, written and read again *)





Section Checkpoint.
Context {lib : PyLib} {tpl : Prompts}.



End Checkpoint.


(** ** Runs that do not get to run *)

Section Refusals.
Context {lib : PyLib} {tpl : Prompts}.

(** Looking for a checkpoint and reading it changes no file and submits
    nothing. *)
Lemma resume_quiet tasks modelname tasksname s r s' :
  resume tasks modelname tasksname s = (r, s') ->
  files s' = files s /\ submitted (log s') = submitted (log s).
Proof.
  unfold resume, bind, lift, ret.
  destruct (get_latest_jsonl_file (u "./results") modelname tasksname s)
    as [[[path|]|e] s1] eqn:G;
    destruct (get_latest_extends _ _ _ _ _ _ G) as (es1 & (_ & _ & _ & _ & L1) & S1 & F1).
  - destruct (readlines path s1) as [[lines|e] s2] eqn:R;
      destruct (readlines_extends _ _ _ _ R) as (es2 & (_ & _ & _ & _ & L2) & S2 & F2).
    + assert (H : files s2 = files s /\ submitted (log s2) = submitted (log s)).
      { split; [congruence|]. rewrite L2, L1, !submitted_app, S1, S2, !app_nil_r. reflexivity. }
      destruct (already_run lines) as [ids|e]; [|intros [= <- <-]; exact H].
      destruct (length ids <? length tasks)%nat; [|intros [= <- <-]; exact H].
      destruct (load_all lines); intros [= <- <-]; exact H.
    + intros [= <- <-]. split; [congruence|].
      rewrite L2, L1, !submitted_app, S1, S2, !app_nil_r. reflexivity.
  - intros [= <- <-]. split; [exact F1|].
    rewrite L1, submitted_app, S1, app_nil_r. reflexivity.
  - intros [= <- <-]. split; [exact F1|].
    rewrite L1, submitted_app, S1, app_nil_r. reflexivity.
Qed.


Lemma already_run_raise (lines : list pystr) (line : pystr) (e : exn) :
  line ∈ lines -> json_loads line = Raise e -> exists e', already_run lines = Raise e'.
Proof.
  intros Hin He. induction lines as [|l lines IH]; [inversion Hin|].
  cbn [already_run]. apply elem_of_cons in Hin as [<-|Hin].
  - rewrite He. exists e. reflexivity.
  - destruct (IH Hin) as [e' E'].
    destruct (json_loads l) as [v|e0]; cbn [rbind]; [|eexists; reflexivity].
    destruct (py_contains (u "prompt_id") v) as [[|]|e0]; cbn [rbind];
      [|exists e'; exact E'|eexists; reflexivity].
    destruct (py_getitem (u "prompt_id") v) as [id|e0]; cbn [rbind];
      [|eexists; reflexivity].
    rewrite E'. exists e'. reflexivity.
Qed.

(** X19.  A checkpoint with a line that does not parse - the rest of a line
    that was being written when the run was killed, an empty line - cannot be
    continued: [run_all_sync] raises when it reads the checkpoint, before it
    has submitted a task or written a file. *)
Theorem unreadable_checkpoint (tasks : list DISCOX) (model judgemodel : pystr)
    (concurrency : Z) (s s1 s2 : sys) (path : pystr) (lines : list pystr)
    (line : pystr) (e : exn) :
  tasks <> [] ->
  get_latest_jsonl_file (u "./results") (replace (u "/") (u "-") model) (u "DISCOX") s
    = (OK (Some path), s1) ->
  readlines path s1 = (OK lines, s2) ->
  line ∈ lines -> json_loads line = Raise e ->
  exists e',
    run_all_sync tasks model judgemodel concurrency s = (Raise e', s2)
    /\ files s2 = files s
    /\ submitted (log s2) = submitted (log s).
Proof.
  intros Hne Hlatest Hread Hin He.
  destruct (already_run_raise lines line e Hin He) as [e' E'].
  assert (R : resume tasks (replace (u "/") (u "-") model) (u "DISCOX") s = (Raise e', s2)).
  { unfold resume, bind, lift. rewrite Hlatest, Hread, E'. reflexivity. }
  exists e'. destruct (resume_quiet _ _ _ _ _ _ R) as [F L].
  split; [|split; assumption].
  destruct tasks as [|t tasks]; [congruence|].
  unfold run_all_sync. unfold bind at 1. rewrite R. reflexivity.
Qed.

End Refusals.


Lemma unreadable_checkpoint_witness :
  exists e',
    (run_all_sync (lib := Demo.pylib) (tpl := Demo.prompts) Demo.two_tasks (u "model")
       (u "judge") 24 Broken.torn).1 = Raise e'.
Proof.
  pose (s1 := (get_latest_jsonl_file (lib := Demo.pylib) (u "./results")
                 (replace (u "/") (u "-") (u "model")) (u "DISCOX") Broken.torn).2).
  pose (path := u "./results/2025-01-01 00-00-00-model-DISCOXpartial.jsonl").
  pose (s2 := (readlines path s1).2).
  destruct (unreadable_checkpoint (lib := Demo.pylib) (tpl := Demo.prompts)
              Demo.two_tasks (u "model") (u "judge") 24 Broken.torn s1 s2 path
              [u "{task 1}" ++ NL; u "{task"] (u "{task") ValueError)
    as (e' & E & _).
  - discriminate.
  - vm_compute. reflexivity.
  - vm_compute. reflexivity.
  - right. left.
  - vm_compute. reflexivity.
  - exists e'. rewrite E. reflexivity.
Defined.

(** ** A run in which every task fails *)

Section FailedRun.
Context {lib : PyLib} {tpl : Prompts}.





End FailedRun.


(** The condition on the result is needed.  With the model name U+DC80,
    which is what a command-line argument with the byte 0x80 becomes, and a
    serializer that passes the characters of a string on, the error records
    are appended to the checkpoint, and the result, which names the model,
    is not written: the run ends in a [UnicodeEncodeError]. *)
Lemma surrogate_model_stops_run :
  let run := run_all_sync (lib := Surrogate.pylib) (tpl := Demo.prompts) Demo.two_tasks
               [56448%N] (u "judge") 24 Broken.offline in
  run.1 = Raise UnicodeEncodeError
  /\ submitted (log run.2) = Demo.two_tasks
  /\ forallb (fun r => encodable (@json_dumps Surrogate.pylib r ++ NL))
       (record_of (lib := Surrogate.pylib) (tpl := Demo.prompts) Broken.offline
          [56448%N] (u "judge") <$> as_completed Broken.offline Demo.two_tasks) = true
  /\ text <$> files run.2
     = [ u "errorerrortracebackTraceback" ++ NL ++ u "errorerrortracebackTraceback" ++ NL;
         [] ].
Proof.
  cbv zeta. split; [vm_compute; reflexivity|]. split; [vm_compute; reflexivity|].
  split; vm_compute; reflexivity.
Qed.

(** ** Loading the tasks *)

Lemma startswith_split (p s : pystr) :
  startswith p s = true <-> exists rest, s = p ++ rest.
Proof.
  split.
  - intros H. exists (drop (length p) s). apply startswith_app, H.
  - intros [rest ->]. apply startswith_self.
Qed.

Lemma endswith_split (suffix s : pystr) :
  endswith suffix s = true <-> exists stem, s = stem ++ suffix.
Proof.
  unfold endswith. rewrite startswith_split. split.
  - intros [rest E]. exists (rev rest).
    rewrite <- (rev_involutive s), E, rev_app_distr, rev_involutive. reflexivity.
  - intros [stem ->]. exists (rev stem). apply rev_app_distr.
Qed.

Section Loading.
Context {lib : PyLib} {tpl : Prompts} {pyd : Pydantic}.

Lemma load_json_bad_name (filename : pystr) (s : sys) :
  (forall stem, filename <> stem ++ u ".json") ->
  load_json filename s = (Raise ValueError, s).
Proof.
  intros H. unfold load_json.
  destruct (endswith (u ".json") filename) eqn:E; [|reflexivity].
  apply endswith_split in E as [stem E]. destruct (H stem E).
Qed.

Lemma load_tasks_data (filename : pystr) (s s' : sys) (r : res json) :
  load_json filename s = (r, s') ->
  load_tasks filename s
  = (match r with
     | OK data =>
         match py_iter data with
         | OK items => construct_all items
         | Raise e => Raise e
         end
     | Raise e => Raise e
     end, s').
Proof.
  intros E. unfold load_tasks, bind, lift. rewrite E.
  destruct r as [data|e]; [|reflexivity]. destruct (py_iter data); reflexivity.
Qed.

(** X21.  [load_json] looks at the name before it looks at the file: a
    name that does not end in [.json] is a [ValueError], whether or not the
    file exists; a name that does and names no file is an [OSError];
    otherwise the result is what [json.loads] makes of the text of the file,
    and in no case is the working directory changed. *)
Theorem load_json_cases (filename : pystr) (s : sys) :
  ((forall stem, filename <> stem ++ u ".json") ->
     load_json filename s = (Raise ValueError, s))
  /\ (forall stem, filename = stem ++ u ".json" ->
        load_json filename s
        = (match lookup_file (normpath filename) (files s) with
           | Some f => json_loads (concat (split_lines [] (text f)))
           | None => Raise OSError
           end, s)).
Proof.
  split; [apply load_json_bad_name|]. unfold load_json.
  - intros stem E. rewrite (proj2 (endswith_split (u ".json") filename)) by (exists stem; exact E).
    cbn [negb]. unfold bind, read_text, lift.
    destruct (lookup_file (normpath filename) (files s)); reflexivity.
Qed.

Lemma construct_all_not_object (items : list json) (item : json) :
  item ∈ items -> (forall kv, item <> JObj kv) ->
  exists e, construct_all items = Raise e.
Proof.
  intros Hin Hitem. induction items as [|x items IH]; [inversion Hin|].
  cbn [construct_all]. apply elem_of_cons in Hin as [<-|Hin].
  - exists TypeError. destruct item; try reflexivity. destruct (Hitem kv eq_refl).
  - destruct (IH Hin) as [e E].
    destruct (construct x) as [task|e0]; cbn [rbind]; [|eexists; reflexivity].
    rewrite E. exists e. reflexivity.
Qed.

(** X22.  The task file has to hold a list of objects.  If it holds
    [null], a boolean or a number, [load_tasks] raises a [TypeError]; so it
    does for an object with a key, whose keys then stand where the tasks
    should; and it raises for a list that has an element that is not an
    object.  An empty list gives no tasks, and so does an empty object. *)
Theorem load_tasks_cases (filename : pystr) (s : sys) (data : json) :
  load_json filename s = (OK data, s) ->
  (not_iterable data -> load_tasks filename s = (Raise TypeError, s))
  /\ (forall k v kv, data = JObj ((k, v) :: kv) ->
        load_tasks filename s = (Raise TypeError, s))
  /\ (forall items item, data = JArr items -> item ∈ items ->
        (forall kv, item <> JObj kv) ->
        exists e, load_tasks filename s = (Raise e, s))
  /\ (data = JArr [] \/ data = JObj [] -> load_tasks filename s = (OK [], s)).
Proof.
  intros E. rewrite (load_tasks_data _ _ _ _ E).
  split; [|split; [|split]].
  - destruct data; cbn; tauto.
  - intros k v kv ->. reflexivity.
  - intros items item -> Hin Hitem. cbn [py_iter].
    destruct (construct_all_not_object items item Hin Hitem) as [e ->].
    exists e. reflexivity.
  - intros [-> | ->]; reflexivity.
Qed.

(** X23.  The script needs a task file with a task in it.  With a file
    name that does not end in [.json] it raises a [ValueError], and with a
    file that holds an empty list it raises the [IndexError] of
    [run_all_sync]; in both cases no checkpoint has been looked for, no task
    submitted and no file written. *)
Theorem main_without_tasks (filename model judgemodel : pystr) (num_concurrency : Z)
    (s : sys) :
  ((forall stem, filename <> stem ++ u ".json") ->
     main filename model judgemodel num_concurrency s = (Raise ValueError, s))
  /\ (load_json filename s = (OK (JArr []), s) ->
      main filename model judgemodel num_concurrency s = (Raise IndexError, s)).
Proof.
  split.
  - intros H. unfold main, bind.
    rewrite (load_tasks_data _ _ _ _ (load_json_bad_name filename s H)). reflexivity.
  - intros E. unfold main, bind. rewrite (load_tasks_data _ _ _ _ E). reflexivity.
Qed.

End Loading.

Lemma load_json_cases_witness :
  load_json (lib := TaskFiles.pylib) (u "dataset/tasks.jsonl") TaskFiles.dataset
  = (Raise ValueError, TaskFiles.dataset)
  /\ load_json (lib := TaskFiles.pylib) (u "dataset/none.json") TaskFiles.dataset
     = (OK (JArr []), TaskFiles.dataset)
  /\ load_json (lib := TaskFiles.pylib) (u "dataset/absent.json") TaskFiles.dataset
     = (Raise OSError, TaskFiles.dataset).
Proof.
  split; [|split].
  - apply (proj1 (load_json_cases (lib := TaskFiles.pylib) (u "dataset/tasks.jsonl")
                    TaskFiles.dataset)).
    intros stem H. apply (f_equal (@rev N)) in H. rewrite rev_app_distr in H.
    vm_compute in H. discriminate H.
  - rewrite (proj2 (load_json_cases (lib := TaskFiles.pylib) (u "dataset/none.json")
                      TaskFiles.dataset) (u "dataset/none") eq_refl).
    vm_compute. reflexivity.
  - rewrite (proj2 (load_json_cases (lib := TaskFiles.pylib) (u "dataset/absent.json")
                      TaskFiles.dataset) (u "dataset/absent") eq_refl).
    vm_compute. reflexivity.
Defined.

Lemma load_tasks_cases_witness :
  load_tasks (lib := TaskFiles.pylib) (pyd := TaskFiles.by_id) (u "dataset/null.json")
    TaskFiles.dataset = (Raise TypeError, TaskFiles.dataset)
  /\ (exists e, load_tasks (lib := TaskFiles.pylib) (pyd := TaskFiles.by_id)
                  (u "dataset/mixed.json") TaskFiles.dataset
                = (Raise e, TaskFiles.dataset))
  /\ load_tasks (lib := TaskFiles.pylib) (pyd := TaskFiles.by_id) (u "dataset/none.json")
       TaskFiles.dataset = (OK [], TaskFiles.dataset).
Proof.
  split; [|split].
  - apply (load_tasks_cases (lib := TaskFiles.pylib) (pyd := TaskFiles.by_id)
             (u "dataset/null.json") TaskFiles.dataset JNull);
      [vm_compute; reflexivity|exact I].
  - apply (proj1 (proj2 (proj2
             (load_tasks_cases (lib := TaskFiles.pylib) (pyd := TaskFiles.by_id)
                (u "dataset/mixed.json") TaskFiles.dataset (JArr [Demo.stored; JInt 2])
                ltac:(vm_compute; reflexivity))))
             [Demo.stored; JInt 2] (JInt 2) eq_refl).
    + right. left.
    + discriminate.
  - apply (load_tasks_cases (lib := TaskFiles.pylib) (pyd := TaskFiles.by_id)
             (u "dataset/none.json") TaskFiles.dataset (JArr []));
      [vm_compute; reflexivity|left; reflexivity].
Defined.

Lemma main_without_tasks_witness :
  main (lib := TaskFiles.pylib) (tpl := Demo.prompts) (pyd := TaskFiles.by_id)
    (u "dataset/none.json") (u "model") (u "judge") 32 TaskFiles.dataset
  = (Raise IndexError, TaskFiles.dataset).
Proof.
  apply (main_without_tasks (lib := TaskFiles.pylib) (tpl := Demo.prompts)
           (pyd := TaskFiles.by_id)).
  vm_compute. reflexivity.
Defined.

(** ** Resuming after failures *)

Section Retries.
Context {lib : PyLib} {tpl : Prompts}.

Lemma already_run_recorded lines : forall recs,
  Forall2 (fun line r => json_loads line = OK r) lines recs ->
  Forall score_ok recs ->
  already_run lines = OK (omap recorded_id recs).
Proof.
  induction lines as [|line lines IH]; intros recs Hp Hr.
  - inversion Hp; subst. reflexivity.
  - inversion Hp as [|? r ? recs' Hl Hp']; subst.
    inversion Hr as [|? ? (kv & -> & _) Hr']; subst.
    cbn [already_run]. rewrite Hl. cbn [rbind py_contains py_getitem].
    rewrite (IH _ Hp' Hr').
    change (omap recorded_id (JObj kv :: recs'))
      with (match assoc (u "prompt_id") kv with
            | Some id => id :: omap recorded_id recs'
            | None => omap recorded_id recs'
            end).
    destruct (assoc (u "prompt_id") kv) as [id|].
    + rewrite bool_decide_eq_true_2 by eauto. reflexivity.
    + rewrite bool_decide_eq_false_2 by (intros [? ?]; discriminate). reflexivity.
Qed.

Lemma recorded_id_error (e : exn) : recorded_id (error_record e) = None.
Proof. vm_compute. reflexivity. Qed.

(** X24.  A task that failed is tried again, and the record of its failure
    stays.  Let the latest checkpoint hold records as the workers write
    them, run records and error records, fewer with an identifier than there
    are tasks.  Then the resumed run submits the tasks that no record counts
    for - among them every task that has but error records.  When the new
    records can be encoded as UTF-8, its results are all the records of the
    checkpoint, the error records too, followed by the new ones, and it
    returns them if the result can be encoded as well; a new record or a
    result that cannot be encoded ends the run in a [UnicodeEncodeError]. *)
Theorem resume_retries_failures (tasks : list DISCOX) (model judgemodel : pystr)
    (concurrency : Z) (s s1 s2 : sys) (path : pystr) (lines : list pystr)
    (recs : list json) :
  0 < concurrency ->
  get_latest_jsonl_file (u "./results") (replace (u "/") (u "-") model) (u "DISCOX") s
    = (OK (Some path), s1) ->
  readlines path s1 = (OK lines, s2) ->
  Forall2 (fun line r => json_loads line = OK r) lines recs ->
  Forall score_ok recs ->
  (length (omap recorded_id recs) < length tasks)%nat ->
  (forall valid, Forall percent valid -> exists acc, mean_percent valid = OK acc) ->
  let todo := unrecorded recs tasks in
  let new := record_of s model judgemodel <$> as_completed s todo in
  let results := recs ++ new in
  submitted (log (run_all_sync tasks model judgemodel concurrency s).2)
    = submitted (log s) ++ todo
  /\ (Forall (fun r => exists e, r = error_record e) recs -> todo = tasks)
  /\ (Forall (fun r => encodable (json_dumps r ++ NL) = true) new ->
      exists acc s',
        let pieces := json_dump_indent (result_document acc model results) in
        run_all_sync tasks model judgemodel concurrency s
        = (if (written pieces).2 then OK (results, acc) else Raise UnicodeEncodeError, s')
        /\ (Forall (fun piece => encodable piece = true) pieces ->
            run_all_sync tasks model judgemodel concurrency s = (OK (results, acc), s')))
  /\ (Exists (fun r => encodable (json_dumps r ++ NL) = false) new ->
      exists s',
        run_all_sync tasks model judgemodel concurrency s = (Raise UnicodeEncodeError, s')).
Proof.
  intros Hc Hlatest Hread Hparse Hrecs Hlt Hmean todo new results.
  destruct (get_latest_extends _ _ _ _ _ _ Hlatest) as (es1 & X1 & S1 & _).
  destruct (readlines_extends _ _ _ _ Hread) as (es2 & X2 & S2 & _).
  pose proof (extends_trans _ _ _ _ _ X1 X2) as X12.
  destruct (emit_extends (MakeDirs (u "results")) s2) as (s3 & E3 & X3 & _).
  pose proof (extends_trans _ _ _ _ _ X12 X3) as X13.
  assert (Hw3 : worker s3 = worker s) by apply X13.
  assert (Ha3 : as_completed s3 = as_completed s) by apply X13.
  assert (Hlog3 : log s3 = log s ++ (es1 ++ es2) ++ [MakeDirs (u "results")]) by apply X13.
  assert (Hrun : run_all_sync tasks model judgemodel concurrency s
                 = execute model judgemodel concurrency todo recs path
                     (replace (u "partial.jsonl") (u "result.json") path) s3).
  { destruct tasks as [|t tasks']; [cbn in Hlt; lia|].
    unfold run_all_sync, resume, bind, lift, ret.
    rewrite Hlatest, Hread, (already_run_recorded _ _ Hparse Hrecs).
    replace (length (omap recorded_id recs) <? length (t :: tasks'))%nat with true
      by (symmetry; apply Nat.ltb_lt; assumption).
    rewrite (load_all_recs _ _ Hparse).
    rewrite (list_filter_iff _
               (fun task => existsb (eq_int (prompt_id task)) (omap recorded_id recs) = false)).
    2: { intros task. unfold not_run. rewrite negb_true_iff. reflexivity. }
    fold (unrecorded recs (t :: tasks')). fold todo.
    rewrite E3. unfold output_files. reflexivity. }
  split; [|split; [|split]].
  - rewrite Hrun, (execute_submits _ _ _ _ _ _ _ _ Hc), Hlog3.
    rewrite !submitted_app, S1, S2. cbn [submitted omap]. rewrite !app_nil_r.
    reflexivity.
  - intros Herr. unfold todo, unrecorded.
    assert (E : omap recorded_id recs = []).
    { clear -Herr. induction Herr as [|r rs [e ->] _ IH]; [reflexivity|].
      change (omap recorded_id (error_record e :: rs))
        with (match recorded_id (error_record e) with
              | Some id => id :: omap recorded_id rs
              | None => omap recorded_id rs
              end).
      rewrite recorded_id_error. exact IH. }
    rewrite E. clear. induction tasks as [|t l IH]; [reflexivity|].
    rewrite filter_cons_True by reflexivity. f_equal. exact IH.
  - intros Henc. rewrite Hrun.
    destruct (execute_spec model judgemodel concurrency todo recs path
                (replace (u "partial.jsonl") (u "result.json") path) s3 Hc Hrecs)
      as (acc & s' & E & _).
    { rewrite (record_of_worker _ _ _ _ Hw3), Ha3. exact Henc. }
    { exact Hmean. }
    cbv zeta in E. rewrite (record_of_worker _ _ _ _ Hw3), Ha3 in E.
    exists acc, s'. cbv zeta. split; [exact E|].
    intros Hpieces. rewrite E.
    fold new. fold results. rewrite (written_all _ Hpieces). reflexivity.
  - intros Hex. rewrite Hrun.
    destruct (execute_unwritable model judgemodel concurrency todo recs path
                (replace (u "partial.jsonl") (u "result.json") path) s3 Hc)
      as (s' & es & E & _).
    + rewrite (record_of_worker _ _ _ _ Hw3), Ha3. exact Hex.
    + exists s'. exact E.
Qed.

End Retries.

Lemma resume_retries_failures_witness :
  exists acc s',
    run_all_sync (lib := Retry.pylib) (tpl := Demo.prompts) Demo.two_tasks (u "model")
      (u "judge") 24 Retry.start
    = (OK ([ error_record (lib := Retry.pylib) ValueError;
             JObj [ (u "prompt_id", JInt 2); (u "score", JInt 80) ];
             record_of (lib := Retry.pylib) (tpl := Demo.prompts) Retry.start
               (u "model") (u "judge") (Demo.task 1) ], acc), s')
    /\ submitted (log s') = [Demo.task 1].
Proof.
  pose (s1 := (get_latest_jsonl_file (lib := Retry.pylib) (u "./results")
                 (replace (u "/") (u "-") (u "model")) (u "DISCOX") Retry.start).2).
  pose (path := u "./results/2025-01-01 00-00-00-model-DISCOXpartial.jsonl").
  pose (s2 := (readlines path s1).2).
  destruct (resume_retries_failures (lib := Retry.pylib) (tpl := Demo.prompts)
              Demo.two_tasks (u "model") (u "judge") 24 Retry.start s1 s2 path
              [u "{failed}" ++ NL; u "{task 2}" ++ NL]
              [ error_record (lib := Retry.pylib) ValueError;
                JObj [ (u "prompt_id", JInt 2); (u "score", JInt 80) ] ])
    as (L & _ & H & _).
  - lia.
  - vm_compute. reflexivity.
  - vm_compute. reflexivity.
  - repeat constructor.
  - repeat constructor.
    + eexists. split; [reflexivity|]. vm_compute. exact I.
    + eexists. split; [reflexivity|]. change (percent (JInt 80)).
      exists 80. split; [reflexivity|lia].
  - by_compute.
  - intros valid _. exists (JFloat zero). reflexivity.
  - destruct H as (acc & s' & _ & E); [vm_compute; repeat constructor|].
    assert (E' := E ltac:(vm_compute; repeat constructor)).
    exists acc, s'. split; [exact E'|]. rewrite E' in L. exact L.
Defined.

(** ** The scores of a judged answer, on an example *)

Lemma metrics_scores_witness :
  exists detailed_judgement w',
    metrics (lib := Demo.pylib) (tpl := Demo.prompts) (Demo.task 1) (Some (u "hello"))
      (u "judge") Sample.chatty
    = (OK ((60, 20, 20), 100, detailed_judgement), w')
    /\ 100 = 60 + 20 + 20 /\ 0 <= 60 <= 60 /\ 0 <= 20 <= 20 /\ 0 <= 20 <= 20.
Proof.
  pose (r := metrics (lib := Demo.pylib) (tpl := Demo.prompts) (Demo.task 1)
               (Some (u "hello")) (u "judge") Sample.chatty).
  assert (E : r = (OK ((60, 20, 20), 100,
                       match r.1 with OK x => x.2 | Raise _ => JNull end), r.2))
    by (vm_compute; reflexivity).
  eexists _, _. split; [exact E|].
  exact (metrics_scores (lib := Demo.pylib) (tpl := Demo.prompts) _ _ _ _ _ _ _ _ _ _ E).
Defined.
